(** * Cross-chain HTLC swap relayer: a shallow embedding of the orchestration code

    The development follows the JavaScript sources of the repository:

    - the two relayer servers (the plain one and the gas-aware one), with
      their [/api/create-order], [/api/submit-signed-message] and
      [/api/swap-status] handlers and their [executeSwapAsync]
      orchestration;
    - the multi-fill script [performMultipleFillCrossChainSwap] and its
      simplified variant [performSimplifiedMultipleFillSwap];
    - the demo script [cross-chain-swap.js] with its local escrow-address
      derivation;
    - the script [arb-sep-mul-fixed.js].

    BigInt values are [Z]; strings (hashes, secrets, addresses, request
    properties) are [string], read as UTF-8 text; the in-memory [Map] of active swaps is a [gmap] from order
    hashes to object references, and the objects live in a heap so that a
    mutation of [swapData] is seen through the map, as in JavaScript.
    Ledger calls are the visible events of a small free monad: a program
    issues a call and continues with the answer, which may be an error. *)

From Stdlib Require Import ZArith List String Ascii Bool Lia DecimalString.
From stdpp Require Import base option gmap strings.

Import ListNotations.
Local Open Scope string_scope.
Local Open Scope Z_scope.

Set Default Proof Using "Type".

(** ** Timelocks: the packed 256-bit word *)

Module Timelocks.

(** The constant of the stamping expression
    [(timelocks & 0xFF..FF00000000n) | BigInt(deployedAt)], as written in
    the sources: 54 hex digits [F] followed by 8 zeros. *)
Definition DEPLOYED_AT_MASK : Z :=
  0xFFFFFFFFFFFFFFFFFFFFFFFFFFFFFFFFFFFFFFFFFFFFFFFFFFFFFF00000000.

(** [timelocksWithDeployedAt]: BigInt [&] and [|] are [Z.land] and [Z.lor]. *)
Definition setDeployedAt (timelocks deployedAt : Z) : Z :=
  Z.lor (Z.land timelocks DEPLOYED_AT_MASK) deployedAt.

(** Modelled from the spec: the layout of the packed word is not in the
    sources (it belongs to the SDK and to the contracts).  The spec packs
    seven offsets and the deployment timestamp into fixed-width
    sub-fields of one wide integer; the ABI strings of the sources give
    the width ([uint256 timelocks]), hence eight sub-fields of 32 bits.
    [field i t] is the i-th of them, counted from the least significant
    bit. *)
Definition FIELD_BITS : Z := 32.
Definition FIELD_MAX : Z := 0xFFFFFFFF.

Definition field (i : Z) (t : Z) : Z :=
  Z.land (Z.shiftr t (FIELD_BITS * i)) FIELD_MAX.

(** Modelled from the spec: [encode] packs eight sub-fields, the first
    of the list in the least significant position. *)
Fixpoint pack (fields : list Z) : Z :=
  match fields with
  | [] => 0
  | f :: rest => Z.lor (Z.land f FIELD_MAX) (Z.shiftl (pack rest) FIELD_BITS)
  end.

(** Modelled from the spec: the ordering invariant of a list of
    deadlines, [d1 <= d2 <= ...]. *)
Fixpoint ordered (ds : list Z) : bool :=
  match ds with
  | a :: ((b :: _) as rest) => (a <=? b) && ordered rest
  | _ => true
  end.

(** The sub-fields of a word other than the one at position [d]. *)
Definition other_fields (d : Z) (t : Z) : list Z :=
  map (fun i => field i t) (filter (fun i => negb (i =? d)) [0; 1; 2; 3; 4; 5; 6; 7]).

End Timelocks.

(** ** Immutables *)

(** The tuple of the contract ABI:
    [(bytes32 orderHash, bytes32 hashlock, uint256 maker, uint256 taker,
      uint256 token, uint256 amount, uint256 safetyDeposit, uint256 timelocks)]. *)
Record Immutables := mkImmutables {
  orderHash : string;
  hashlock : string;
  maker : Z;
  taker : Z;
  token : Z;
  amount : Z;
  safetyDeposit : Z;
  timelocks : Z
}.

(** What [order.toSrcImmutables(...)] of the SDK returns: the addresses are
    still address values (rendered as strings), later passed to [BigInt]. *)
Record RawImmutables := mkRaw {
  raw_orderHash : string;
  raw_hashlock : string;
  raw_maker : string;
  raw_taker : string;
  raw_token : string;
  raw_amount : Z;
  raw_safetyDeposit : Z;
  raw_timelocks : Z
}.

(** *** [BigInt(string)]

    [BigInt] of a string follows [StringToBigInt] of ECMAScript: white
    space on both sides is dropped; what is left is empty (the value is
    0), or a decimal literal with an optional sign, or a binary, octal or
    hexadecimal literal ([0b], [0o], [0x], in either case) without sign;
    anything else throws a [SyntaxError].  Strings are read as UTF-8
    text, so a character of white space takes one to three bytes. *)
Module JsBigInt.

Definition code (c : ascii) : Z := Z.of_nat (nat_of_ascii c).

(** One [StrWhiteSpaceChar] at the head of the string, and what follows
    it: TAB, LF, VT, FF, CR, SP, U+00A0, U+1680, U+2000 to U+200A,
    U+2028, U+2029, U+202F, U+205F, U+3000 and U+FEFF. *)
Definition white_space (s : string) : option string :=
  match s with
  | String c1 (String c2 (String c3 rest3 as rest2) as rest1) =>
      let '(n1, n2, n3) := (code c1, code c2, code c3) in
      if ((9 <=? n1) && (n1 <=? 13)) || (n1 =? 32) then Some rest1
      else if (n1 =? 194) && (n2 =? 160) then Some rest2
      else if (n1 =? 225) && (n2 =? 154) && (n3 =? 128) then Some rest3
      else if (n1 =? 226) && (n2 =? 128)
              && (((128 <=? n3) && (n3 <=? 138)) || (n3 =? 168) || (n3 =? 169) || (n3 =? 175))
           then Some rest3
      else if (n1 =? 226) && (n2 =? 129) && (n3 =? 159) then Some rest3
      else if (n1 =? 227) && (n2 =? 128) && (n3 =? 128) then Some rest3
      else if (n1 =? 239) && (n2 =? 187) && (n3 =? 191) then Some rest3
      else None
  | String c1 (String c2 rest2 as rest1) =>
      let '(n1, n2) := (code c1, code c2) in
      if ((9 <=? n1) && (n1 <=? 13)) || (n1 =? 32) then Some rest1
      else if (n1 =? 194) && (n2 =? 160) then Some rest2
      else None
  | String c1 rest1 =>
      let n1 := code c1 in
      if ((9 <=? n1) && (n1 <=? 13)) || (n1 =? 32) then Some rest1 else None
  | EmptyString => None
  end.

Fixpoint skip_white_space (fuel : nat) (s : string) : string :=
  match fuel with
  | O => s
  | S fuel' =>
      match white_space s with
      | Some rest => skip_white_space fuel' rest
      | None => s
      end
  end.

(** The string without the white space at its head. *)
Definition trim_start (s : string) : string := skip_white_space (String.length s) s.

Definition hex_digit (c : ascii) : option Z :=
  let n := code c in
  if (48 <=? n) && (n <=? 57) then Some (n - 48)
  else if (97 <=? n) && (n <=? 102) then Some (n - 87)
  else if (65 <=? n) && (n <=? 70) then Some (n - 55)
  else None.

Definition dec_digit (c : ascii) : option Z :=
  let n := code c in
  if (48 <=? n) && (n <=? 57) then Some (n - 48) else None.

Definition oct_digit (c : ascii) : option Z :=
  let n := code c in
  if (48 <=? n) && (n <=? 55) then Some (n - 48) else None.

Definition bin_digit (c : ascii) : option Z :=
  let n := code c in
  if (48 <=? n) && (n <=? 49) then Some (n - 48) else None.

(** The value of the digits at the head of the string, and what follows
    them. *)
Fixpoint digits (base : Z) (digit : ascii -> option Z) (acc : Z) (s : string) : Z * string :=
  match s with
  | EmptyString => (acc, s)
  | String c rest =>
      match digit c with
      | Some d => digits base digit (acc * base + d) rest
      | None => (acc, s)
      end
  end.

(** One digit at least, then nothing but white space. *)
Definition integer (base : Z) (digit : ascii -> option Z) (s : string) : option Z :=
  match s with
  | EmptyString => None
  | String c _ =>
      match digit c with
      | None => None
      | Some _ =>
          let '(n, rest) := digits base digit 0 s in
          match trim_start rest with
          | EmptyString => Some n
          | _ => None
          end
      end
  end.

Definition BigInt (s : string) : option Z :=
  match trim_start s with
  | EmptyString => Some 0
  | String "0"%char (String "x"%char rest) | String "0"%char (String "X"%char rest) =>
      integer 16 hex_digit rest
  | String "0"%char (String "o"%char rest) | String "0"%char (String "O"%char rest) =>
      integer 8 oct_digit rest
  | String "0"%char (String "b"%char rest) | String "0"%char (String "B"%char rest) =>
      integer 2 bin_digit rest
  | String "+"%char rest => integer 10 dec_digit rest
  | String "-"%char rest => Z.opp <$> integer 10 dec_digit rest
  | literal => integer 10 dec_digit literal
  end.

(** The message of the [SyntaxError]. *)
Definition error (s : string) : string := "Cannot convert " ++ s ++ " to a BigInt".

(** The message of the first conversion that fails, the strings being
    converted in the order of the list. *)
Fixpoint first_error (l : list string) : option string :=
  match l with
  | [] => None
  | s :: rest =>
      match BigInt s with
      | Some _ => first_error rest
      | None => Some (error s)
      end
  end.

End JsBigInt.

(** *** Projection of the SDK's source immutables to both sides

    The block

    [const timelocksWithDeployedAt = (raw.timelocks & MASK) | BigInt(currentTimestamp)]
    [const srcImmutables = { orderHash: raw.orderHash, ..., timelocks: timelocksWithDeployedAt }]
    [const dstImmutables = { orderHash: srcImmutables.orderHash, ..., timelocks: timelocksWithDeployedAt }]

    appears verbatim in both servers and in the multi-fill scripts; only
    the destination taker, the destination token and the amount differ
    from one use to the other and are parameters here.  [None] is the
    [SyntaxError] of a [BigInt] conversion, whose message is given by
    [side_immutables_error] below. *)
Definition side_immutables (raw : RawImmutables) (deposit : Z) (currentTimestamp : Z)
    (dstTaker dstToken : string) (fillAmount : Z) : option (Immutables * Immutables) :=
  let timelocksWithDeployedAt := Timelocks.setDeployedAt (raw_timelocks raw) currentTimestamp in
  m ← JsBigInt.BigInt (raw_maker raw);
  t ← JsBigInt.BigInt (raw_taker raw);
  k ← JsBigInt.BigInt (raw_token raw);
  let srcImmutables :=
    {| orderHash := raw_orderHash raw;
       hashlock := raw_hashlock raw;
       maker := m;
       taker := t;
       token := k;
       amount := raw_amount raw;
       safetyDeposit := deposit;
       timelocks := timelocksWithDeployedAt |} in
  dt ← JsBigInt.BigInt dstTaker;
  dk ← JsBigInt.BigInt dstToken;
  let dstImmutables :=
    {| orderHash := orderHash srcImmutables;
       hashlock := hashlock srcImmutables;
       maker := maker srcImmutables;
       taker := dt;
       token := dk;
       amount := fillAmount;
       safetyDeposit := deposit;
       timelocks := timelocksWithDeployedAt |} in
  Some (srcImmutables, dstImmutables).

(** The message of the [SyntaxError] when the block throws: that of the
    first conversion that fails, in the order of the block. *)
Definition side_immutables_error (raw : RawImmutables) (dstTaker dstToken : string) : string :=
  match JsBigInt.first_error
          [raw_maker raw; raw_taker raw; raw_token raw; dstTaker; dstToken] with
  | Some message => message
  | None => ""
  end.

(** ** The ledger interface

    Every [await] of the sources on an ethers object is a [Call]; the
    answer is a value of the type the ABI gives, or an error message (the
    rejected promise). *)

Inductive Chain := Src | Dst.

(** Positional arguments of a contract call. *)
Inductive Arg :=
| AAddress (a : string)
| AUint (z : Z)
| ABytes32 (h : string)
| ATuple (i : Immutables)
| ABytes32Array (l : list string).

(** The trailing overrides object [{ value, gasLimit }]. *)
Record Overrides := mkOverrides { ov_value : option Z; ov_gasLimit : option Z }.

Definition no_overrides : Overrides := {| ov_value := None; ov_gasLimit := None |}.
Definition with_gas (g : Z) : Overrides := {| ov_value := None; ov_gasLimit := Some g |}.
Definition with_value (v : Z) : Overrides := {| ov_value := Some v; ov_gasLimit := None |}.
Definition with_value_gas (v g : Z) : Overrides := {| ov_value := Some v; ov_gasLimit := Some g |}.

(** A transaction response: the sources use [.hash] and [.wait()]. *)
Record Tx := mkTx { tx_hash : string }.

(** [interface.parseLog(log)] of a factory interface is a function of the
    log alone; a log carries its outcome.  [None] stands for a log the
    interface cannot parse (the sources catch the exception and go on).
    [ev_escrow] is [parsed.args.escrow], [ev_srcImmutables] is
    [parsed.args.srcImmutables]; either is absent on events without such an
    argument. *)
Record ParsedLog := mkParsed {
  ev_name : string;
  ev_escrow : option string;
  ev_srcImmutables : option Immutables
}.

Record Log := mkLog { parseLog : option ParsedLog }.

Record Receipt := mkReceipt { logs : list Log; blockNumber : Z }.

Record Block := mkBlock { timestamp : Z }.

Inductive Call :=
| View (ch : Chain) (contract method : string) (args : list Arg)
| ViewAddress (ch : Chain) (contract method : string) (args : list Arg)
| EstimateGas (ch : Chain) (contract method : string) (args : list Arg) (ov : Overrides)
| Send (ch : Chain) (contract method : string) (args : list Arg) (ov : Overrides)
| Wait (ch : Chain) (tx : Tx)
| GetTransactionReceipt (ch : Chain) (hash : string)
| GetBalance (ch : Chain) (address : string)
| GetBlock (ch : Chain) (number : Z)
| SignMessage (ch : Chain) (data : string)
| Sleep (ms : Z)
| DateNow.

(** A settled promise: rejected with an error message, or fulfilled. *)
Definition Res (X : Type) : Type := (string + X)%type.

(** The type of the answer to a call.  [setTimeout] and [Date.now()] cannot
    fail; [getTransactionReceipt] and [getBlock] may resolve to [null]. *)
Definition ans_ty (c : Call) : Type :=
  match c with
  | View _ _ _ _ => Res Z
  | ViewAddress _ _ _ _ => Res string
  | EstimateGas _ _ _ _ _ => Res Z
  | Send _ _ _ _ _ => Res Tx
  | Wait _ _ => Res Receipt
  | GetTransactionReceipt _ _ => Res (option Receipt)
  | GetBalance _ _ => Res Z
  | GetBlock _ _ => Res (option Block)
  | SignMessage _ _ => Res string
  | Sleep _ => unit
  | DateNow => Z
  end.

(** ** Programs *)

Section Programs.

(** The state the program mutates synchronously between two calls. *)
Context {Store : Type}.

Inductive Prog (A : Type) : Type :=
| Ret (a : A)
| Throw (msg : string)
| Do (c : Call) (k : ans_ty c -> Prog A)
| Upd (f : Store -> Store) (k : Prog A).

Global Arguments Ret {A} a.
Global Arguments Throw {A} msg.
Global Arguments Do {A} c k.
Global Arguments Upd {A} f k.

Fixpoint bind {A B} (p : Prog A) (f : A -> Prog B) : Prog B :=
  match p with
  | Ret a => f a
  | Throw m => Throw m
  | Do c k => Do c (fun r => bind (k r) f)
  | Upd g k => Upd g (bind k f)
  end.

(** [try { p } catch (error) { h error.message }] *)
Fixpoint try_catch {A} (p : Prog A) (h : string -> Prog A) : Prog A :=
  match p with
  | Ret a => Ret a
  | Throw m => h m
  | Do c k => Do c (fun r => try_catch (k r) h)
  | Upd g k => Upd g (try_catch k h)
  end.

(** A rejected promise is thrown at the [await]. *)
Definition lift {X} (r : Res X) : Prog X :=
  match r with inl m => Throw m | inr x => Ret x end.

Definition update (f : Store -> Store) : Prog unit := Upd f (Ret tt).

(** One entry of the trace of an execution: the call and its answer. *)
Record Entry := mkEntry { e_call : Call; e_ans : ans_ty e_call }.

(** [exec p s tr s' o]: started in store [s], the program [p] can issue
    the calls of [tr], receive the answers recorded there, and end in
    store [s'] with outcome [o] (a thrown message or a value). *)
Fixpoint exec {A} (p : Prog A) (s : Store) (tr : list Entry) (s' : Store) (o : Res A) : Prop :=
  match p with
  | Ret a => tr = [] /\ s' = s /\ o = inr a
  | Throw m => tr = [] /\ s' = s /\ o = inl m
  | Do c k => exists r tr', tr = mkEntry c r :: tr' /\ exec (k r) s tr' s' o
  | Upd f k => exec k (f s) tr s' o
  end.

(** The environment as an oracle: the answer to the [n]-th call. *)
Definition Oracle : Type := nat -> forall c : Call, ans_ty c.

Record Run (A : Type) := mkRun { trace : list Entry; final : Store; outcome : Res A }.
Global Arguments mkRun {A} trace final outcome.
Global Arguments trace {A} r.
Global Arguments final {A} r.
Global Arguments outcome {A} r.

Fixpoint run {A} (env : Oracle) (n : nat) (p : Prog A) (s : Store) : Run A :=
  match p with
  | Ret a => mkRun [] s (inr a)
  | Throw m => mkRun [] s (inl m)
  | Do c k =>
      let r := env n c in
      let rest := run env (S n) (k r) s in
      mkRun (mkEntry c r :: trace rest) (final rest) (outcome rest)
  | Upd f k => run env n k (f s)
  end.

(** Every call a program can issue satisfies [Q]. *)
Fixpoint calls_sat {A} (Q : Call -> Prop) (p : Prog A) : Prop :=
  match p with
  | Ret _ | Throw _ => True
  | Do c k => Q c /\ forall r, calls_sat Q (k r)
  | Upd _ k => calls_sat Q k
  end.

(** Every update a program can make preserves [I]. *)
Fixpoint updates_keep {A} (I : Store -> Prop) (p : Prog A) : Prop :=
  match p with
  | Ret _ | Throw _ => True
  | Do c k => forall r, updates_keep I (k r)
  | Upd f k => (forall s, I s -> I (f s)) /\ updates_keep I k
  end.

(** What the call of an [async] function has done when it returns its
    promise to the caller: the body runs up to its first [await] (here a
    call), or to its end. *)
Fixpoint sync_prefix {A} (p : Prog A) (s : Store) : Store :=
  match p with
  | Upd f k => sync_prefix k (f s)
  | Ret _ | Throw _ | Do _ _ => s
  end.

End Programs.

Global Arguments Prog Store A : clear implicits.
Global Arguments Entry : clear implicits.

Notation "'let*' x ':=' p 'in' q" := (bind p (fun x => q))
  (at level 10, x name, p at level 100, q at level 200).
Notation "p ';;;' q" := (bind p (fun _ => q))
  (at level 100, q at level 200, right associativity).

(** ** Rendering of amounts: [ethers.formatUnits] *)

Module Format.
Definition decimal (z : Z) : string := NilZero.string_of_int (Z.to_int z).

Fixpoint zeros (n : nat) : string :=
  match n with
  | O => EmptyString
  | S m => String "0"%char (zeros m)
  end.

Definition pad_left (width : nat) (s : string) : string :=
  (zeros (width - String.length s) ++ s)%string.

(** Drops the zeros at the end of a digit string. *)
Fixpoint strip_zeros (s : string) : string :=
  match s with
  | EmptyString => EmptyString
  | String c rest =>
      match strip_zeros rest with
      | EmptyString => if Ascii.eqb c "0"%char then EmptyString else String c EmptyString
      | rest' => String c rest'
      end
  end.

(** [formatUnits(value, decimals)]: the integer part, a dot, and the
    fraction without trailing zeros (at least one digit). *)
Definition formatUnits (value : Z) (decimals : nat) : string :=
  let unit := 10 ^ Z.of_nat decimals in
  let magnitude := Z.abs value in
  let whole := decimal (Z.quot magnitude unit) in
  let fraction := strip_zeros (pad_left decimals (decimal (Z.rem magnitude unit))) in
  let sign := if value <? 0 then "-" else "" in
  let shown := match fraction with EmptyString => "0" | _ => fraction end in
  (sign ++ whole ++ "." ++ shown)%string.
End Format.

(** ** The registry of active swaps *)

(** The EIP-712 payload the gas-aware server keeps with the swap.  The
    [types], [primaryType] and the domain's name and version are constants
    of the source and carry no information. *)
Record TypedData := mkTypedData {
  td_chainId : Z;
  td_verifyingContract : string;
  td_userAddress : string;
  td_amount : Z;
  td_srcFactoryAddress : string;
  td_dstFactoryAddress : string;
  td_hashlock : string;
  td_orderHash : string;
  td_timestamp : Z;
  td_nonce : Z
}.

(** The object stored in [activeSwaps].  The first twelve fields are those
    of the object literal of [/api/create-order]; the others are the
    properties assigned later ([undefined], here [None], until then).
    Dates are kept as milliseconds since the epoch. *)
Module SwapData.
Record t := mk {
  orderHash : string;
  secret : string;
  hashlock : string;
  amount : Z;
  userAddress : string;
  srcImmutables : Immutables;
  dstImmutables : Immutables;
  srcFactoryAddress : string;
  dstFactoryAddress : string;
  status : string;
  createdAt : Z;
  typedData : option TypedData;
  signature : option string;
  srcEscrowAddress : option string;
  dstEscrowAddress : option string;
  completedAt : option Z;
  error : option string
}.

Definition set_status (v : string) (d : t) : t :=
  mk (orderHash d) (secret d) (hashlock d) (amount d) (userAddress d) (srcImmutables d)
     (dstImmutables d) (srcFactoryAddress d) (dstFactoryAddress d) v (createdAt d)
     (typedData d) (signature d) (srcEscrowAddress d) (dstEscrowAddress d) (completedAt d)
     (error d).

Definition set_srcEscrowAddress (v : string) (d : t) : t :=
  mk (orderHash d) (secret d) (hashlock d) (amount d) (userAddress d) (srcImmutables d)
     (dstImmutables d) (srcFactoryAddress d) (dstFactoryAddress d) (status d) (createdAt d)
     (typedData d) (signature d) (Some v) (dstEscrowAddress d) (completedAt d) (error d).

Definition set_dstEscrowAddress (v : string) (d : t) : t :=
  mk (orderHash d) (secret d) (hashlock d) (amount d) (userAddress d) (srcImmutables d)
     (dstImmutables d) (srcFactoryAddress d) (dstFactoryAddress d) (status d) (createdAt d)
     (typedData d) (signature d) (srcEscrowAddress d) (Some v) (completedAt d) (error d).

Definition set_completedAt (v : Z) (d : t) : t :=
  mk (orderHash d) (secret d) (hashlock d) (amount d) (userAddress d) (srcImmutables d)
     (dstImmutables d) (srcFactoryAddress d) (dstFactoryAddress d) (status d) (createdAt d)
     (typedData d) (signature d) (srcEscrowAddress d) (dstEscrowAddress d) (Some v) (error d).

Definition set_error (v : string) (d : t) : t :=
  mk (orderHash d) (secret d) (hashlock d) (amount d) (userAddress d) (srcImmutables d)
     (dstImmutables d) (srcFactoryAddress d) (dstFactoryAddress d) (status d) (createdAt d)
     (typedData d) (signature d) (srcEscrowAddress d) (dstEscrowAddress d) (completedAt d)
     (Some v).

(** The names of the own properties of the object (the order is that of
    the literal, then of the later assignments; it plays no role). *)
Definition present {X} (name : string) (o : option X) : list string :=
  match o with Some _ => [name] | None => [] end.

Definition own_keys (d : t) : list string :=
  ["orderHash"; "secret"; "hashlock"; "amount"; "userAddress"; "srcImmutables";
   "dstImmutables"; "srcFactoryAddress"; "dstFactoryAddress"; "status"; "createdAt"]
  ++ present "typedData" (typedData d)
  ++ present "signature" (signature d)
  ++ present "dstEscrowAddress" (dstEscrowAddress d)
  ++ present "srcEscrowAddress" (srcEscrowAddress d)
  ++ present "completedAt" (completedAt d)
  ++ present "error" (error d).
End SwapData.

(** [const activeSwaps = new Map()]: the map holds references; the objects
    are in [heap].  [swapData.f = v] updates the object, and every holder
    of the reference (the map included) sees it. *)
Record Store := mkStore {
  heap : gmap nat SwapData.t;
  next_ref : nat;
  activeSwaps : gmap string nat
}.

Definition empty_store : Store := {| heap := ∅; next_ref := 0%nat; activeSwaps := ∅ |}.

Definition alloc (d : SwapData.t) (s : Store) : nat * Store :=
  (next_ref s,
   {| heap := <[next_ref s := d]> (heap s);
      next_ref := S (next_ref s);
      activeSwaps := activeSwaps s |}).

(** [swapData.f = v] on the object behind [ref]. *)
Definition mutate (ref : nat) (f : SwapData.t -> SwapData.t) (s : Store) : Store :=
  {| heap := alter f ref (heap s); next_ref := next_ref s; activeSwaps := activeSwaps s |}.

(** [activeSwaps.set(key, swapData)] *)
Definition activeSwaps_set (key : string) (ref : nat) (s : Store) : Store :=
  {| heap := heap s; next_ref := next_ref s; activeSwaps := <[key := ref]> (activeSwaps s) |}.

(** [activeSwaps.get(key)] *)
Definition activeSwaps_get (key : string) (s : Store) : option SwapData.t :=
  ref ← activeSwaps s !! key; heap s !! ref.

(** ** Configuration and the platform *)

(** [config.chain.*] and the two relayer wallets. *)
Record Config := mkConfig {
  srcChainId : Z;
  dstChainId : Z;
  srcUSDC : string;
  dstUSDC : string;
  srcRelayer : string;
  dstRelayer : string
}.

(** The order object of the SDK, seen through the two methods the servers
    call on it. *)
Record SdkOrder := mkSdkOrder {
  getOrderHash : Z -> string;
  toSrcImmutables : Z -> string -> Z -> string -> RawImmutables
}.

Record OrderInfo := mkOrderInfo {
  oi_salt : Z;
  oi_nonce : Z;
  oi_maker : string;
  oi_makingAmount : Z;
  oi_takingAmount : Z;
  oi_makerAsset : string;
  oi_takerAsset : string
}.

(** Library functions the handlers call: [ethers.keccak256],
    [ethers.parseUnits] and [Sdk.CrossChainOrder.new] (the last two may
    throw). *)
Record Platform := mkPlatform {
  keccak256 : string -> string;
  parseUnits : string -> nat -> Res Z;
  CrossChainOrder_new : string -> OrderInfo -> bool -> bool -> Res SdkOrder
}.

(** The random draws and clock readings of one request. *)
Record Ambient := mkAmbient {
  rand_secret : string;
  rand_salt : Z;
  rand_nonce : Z;
  rand_message_nonce : Z;
  now_ms : Z;
  created_ms : Z
}.

Definition bindR {X Y} (r : Res X) (f : X -> Res Y) : Res Y :=
  match r with inl m => inl m | inr x => f x end.

Definition of_option {X} (msg : string) (o : option X) : Res X :=
  match o with Some x => inr x | None => inl msg end.

Notation "'letR' x ':=' r 'in' q" := (bindR r (fun x => q))
  (at level 10, x name, r at level 100, q at level 200).

(** [ethers.parseEther('0.001')] *)
Definition SAFETY_DEPOSIT : Z := 1000000000000000.

(** ** [/api/create-order] *)

Record CreateOrderRequest := mkRequest {
  req_amount : string;
  req_userAddress : string;
  req_srcFactoryAddress : string;
  req_dstFactoryAddress : string
}.

Record ApprovalData := mkApproval {
  ap_tokenAddress : string;
  ap_spender : string;
  ap_amount : Z
}.

Inductive CreateOrderResponse :=
| OrderCreated (swapId orderHash : string) (typedData : TypedData) (approvalData : ApprovalData)
| OrderFailed (error : string).

(** The two servers differ in one point: the gas-aware one stores the
    typed data with the swap ([keepTypedData]). *)
Definition create_order_entry (keepTypedData : bool) (P : Platform) (cfg : Config)
    (amb : Ambient) (req : CreateOrderRequest) : Res (SwapData.t * TypedData) :=
  let secret := rand_secret amb in
  let hashlock := keccak256 P secret in
  letR swapAmount := parseUnits P (req_amount req) 6 in
  let safetyDeposit := SAFETY_DEPOSIT in
  letR order := CrossChainOrder_new P (req_srcFactoryAddress req)
      {| oi_salt := rand_salt amb;
         oi_nonce := rand_nonce amb;
         oi_maker := req_userAddress req;
         oi_makingAmount := swapAmount;
         oi_takingAmount := swapAmount;
         oi_makerAsset := srcUSDC cfg;
         oi_takerAsset := dstUSDC cfg |} true false in
  let orderHash := getOrderHash order (srcChainId cfg) in
  let srcImmutablesRaw :=
    toSrcImmutables order (dstChainId cfg) (req_userAddress req) swapAmount hashlock in
  let currentTimestamp := now_ms amb / 1000 in
  letR sides := of_option
      (side_immutables_error srcImmutablesRaw (req_userAddress req) (dstUSDC cfg))
      (side_immutables srcImmutablesRaw safetyDeposit currentTimestamp
         (req_userAddress req) (dstUSDC cfg) swapAmount) in
  let typedData :=
    {| td_chainId := srcChainId cfg;
       td_verifyingContract := req_srcFactoryAddress req;
       td_userAddress := req_userAddress req;
       td_amount := swapAmount;
       td_srcFactoryAddress := req_srcFactoryAddress req;
       td_dstFactoryAddress := req_dstFactoryAddress req;
       td_hashlock := hashlock;
       td_orderHash := orderHash;
       td_timestamp := currentTimestamp;
       td_nonce := rand_message_nonce amb |} in
  inr (SwapData.mk orderHash secret hashlock swapAmount (req_userAddress req)
         (fst sides) (snd sides) (req_srcFactoryAddress req) (req_dstFactoryAddress req)
         "created" (created_ms amb)
         (if keepTypedData then Some typedData else None)
         None None None None None,
       typedData).

Definition create_order (keepTypedData : bool) (P : Platform) (cfg : Config)
    (amb : Ambient) (req : CreateOrderRequest) (s : Store) : Store * CreateOrderResponse :=
  match create_order_entry keepTypedData P cfg amb req with
  | inr (entry, typedData) =>
      let swapId := SwapData.orderHash entry in
      let '(ref, s1) := alloc entry s in
      (activeSwaps_set swapId ref s1,
       OrderCreated swapId (SwapData.orderHash entry) typedData
         {| ap_tokenAddress := srcUSDC cfg;
            ap_spender := req_srcFactoryAddress req;
            ap_amount := SwapData.amount entry |})
  | inl message => (s, OrderFailed message)
  end.

(** ** [/api/swap-status/:swapId] *)

(** [x || null] on a string property: [undefined] and the empty string
    both give [null]. *)
Definition or_null (o : option string) : option string :=
  match o with
  | Some a => if String.eqb a "" then None else Some a
  | None => None
  end.

(** The [details] object; [st_amount] is the argument of
    [ethers.formatUnits(swapData.amount, 6)]. *)
Record StatusDetails := mkDetails {
  st_amount : string;
  st_userAddress : string;
  st_createdAt : Z;
  st_srcEscrowAddress : option string;
  st_dstEscrowAddress : option string
}.

Inductive StatusResponse :=
| SwapNotFound
| SwapStatus (status swapId : string) (details : StatusDetails).

Definition swap_status (swapId : string) (s : Store) : StatusResponse :=
  match activeSwaps_get swapId s with
  | None => SwapNotFound
  | Some swapData =>
      SwapStatus (SwapData.status swapData) swapId
        {| st_amount := Format.formatUnits (SwapData.amount swapData) 6;
           st_userAddress := SwapData.userAddress swapData;
           st_createdAt := SwapData.createdAt swapData;
           st_srcEscrowAddress := or_null (SwapData.srcEscrowAddress swapData);
           st_dstEscrowAddress := or_null (SwapData.dstEscrowAddress swapData) |}
  end.

(** ** Calls on the ethers objects *)

Section Calls.
Context {St : Type}.

(** [token.balanceOf(owner)] *)
Definition balanceOf (ch : Chain) (tokenAddress owner : string) : Prog St Z :=
  Do (View ch tokenAddress "balanceOf" [AAddress owner]) lift.

(** [token.allowance(owner, spender)] *)
Definition allowance (ch : Chain) (tokenAddress owner spender : string) : Prog St Z :=
  Do (View ch tokenAddress "allowance" [AAddress owner; AAddress spender]) lift.

(** [contract.method.estimateGas(...args, overrides)] *)
Definition estimateGas (ch : Chain) (contract method : string) (args : list Arg)
    (ov : Overrides) : Prog St Z :=
  Do (EstimateGas ch contract method args ov) lift.

(** [contract.method(...args, overrides)] of a transaction *)
Definition send (ch : Chain) (contract method : string) (args : list Arg)
    (ov : Overrides) : Prog St Tx :=
  Do (Send ch contract method args ov) lift.

(** [tx.wait()] *)
Definition wait (ch : Chain) (tx : Tx) : Prog St Receipt :=
  Do (Wait ch tx) lift.

(** [provider.getTransactionReceipt(hash)], followed by the first use of
    [receipt.logs], which throws on [null]. *)
Definition getTransactionReceipt (ch : Chain) (hash : string) : Prog St Receipt :=
  Do (GetTransactionReceipt ch hash) (fun r =>
    match r with
    | inl m => Throw m
    | inr None => Throw "Cannot read properties of null (reading 'logs')"
    | inr (Some receipt) => Ret receipt
    end).

(** [provider.getBalance(address)] *)
Definition getBalance (ch : Chain) (address : string) : Prog St Z :=
  Do (GetBalance ch address) lift.

(** [factory.addressOfEscrowSrc(immutables)] *)
Definition addressOfEscrowSrc (ch : Chain) (factory : string) (i : Immutables) : Prog St string :=
  Do (ViewAddress ch factory "addressOfEscrowSrc" [ATuple i]) lift.

(** [await new Promise(resolve => setTimeout(resolve, ms))] *)
Definition sleep (ms : Z) : Prog St unit := Do (Sleep ms) (fun _ => Ret tt).

(** [Date.now()] *)
Definition date_now : Prog St Z := Do DateNow (fun t => Ret t).

(** [gasEstimate * 120n / 100n]: BigInt division truncates. *)
Definition gas_buffer (gasEstimate : Z) : Z := Z.quot (gasEstimate * 120) 100.

(** [if (!address)]: [null], [undefined] and the empty string are falsy. *)
Definition truthy (o : option string) : option string := or_null o.

(** The scan of the receipt for the destination escrow:

    [for (const log of receipt.logs) { try { const parsed = parseLog(log);]
    [  if (parsed.name === 'DstEscrowCreated') { dstEscrowAddress = parsed.args.escrow; break } } catch (e) {} }]

    The result is the value of [dstEscrowAddress] after the loop. *)
Fixpoint find_dst_escrow (ls : list Log) : option string :=
  match ls with
  | [] => None
  | log :: rest =>
      match parseLog log with
      | Some parsed =>
          if String.eqb (ev_name parsed) "DstEscrowCreated" then ev_escrow parsed
          else find_dst_escrow rest
      | None => find_dst_escrow rest
      end
  end.

(** The polling loop

    [while (!approved && attempts < maxAttempts) { try { allowance = await ...;]
    [  if (allowance >= amount) approved = true else { sleep 5 s; attempts++ } }]
    [  catch (error) { sleep 5 s; attempts++ } }]

    [remaining] is [maxAttempts - attempts]; the result is [approved]. *)
Fixpoint poll_approval (remaining : nat) (tokenAddress owner spender : string)
    (amount : Z) : Prog St bool :=
  match remaining with
  | O => Ret false
  | S n =>
      Do (View Src tokenAddress "allowance" [AAddress owner; AAddress spender]) (fun r =>
        match r with
        | inr allowance =>
            if allowance >=? amount then Ret true
            else sleep 5000 ;;; poll_approval n tokenAddress owner spender amount
        | inl _ => sleep 5000 ;;; poll_approval n tokenAddress owner spender amount
        end)
  end.

Definition maxAttempts : nat := 60.

End Calls.

(** Programs of the servers run over the registry. *)
Definition M : Type -> Type := Prog Store.

(** The arguments of [escrow.withdraw(secret, immutables)]. *)
Definition withdraw_args (secret : string) (i : Immutables) : list Arg :=
  [ABytes32 secret; ATuple i].

(** ** The plain relayer server *)

Module Server1.
Section Orchestration.
Variable cfg : Config.
Variable ref : nat.
Variable swapData : SwapData.t.

Definition set_status (v : string) : M unit :=
  update (mutate ref (SwapData.set_status v)) ;;;
  update (activeSwaps_set (SwapData.orderHash swapData) ref).

(** Step 1: approve tokens on the destination chain. *)
Definition approve_dst : M unit :=
  set_status "approving_dst" ;;;
  let* dstBalance := balanceOf Dst (dstUSDC cfg) (dstRelayer cfg) in
  if dstBalance <? SwapData.amount swapData then
    Throw ("Insufficient relayer balance on destination chain: "
           ++ Format.formatUnits dstBalance 6 ++ " USDC")
  else
    let* dstApprovalTx := send Dst (dstUSDC cfg) "approve"
        [AAddress (SwapData.dstFactoryAddress swapData); AUint (SwapData.amount swapData)]
        no_overrides in
    wait Dst dstApprovalTx ;;; Ret tt.

(** Step 2: create the destination escrow; the result is its address. *)
Definition create_dst_escrow : M string :=
  set_status "creating_dst_escrow" ;;;
  let* now := date_now in
  let srcCancellationTimestamp := now / 1000 + 3600 in
  let* createDstEscrowTx := send Dst (SwapData.dstFactoryAddress swapData) "createDstEscrow"
      [ATuple (SwapData.dstImmutables swapData); AUint srcCancellationTimestamp]
      (with_value (safetyDeposit (SwapData.dstImmutables swapData))) in
  let* dstReceipt := wait Dst createDstEscrowTx in
  match truthy (find_dst_escrow (logs dstReceipt)) with
  | None => Throw "Could not find destination escrow address"
  | Some dstEscrowAddress =>
      update (mutate ref (SwapData.set_dstEscrowAddress dstEscrowAddress)) ;;;
      Ret dstEscrowAddress
  end.

(** Step 3: wait for the user's approval on the source chain. *)
Definition wait_src_approval : M unit :=
  set_status "waiting_src_approval" ;;;
  let* approved := poll_approval maxAttempts (srcUSDC cfg)
      (SwapData.userAddress swapData) (SwapData.srcFactoryAddress swapData)
      (SwapData.amount swapData) in
  if approved then Ret tt else Throw "User approval timeout".

(** The scan of the source receipt; the [SrcEscrowCreated] branch awaits
    a call inside the [try], so a rejection moves on to the next log. *)
Fixpoint find_src_escrow (ls : list Log) : M (option string) :=
  match ls with
  | [] => Ret None
  | log :: rest =>
      match parseLog log with
      | Some parsed =>
          if String.eqb (ev_name parsed) "SrcEscrowCreatedDirect" then Ret (ev_escrow parsed)
          else if String.eqb (ev_name parsed) "SrcEscrowCreated" then
            Do (ViewAddress Src (SwapData.srcFactoryAddress swapData) "addressOfEscrowSrc"
                  [ATuple (SwapData.srcImmutables swapData)]) (fun r =>
              match r with
              | inr address => Ret (Some address)
              | inl _ => find_src_escrow rest
              end)
          else find_src_escrow rest
      | None => find_src_escrow rest
      end
  end.

(** Step 4: create the source escrow; the result is its address. *)
Definition create_src_escrow : M string :=
  set_status "creating_src_escrow" ;;;
  let* createSrcEscrowTx := send Src (SwapData.srcFactoryAddress swapData) "createSrcEscrow"
      [ATuple (SwapData.srcImmutables swapData)]
      (with_value (safetyDeposit (SwapData.srcImmutables swapData))) in
  let* srcReceipt := wait Src createSrcEscrowTx in
  let* found := find_src_escrow (logs srcReceipt) in
  match truthy found with
  | None => Throw "Could not find source escrow address"
  | Some srcEscrowAddress =>
      update (mutate ref (SwapData.set_srcEscrowAddress srcEscrowAddress)) ;;;
      Ret srcEscrowAddress
  end.

(** Steps 5 to 8: wait ten seconds, withdraw on the source escrow, then
    on the destination escrow, and pay the user. *)
Definition withdraw_src (srcEscrowAddress : string) : M unit :=
  set_status "withdrawing_src" ;;;
  let* withdrawSrcTx := send Src srcEscrowAddress "withdraw"
      (withdraw_args (SwapData.secret swapData) (SwapData.srcImmutables swapData))
      no_overrides in
  wait Src withdrawSrcTx ;;; Ret tt.

Definition withdraw_dst (dstEscrowAddress : string) : M unit :=
  set_status "withdrawing_dst" ;;;
  let* withdrawDstTx := send Dst dstEscrowAddress "withdraw"
      (withdraw_args (SwapData.secret swapData) (SwapData.dstImmutables swapData))
      no_overrides in
  wait Dst withdrawDstTx ;;; Ret tt.

Definition transfer_to_user : M unit :=
  let* transferTx := send Dst (dstUSDC cfg) "transfer"
      [AAddress (SwapData.userAddress swapData); AUint (SwapData.amount swapData)]
      no_overrides in
  wait Dst transferTx ;;; Ret tt.

Definition complete : M unit :=
  update (mutate ref (SwapData.set_status "completed")) ;;;
  let* now := date_now in
  update (mutate ref (SwapData.set_completedAt now)) ;;;
  update (activeSwaps_set (SwapData.orderHash swapData) ref).

(** The [catch] of the whole function. *)
Definition fail (message : string) : M unit :=
  update (mutate ref (SwapData.set_status "failed")) ;;;
  update (mutate ref (SwapData.set_error message)) ;;;
  update (activeSwaps_set (SwapData.orderHash swapData) ref).

Definition swap_body : M unit :=
  approve_dst ;;;
  let* dstEscrowAddress := create_dst_escrow in
  wait_src_approval ;;;
  let* srcEscrowAddress := create_src_escrow in
  sleep 10000 ;;;
  withdraw_src srcEscrowAddress ;;;
  withdraw_dst dstEscrowAddress ;;;
  transfer_to_user ;;;
  complete.

Definition executeSwapAsync : M unit := try_catch swap_body fail.

End Orchestration.
End Server1.

(** ** The gas-aware relayer server *)

Module Server2.
Section Orchestration.
Variable cfg : Config.
Variable ref : nat.
Variable swapData : SwapData.t.

Let amount := SwapData.amount swapData.
Let srcFactory := SwapData.srcFactoryAddress swapData.
Let dstFactory := SwapData.dstFactoryAddress swapData.
Let srcImmutables := SwapData.srcImmutables swapData.
Let dstImmutables := SwapData.dstImmutables swapData.

Definition set_status (v : string) : M unit :=
  update (mutate ref (SwapData.set_status v)) ;;;
  update (activeSwaps_set (SwapData.orderHash swapData) ref).

(** The pattern [try { ... } catch (error) { try { retry } catch (retryError)]
    [{ throw new Error(prefix + retryError.message) } }]. *)
Definition retry_or_fail {A} (first : M A) (retry : M A) (prefix : string) : M A :=
  try_catch first (fun _ =>
    try_catch retry (fun retryError => Throw (prefix ++ retryError))).

(** [approve] with the estimated gas, inside the first [try]. *)
Definition approve_estimated (ch : Chain) (tokenAddress spender : string) : M unit :=
  let* gasEstimate := estimateGas ch tokenAddress "approve"
      [AAddress spender; AUint amount] no_overrides in
  let* approveTx := send ch tokenAddress "approve"
      [AAddress spender; AUint amount] (with_gas (gas_buffer gasEstimate)) in
  wait ch approveTx ;;; Ret tt.

(** [approve] with the fixed gas limit of the retry. *)
Definition approve_retry (ch : Chain) (tokenAddress spender : string) : M unit :=
  let* approveTx := send ch tokenAddress "approve"
      [AAddress spender; AUint amount] (with_gas 100000) in
  wait ch approveTx ;;; Ret tt.

(** Step 1: the relayer approves USDC on the destination chain. *)
Definition approve_dst : M unit :=
  set_status "approving_dst" ;;;
  retry_or_fail
    (let* currentAllowance := allowance Dst (dstUSDC cfg) (dstRelayer cfg) dstFactory in
     if currentAllowance <? amount then
       let* dstBalance := balanceOf Dst (dstUSDC cfg) (dstRelayer cfg) in
       if dstBalance <? amount then
         Throw ("Insufficient relayer balance on destination chain: "
                ++ Format.formatUnits dstBalance 6 ++ " USDC")
       else approve_estimated Dst (dstUSDC cfg) dstFactory
     else Ret tt)
    (approve_retry Dst (dstUSDC cfg) dstFactory)
    "Failed to approve USDC on destination chain: ".

(** The end of both branches of step 2: read the receipt, find the event,
    record the address. *)
Definition record_dst_escrow (createDstEscrowTx : Tx) : M string :=
  let* receipt := getTransactionReceipt Dst (tx_hash createDstEscrowTx) in
  match truthy (find_dst_escrow (logs receipt)) with
  | None => Throw "Failed to get deployed destination escrow address from transaction logs"
  | Some dstEscrowAddress =>
      update (mutate ref (SwapData.set_dstEscrowAddress dstEscrowAddress)) ;;;
      Ret dstEscrowAddress
  end.

(** Step 2: the relayer creates the destination escrow. *)
Definition create_dst_escrow : M string :=
  set_status "creating_dst_escrow" ;;;
  retry_or_fail
    (let* dstBalance := balanceOf Dst (dstUSDC cfg) (dstRelayer cfg) in
     if dstBalance <? amount then
       Throw ("Insufficient USDC balance for destination escrow: "
              ++ Format.formatUnits dstBalance 6 ++ " USDC")
     else
       let* now := date_now in
       let srcCancellationTimestamp := now / 1000 + 3600 in
       let* gasEstimate := estimateGas Dst dstFactory "createDstEscrow"
           [ATuple dstImmutables; AUint srcCancellationTimestamp]
           (with_value (safetyDeposit dstImmutables)) in
       let* createDstEscrowTx := send Dst dstFactory "createDstEscrow"
           [ATuple dstImmutables; AUint srcCancellationTimestamp]
           (with_value_gas (safetyDeposit dstImmutables) (gas_buffer gasEstimate)) in
       wait Dst createDstEscrowTx ;;;
       record_dst_escrow createDstEscrowTx)
    (let* now := date_now in
     let srcCancellationTimestamp := now / 1000 + 3600 in
     let* createDstEscrowTx := send Dst dstFactory "createDstEscrow"
         [ATuple dstImmutables; AUint srcCancellationTimestamp]
         (with_value_gas (safetyDeposit dstImmutables) 300000) in
     wait Dst createDstEscrowTx ;;;
     record_dst_escrow createDstEscrowTx)
    "Failed to create destination escrow: ".

(** The message of the error thrown when the polling gives up. *)
Definition TIMEOUT : string := "User approval timeout - user must approve USDC spending".

(** Step 3: wait for the user's approval on the source chain. *)
Definition wait_src_approval : M unit :=
  set_status "waiting_src_approval" ;;;
  let* approved := poll_approval maxAttempts (srcUSDC cfg)
      (SwapData.userAddress swapData) (srcRelayer cfg) amount in
  if approved then Ret tt
  else Throw TIMEOUT.

(** Step 4, first half: move the user's USDC to the relayer. *)
Definition transfer_from_user : M unit :=
  set_status "transferring_usdc" ;;;
  try_catch
    (let* transferTx := send Src (srcUSDC cfg) "transferFrom"
         [AAddress (SwapData.userAddress swapData); AAddress (srcRelayer cfg); AUint amount]
         no_overrides in
     wait Src transferTx ;;; Ret tt)
    (fun error => Throw ("Failed to transfer USDC from user: " ++ error)).

(** Step 4, second half: the relayer approves USDC on the source chain. *)
Definition approve_src : M unit :=
  retry_or_fail
    (let* currentAllowance := allowance Src (srcUSDC cfg) (srcRelayer cfg) srcFactory in
     if currentAllowance <? amount then approve_estimated Src (srcUSDC cfg) srcFactory
     else Ret tt)
    (approve_retry Src (srcUSDC cfg) srcFactory)
    "Failed to approve USDC on source chain: ".

(** The scan of the source receipt.  On [SrcEscrowCreated] the address is
    computed from the immutables of the event; an event without them, or
    a rejected call, is caught inside the loop, which goes on. *)
Fixpoint find_src_escrow (ls : list Log) : M (option string) :=
  match ls with
  | [] => Ret None
  | log :: rest =>
      match parseLog log with
      | Some parsed =>
          if String.eqb (ev_name parsed) "SrcEscrowCreatedDirect" then Ret (ev_escrow parsed)
          else if String.eqb (ev_name parsed) "SrcEscrowCreated" then
            match ev_srcImmutables parsed with
            | Some srcImmutablesForAddress =>
                Do (ViewAddress Src srcFactory "addressOfEscrowSrc"
                      [ATuple srcImmutablesForAddress]) (fun r =>
                  match r with
                  | inr address => Ret (Some address)
                  | inl _ => find_src_escrow rest
                  end)
            | None => find_src_escrow rest
            end
          else find_src_escrow rest
      | None => find_src_escrow rest
      end
  end.

Definition record_src_escrow (createSrcEscrowTx : Tx) : M string :=
  let* receipt := getTransactionReceipt Src (tx_hash createSrcEscrowTx) in
  let* found := find_src_escrow (logs receipt) in
  match truthy found with
  | None => Throw "Failed to get deployed source escrow address from transaction logs"
  | Some srcEscrowAddress =>
      update (mutate ref (SwapData.set_srcEscrowAddress srcEscrowAddress)) ;;;
      Ret srcEscrowAddress
  end.

(** Step 5: create the source escrow. *)
Definition create_src_escrow : M string :=
  set_status "creating_src_escrow" ;;;
  retry_or_fail
    (let* gasEstimate := estimateGas Src srcFactory "createSrcEscrow"
         [ATuple srcImmutables] (with_value (safetyDeposit srcImmutables)) in
     let* createSrcEscrowTx := send Src srcFactory "createSrcEscrow"
         [ATuple srcImmutables]
         (with_value_gas (safetyDeposit srcImmutables) (gas_buffer gasEstimate)) in
     wait Src createSrcEscrowTx ;;;
     record_src_escrow createSrcEscrowTx)
    (let* createSrcEscrowTx := send Src srcFactory "createSrcEscrow"
         [ATuple srcImmutables]
         (with_value_gas (safetyDeposit srcImmutables) 300000) in
     wait Src createSrcEscrowTx ;;;
     record_src_escrow createSrcEscrowTx)
    "Failed to create source escrow: ".

(** Step 6: verify that the funds are locked. *)
Definition verify_funds (srcEscrowAddress dstEscrowAddress : string) : M unit :=
  let* srcEscrowBalance := balanceOf Src (srcUSDC cfg) srcEscrowAddress in
  let* dstEscrowBalance := balanceOf Dst (dstUSDC cfg) dstEscrowAddress in
  let* srcEscrowEth := getBalance Src srcEscrowAddress in
  let* dstEscrowEth := getBalance Dst dstEscrowAddress in
  if (srcEscrowBalance >=? amount) && (dstEscrowBalance >=? amount) then Ret tt
  else Throw "Funds not properly locked in escrow contracts".

(** Steps 8 and 9: the withdrawal on one escrow.  The inner [try] sends
    with the estimated gas and re-reads the balance; its [catch] sends
    again with a fixed gas limit; the outer [catch] rewrites the error. *)
Definition withdraw_from (ch : Chain) (tokenAddress escrowAddress : string)
    (i : Immutables) (prefix : string) : M unit :=
  try_catch
    (let* balanceBefore := balanceOf ch tokenAddress escrowAddress in
     try_catch
       (let* gasEstimate := estimateGas ch escrowAddress "withdraw"
            (withdraw_args (SwapData.secret swapData) i) no_overrides in
        let* withdrawTx := send ch escrowAddress "withdraw"
            (withdraw_args (SwapData.secret swapData) i) (with_gas (gas_buffer gasEstimate)) in
        wait ch withdrawTx ;;;
        let* balanceAfter := balanceOf ch tokenAddress escrowAddress in
        Ret tt)
       (fun _ =>
        let* withdrawTx := send ch escrowAddress "withdraw"
            (withdraw_args (SwapData.secret swapData) i) (with_gas 200000) in
        wait ch withdrawTx ;;; Ret tt))
    (fun error => Throw (prefix ++ error)).

Definition withdraw_src (srcEscrowAddress : string) : M unit :=
  set_status "withdrawing_src" ;;;
  withdraw_from Src (srcUSDC cfg) srcEscrowAddress srcImmutables
    "Failed to withdraw from source escrow: ".

Definition withdraw_dst (dstEscrowAddress : string) : M unit :=
  set_status "withdrawing_dst" ;;;
  withdraw_from Dst (dstUSDC cfg) dstEscrowAddress dstImmutables
    "Failed to withdraw from destination escrow: ".

(** Step 10: transfer the destination tokens to the user. *)
Definition transfer_to_user : M unit :=
  try_catch
    (let* transferTx := send Dst (dstUSDC cfg) "transfer"
         [AAddress (SwapData.userAddress swapData); AUint amount] no_overrides in
     wait Dst transferTx ;;; Ret tt)
    (fun error => Throw ("Failed to transfer tokens to user: " ++ error)).

Definition complete : M unit :=
  update (mutate ref (SwapData.set_status "completed")) ;;;
  let* now := date_now in
  update (mutate ref (SwapData.set_completedAt now)) ;;;
  update (activeSwaps_set (SwapData.orderHash swapData) ref).

(** The [catch] of the whole function. *)
Definition fail (message : string) : M unit :=
  update (mutate ref (SwapData.set_status "failed")) ;;;
  update (mutate ref (SwapData.set_error message)) ;;;
  update (activeSwaps_set (SwapData.orderHash swapData) ref).

(** Steps 1 to 5: everything before the verification. *)
Definition lock_funds : M (string * string) :=
  approve_dst ;;;
  let* dstEscrowAddress := create_dst_escrow in
  wait_src_approval ;;;
  transfer_from_user ;;;
  approve_src ;;;
  let* srcEscrowAddress := create_src_escrow in
  Ret (srcEscrowAddress, dstEscrowAddress).

(** Steps 7 to 10: everything after the verification. *)
Definition release_funds (srcEscrowAddress dstEscrowAddress : string) : M unit :=
  sleep 10000 ;;;
  withdraw_src srcEscrowAddress ;;;
  withdraw_dst dstEscrowAddress ;;;
  transfer_to_user ;;;
  complete.

Definition swap_body : M unit :=
  let* escrows := lock_funds in
  verify_funds (fst escrows) (snd escrows) ;;;
  release_funds (fst escrows) (snd escrows).

Definition executeSwapAsync : M unit := try_catch swap_body fail.

End Orchestration.
End Server2.

(** ** The multi-fill script: [performMultipleFillCrossChainSwap] *)

Module MultiFill.

(** What [setupChain] returns, as far as the swap uses it: the wallet
address, the token and factory addresses, the resolver address. *)
Record ChainSetup := mkChain {
  user : string;
  tokenAddress : string;
  escrowFactory : string;
  resolver : string
}.

(** The parameters of [Sdk.CrossChainOrder.new] in the script. *)
Record OrderParams := mkOrderParams {
  op_escrowFactory : string;
  op_info : OrderInfo;
  op_hashLock : string;
  op_timeLocks : list Z;
  op_srcChainId : Z;
  op_dstChainId : Z;
  op_srcSafetyDeposit : Z;
  op_dstSafetyDeposit : Z;
  op_auctionStartTime : Z;
  op_whitelist : string;
  op_allowPartialFills : bool;
  op_allowMultipleFills : bool
}.

(** The SDK and ethers functions of the script. *)
Record Sdk := mkSdk {
  hashSecret : string -> string;
  getMerkleLeaves : list string -> list string;
  forMultipleFills : list string -> string;
  getProof : list string -> nat -> list string;
  new_order : OrderParams -> Res SdkOrder;
  solidityPacked : list Arg -> string
}.

(** [sequence of hex strings][idx]; [undefined] is rendered as the empty
    string. *)
Definition at_index (l : list string) (idx : nat) : string := nth idx l "".

(** A block of the function either falls through with a value or executes
    [return]. *)
Inductive Flow (A : Type) := Next (a : A) | Return.
Arguments Next {A} a.
Arguments Return {A}.

Definition S0 : Type -> Type := Prog unit.

Notation "'let?' x ':=' p 'in' q" :=
  (bind p (fun r => match r with Next x => q | Return => Ret Return end))
  (at level 10, x name, p at level 100, q at level 200).

Section Script.
Variable sdk : Sdk.
Variable cfg : Config.
Variables srcChain dstChain : ChainSetup.
(** The random draws of one run: the eleven secrets, the salt, the nonce. *)
Variable secrets : list string.
Variables salt nonce : Z.

Definition swapAmount : Z := 500000.
Definition fillAmount : Z := swapAmount.
Definition idx : nat := (length secrets - 1)%nat.
Definition secretHashes : list string := map (hashSecret sdk) secrets.
Definition leaves : list string := getMerkleLeaves sdk secrets.
Definition selectedSecret : string := at_index secrets idx.

(** [Sdk.HashLock.getProof(leaves, idx)]; the script prints its length. *)
Definition proof : list string := getProof sdk leaves idx.

(** The [try]/[catch]/[retry] pattern of the approvals: the last [catch]
    prints and returns. *)
Definition approve (ch : Chain) (c : ChainSetup) : S0 (Flow unit) :=
  try_catch
    (let* currentAllowance := allowance ch (tokenAddress c) (user c) (escrowFactory c) in
     if currentAllowance <? fillAmount then
       let* gasEstimate := estimateGas ch (tokenAddress c) "approve"
           [AAddress (escrowFactory c); AUint fillAmount] no_overrides in
       let* approveTx := send ch (tokenAddress c) "approve"
           [AAddress (escrowFactory c); AUint fillAmount] (with_gas (gas_buffer gasEstimate)) in
       wait ch approveTx ;;; Ret (Next tt)
     else Ret (Next tt))
    (fun _ =>
     try_catch
       (let* approveTx := send ch (tokenAddress c) "approve"
            [AAddress (escrowFactory c); AUint fillAmount] (with_gas 100000) in
        wait ch approveTx ;;; Ret (Next tt))
       (fun _ => Ret Return)).

(** [provider.getBlock(receipt.blockNumber)] and [.timestamp]. *)
Definition block_timestamp (ch : Chain) (receipt : Receipt) : S0 Z :=
  Do (GetBlock ch (blockNumber receipt)) (fun r =>
    match r with
    | inl m => Throw m
    | inr None => Throw "Cannot read properties of null (reading 'timestamp')"
    | inr (Some block) => Ret (timestamp block)
    end).

Fixpoint find_src_escrow (ls : list Log) : S0 (option string) :=
  match ls with
  | [] => Ret None
  | log :: rest =>
      match parseLog log with
      | Some parsed =>
          if String.eqb (ev_name parsed) "SrcEscrowCreatedDirect" then Ret (ev_escrow parsed)
          else if String.eqb (ev_name parsed) "SrcEscrowCreated" then
            match ev_srcImmutables parsed with
            | Some srcImmutablesForAddress =>
                Do (ViewAddress Src (escrowFactory srcChain) "addressOfEscrowSrc"
                      [ATuple srcImmutablesForAddress]) (fun r =>
                  match r with
                  | inr address => Ret (Some address)
                  | inl _ => find_src_escrow rest
                  end)
            | None => find_src_escrow rest
            end
          else find_src_escrow rest
      | None => find_src_escrow rest
      end
  end.

Definition locate_src_escrow (srcReceipt : Receipt) : S0 string :=
  let* srcDeployedAt := block_timestamp Src srcReceipt in
  let* found := find_src_escrow (logs srcReceipt) in
  match truthy found with
  | None => Throw "Failed to get deployed source escrow address from transaction logs"
  | Some srcEscrowAddress => Ret srcEscrowAddress
  end.

Definition create_src_escrow (srcImmutables : Immutables) : S0 (Flow string) :=
  try_catch
    (let* gasEstimate := estimateGas Src (escrowFactory srcChain) "createSrcEscrow"
         [ATuple srcImmutables] (with_value SAFETY_DEPOSIT) in
     let* createSrcEscrowTx := send Src (escrowFactory srcChain) "createSrcEscrow"
         [ATuple srcImmutables] (with_value_gas SAFETY_DEPOSIT (gas_buffer gasEstimate)) in
     let* srcReceipt := wait Src createSrcEscrowTx in
     let* srcEscrowAddress := locate_src_escrow srcReceipt in
     Ret (Next srcEscrowAddress))
    (fun _ =>
     try_catch
       (let* createSrcEscrowTx := send Src (escrowFactory srcChain) "createSrcEscrow"
            [ATuple srcImmutables] (with_value_gas SAFETY_DEPOSIT 300000) in
        let* srcReceipt := wait Src createSrcEscrowTx in
        let* srcEscrowAddress := locate_src_escrow srcReceipt in
        Ret (Next srcEscrowAddress))
       (fun _ => Ret Return)).

(** One withdrawal: [try { read, estimate, send, wait, read } catch]
    [{ try { send with fixed gas, wait } catch { print } }]. *)
Definition withdraw_from (ch : Chain) (c : ChainSetup) (escrowAddress : string)
    (i : Immutables) : S0 unit :=
  try_catch
    (let* balanceBefore := balanceOf ch (tokenAddress c) escrowAddress in
     let* gasEstimate := estimateGas ch escrowAddress "withdraw"
         (withdraw_args selectedSecret i) no_overrides in
     let* withdrawTx := send ch escrowAddress "withdraw"
         (withdraw_args selectedSecret i) (with_gas (gas_buffer gasEstimate)) in
     wait ch withdrawTx ;;;
     let* balanceAfter := balanceOf ch (tokenAddress c) escrowAddress in
     Ret tt)
    (fun _ =>
     try_catch
       (let* withdrawTx := send ch escrowAddress "withdraw"
            (withdraw_args selectedSecret i) (with_gas 200000) in
        wait ch withdrawTx ;;; Ret tt)
       (fun _ => Ret tt)).

Definition final_verification (srcEscrowAddress dstEscrowAddress : string) : S0 unit :=
  let* finalSrcBalance := balanceOf Src (tokenAddress srcChain) (user srcChain) in
  let* finalDstBalance := balanceOf Dst (tokenAddress dstChain) (user dstChain) in
  let* finalSrcEscrowBalance := balanceOf Src (tokenAddress srcChain) srcEscrowAddress in
  let* finalDstEscrowBalance := balanceOf Dst (tokenAddress dstChain) dstEscrowAddress in
  let* finalSrcEscrowEth := getBalance Src srcEscrowAddress in
  let* finalDstEscrowEth := getBalance Dst dstEscrowAddress in
  Ret tt.

(** The last [try] of the function: it creates the destination escrow and
    contains the whole withdrawal phase; its [catch] creates the
    destination escrow again with a fixed gas limit. *)
Definition create_dst_and_withdraw (srcImmutables dstImmutables : Immutables)
    (srcEscrowAddress : string) : S0 (Flow unit) :=
  try_catch
    (let* dstBalance := balanceOf Dst (tokenAddress dstChain) (user dstChain) in
     if dstBalance <? fillAmount then Ret Return
     else
       let* now := date_now in
       let srcCancellationTimestamp := now / 1000 + 3600 in
       let* gasEstimate := estimateGas Dst (escrowFactory dstChain) "createDstEscrow"
           [ATuple dstImmutables; AUint srcCancellationTimestamp]
           (with_value SAFETY_DEPOSIT) in
       let* createDstEscrowTx := send Dst (escrowFactory dstChain) "createDstEscrow"
           [ATuple dstImmutables; AUint srcCancellationTimestamp]
           (with_value_gas SAFETY_DEPOSIT (gas_buffer gasEstimate)) in
       let* dstReceipt := wait Dst createDstEscrowTx in
       let* dstDeployedAt := block_timestamp Dst dstReceipt in
       match truthy (find_dst_escrow (logs dstReceipt)) with
       | None =>
           Throw "Failed to get deployed destination escrow address from transaction logs"
       | Some dstEscrowAddress =>
           let dstImmutablesWithDeployedAt :=
             {| orderHash := orderHash dstImmutables;
                hashlock := hashlock dstImmutables;
                maker := maker dstImmutables;
                taker := taker dstImmutables;
                token := token dstImmutables;
                amount := amount dstImmutables;
                safetyDeposit := safetyDeposit dstImmutables;
                timelocks := Timelocks.setDeployedAt (timelocks dstImmutables) dstDeployedAt |} in
           sleep 11000 ;;;
           withdraw_from Dst dstChain dstEscrowAddress dstImmutablesWithDeployedAt ;;;
           withdraw_from Src srcChain srcEscrowAddress srcImmutables ;;;
           final_verification srcEscrowAddress dstEscrowAddress ;;;
           Ret (Next tt)
       end)
    (fun _ =>
     try_catch
       (let* now := date_now in
        let srcCancellationTimestamp := now / 1000 + 3600 in
        let* createDstEscrowTx := send Dst (escrowFactory dstChain) "createDstEscrow"
            [ATuple dstImmutables; AUint srcCancellationTimestamp]
            (with_value_gas SAFETY_DEPOSIT 300000) in
        wait Dst createDstEscrowTx ;;; Ret (Next tt))
       (fun _ => Ret Return)).

(** The order of the announcement phase. *)
Definition order_params (currentTime : Z) : OrderParams :=
  {| op_escrowFactory := escrowFactory srcChain;
     op_info :=
       {| oi_salt := salt; oi_nonce := nonce;
          oi_maker := user srcChain;
          oi_makingAmount := swapAmount;
          oi_takingAmount := 490000;
          oi_makerAsset := dstUSDC cfg;
          oi_takerAsset := srcUSDC cfg |};
     op_hashLock := forMultipleFills sdk leaves;
     op_timeLocks := [10; 120; 121; 122; 10; 100; 101];
     op_srcChainId := dstChainId cfg;
     op_dstChainId := srcChainId cfg;
     op_srcSafetyDeposit := SAFETY_DEPOSIT;
     op_dstSafetyDeposit := SAFETY_DEPOSIT;
     op_auctionStartTime := currentTime;
     op_whitelist := resolver srcChain;
     op_allowPartialFills := true;
     op_allowMultipleFills := true |}.

Definition performMultipleFillCrossChainSwap : S0 (Flow unit) :=
  let* initialSrcBalance := balanceOf Src (tokenAddress srcChain) (user srcChain) in
  let* initialDstBalance := balanceOf Dst (tokenAddress dstChain) (user dstChain) in
  let* initialSrcEth := getBalance Src (user srcChain) in
  let* initialDstEth := getBalance Dst (user dstChain) in
  let* now := date_now in
  let currentTime := now / 1000 in
  let* order := lift (new_order sdk (order_params currentTime)) in
  let orderHash := getOrderHash order (dstChainId cfg) in
  let orderData := solidityPacked sdk
      [ABytes32 orderHash; AAddress (user srcChain); AAddress (srcUSDC cfg);
       AUint swapAmount; AUint 490000; AUint currentTime] in
  let* orderSignature := Do (SignMessage Src orderData) lift in
  let srcImmutablesRaw :=
    toSrcImmutables order (dstChainId cfg) (user srcChain) fillAmount
      (at_index secretHashes idx) in
  let* now' := date_now in
  let currentTimestamp := now' / 1000 in
  match side_immutables srcImmutablesRaw SAFETY_DEPOSIT currentTimestamp
          (user dstChain) (srcUSDC cfg) fillAmount with
  | None => Throw (side_immutables_error srcImmutablesRaw (user dstChain) (srcUSDC cfg))
  | Some (srcImmutables, dstImmutables) =>
      let? _ := approve Src srcChain in
      let? srcEscrowAddress := create_src_escrow srcImmutables in
      let? _ := approve Dst dstChain in
      create_dst_and_withdraw srcImmutables dstImmutables srcEscrowAddress
  end.

End Script.
End MultiFill.

(** ** The script [arb-sep-mul-fixed.js] *)

Module MultiFillFixed.
Import MultiFill.

(** *** Identifier resolution

    The script is an ES module: a reference to an identifier that no
    enclosing scope declares throws a [ReferenceError]. *)

Inductive JsValue := JNumber (z : Z) | JObject.

(** The bindings of the module: its imports, constants and functions. *)
Definition module_scope : list string :=
  ["ethers"; "Sdk"; "config"; "uint8ArrayToHex"; "randomBytes"; "UINT_40_MAX";
   "readFileSync"; "writeFileSync"; "existsSync"; "fileURLToPath"; "dirname"; "join";
   "readline"; "__filename"; "__dirname"; "promptUser"; "factoryContract";
   "resolverContractArtifact"; "ERC20_ABI"; "ESCROW_FACTORY_ABI"; "ESCROW_ABI";
   "loadDeployedContracts"; "saveDeployedContracts"; "countdown"; "testRpcConnection";
   "main"; "setupChain"; "deployContracts"; "performMultipleFillCrossChainSwap"].

(** The globals of the runtime the script mentions. *)
Definition global_scope : list string :=
  ["console"; "process"; "Math"; "Date"; "Array"; "BigInt"; "JSON"; "Promise"; "Error";
   "setTimeout"; "setInterval"; "clearInterval"].

(** The parameters and the constants of [performMultipleFillCrossChainSwap]
    initialised before the order is signed, with the numbers among them. *)
Definition function_scope (currentTime : Z) : list (string * JsValue) :=
  [("srcChain", JObject); ("dstChain", JObject);
   ("swapAmount", JNumber 100000); ("safetyDeposit", JNumber SAFETY_DEPOSIT);
   ("initialSrcBalance", JObject); ("initialDstBalance", JObject);
   ("initialSrcEth", JObject); ("initialDstEth", JObject);
   ("secrets", JObject); ("secretHashes", JObject); ("leaves", JObject);
   ("idx", JObject); ("selectedSecret", JObject); ("selectedSecretHash", JObject);
   ("currentTime", JNumber currentTime); ("htlcTimeout", JNumber 3600);
   ("htlcExpiry", JNumber (currentTime + 3600));
   ("order", JObject); ("orderHash", JObject)].

Definition scope (currentTime : Z) : list (string * JsValue) :=
  function_scope currentTime
  ++ map (fun x => (x, JObject)) module_scope
  ++ map (fun x => (x, JObject)) global_scope.

Fixpoint lookup_identifier (bindings : list (string * JsValue)) (x : string) : option JsValue :=
  match bindings with
  | [] => None
  | (y, v) :: rest => if String.eqb x y then Some v else lookup_identifier rest x
  end.

(** The value of an identifier used as a [uint256] element of
    [ethers.solidityPacked]. *)
Definition uint_identifier (bindings : list (string * JsValue)) (x : string) : Res Z :=
  match lookup_identifier bindings x with
  | None => inl (x ++ " is not defined")
  | Some (JNumber z) => inr z
  | Some JObject => inl "invalid BigNumberish value"
  end.

Section Script.
Variable sdk : Sdk.
Variable cfg : Config.
Variables srcChain dstChain : ChainSetup.
Variable secrets : list string.
Variables salt nonce : Z.

(** Everything after the computation of [orderData]: the signature of the
    order, the deposits and the withdrawals. *)
Variable rest : SdkOrder -> string -> S0 (Flow unit).

Definition swapAmount : Z := 100000.
Definition leaves : list string := getMerkleLeaves sdk secrets.

Definition order_params (currentTime : Z) : OrderParams :=
  {| op_escrowFactory := escrowFactory srcChain;
     op_info :=
       {| oi_salt := salt; oi_nonce := nonce;
          oi_maker := user srcChain;
          oi_makingAmount := swapAmount;
          oi_takingAmount := 99000;
          oi_makerAsset := dstUSDC cfg;
          oi_takerAsset := srcUSDC cfg |};
     op_hashLock := forMultipleFills sdk leaves;
     op_timeLocks := [10; 120; 121; 122; 10; 100; 101];
     op_srcChainId := dstChainId cfg;
     op_dstChainId := srcChainId cfg;
     op_srcSafetyDeposit := SAFETY_DEPOSIT;
     op_dstSafetyDeposit := SAFETY_DEPOSIT;
     op_auctionStartTime := currentTime;
     op_whitelist := resolver srcChain;
     op_allowPartialFills := true;
     op_allowMultipleFills := true |}.

Definition performMultipleFillCrossChainSwap : S0 (Flow unit) :=
  let* initialSrcBalance := balanceOf Src (tokenAddress srcChain) (user srcChain) in
  let* initialDstBalance := balanceOf Dst (tokenAddress dstChain) (user dstChain) in
  let* initialSrcEth := getBalance Src (user srcChain) in
  let* initialDstEth := getBalance Dst (user dstChain) in
  let* now := date_now in
  let currentTime := now / 1000 in
  let* order := lift (new_order sdk (order_params currentTime)) in
  let orderHash := getOrderHash order (dstChainId cfg) in
  let* auctionStart := lift (uint_identifier (scope currentTime) "auctionStartTimestamp") in
  let orderData := solidityPacked sdk
      [ABytes32 orderHash; AAddress (user srcChain); AAddress (srcUSDC cfg);
       AUint swapAmount; AUint 99000; AUint auctionStart] in
  rest order orderData.

End Script.
End MultiFillFixed.

(** ** The demo script [cross-chain-swap.js] *)

Module Demo.

(** [s.substring(0, n)] *)
Definition substring_to (n : nat) (s : string) : string := String.substring 0 n s.

Section Derivation.
(** [ethers.keccak256] and [ethers.solidityPacked(['bytes32', 'address'], ...)]. *)
Variable keccak256 : string -> string.
Variable solidityPacked : string -> string -> string.

(** ['0x' + keccak256(solidityPacked([immutables.orderHash, user])).substring(0, 40)] *)
Definition escrow_address (immutables : RawImmutables) (userAddress : string) : string :=
  "0x" ++ substring_to 40 (keccak256 (solidityPacked (raw_orderHash immutables) userAddress)).

(** [{ ...srcImmutables, taker, amount, token, safetyDeposit, timelocks: srcImmutables.timelocks }] *)
Definition dst_immutables (srcImmutables : RawImmutables) (dstUser : string)
    (swapAmount : Z) (dstToken : string) (deposit : Z) : RawImmutables :=
  {| raw_orderHash := raw_orderHash srcImmutables;
     raw_hashlock := raw_hashlock srcImmutables;
     raw_maker := raw_maker srcImmutables;
     raw_taker := dstUser;
     raw_token := dstToken;
     raw_amount := swapAmount;
     raw_safetyDeposit := deposit;
     raw_timelocks := raw_timelocks srcImmutables |}.

End Derivation.
End Demo.

(** ** Observations on calls and traces *)

(** The chain a call goes to. *)
Definition chain_of (c : Call) : option Chain :=
  match c with
  | View ch _ _ _ | ViewAddress ch _ _ _ | EstimateGas ch _ _ _ _ | Send ch _ _ _ _
  | Wait ch _ | GetTransactionReceipt ch _ | GetBalance ch _ | GetBlock ch _
  | SignMessage ch _ => Some ch
  | Sleep _ | DateNow => None
  end.

(** The call submits arguments to the method [m] of a contract: it sends
    the transaction, or asks the node for its gas estimate. *)
Definition submits (m : string) (c : Call) : bool :=
  match c with
  | Send _ _ m' _ _ | EstimateGas _ _ m' _ _ => String.eqb m' m
  | _ => false
  end.

(** The withdrawal a call submits, if any: the chain, the escrow and the
    arguments of [escrow.withdraw(...)]. *)
Definition withdraw_on (c : Call) : option (Chain * string * list Arg) :=
  match c with
  | Send ch escrow m args _ | EstimateGas ch escrow m args _ =>
      if String.eqb m "withdraw" then Some (ch, escrow, args) else None
  | _ => None
  end.

(** The call changes the ledger: it sends a transaction. *)
Definition is_send (c : Call) : bool :=
  match c with
  | Send _ _ _ _ _ => true
  | _ => false
  end.

(** Entries with a fulfilled answer. *)
Definition balance_entry (ch : Chain) (tokenAddress owner : string) (z : Z) : Entry :=
  mkEntry (View ch tokenAddress "balanceOf" [AAddress owner]) (inr z).

Definition allowance_call (tokenAddress owner spender : string) : Call :=
  View Src tokenAddress "allowance" [AAddress owner; AAddress spender].

Definition allowance_entry (tokenAddress owner spender : string) (z : Z) : Entry :=
  mkEntry (allowance_call tokenAddress owner spender) (inr z).

Definition sent_entry (ch : Chain) (contract method : string) (args : list Arg)
    (ov : Overrides) (tx : Tx) : Entry :=
  mkEntry (Send ch contract method args ov) (inr tx).

Definition waited_entry (ch : Chain) (tx : Tx) (receipt : Receipt) : Entry :=
  mkEntry (Wait ch tx) (inr receipt).

(** The calls of a trace. *)
Definition calls_of (tr : list Entry) : list Call := map e_call tr.

(** The swap object behind [ref] has status [v] in store [s]. *)
Definition has_status (ref : nat) (v : string) (s : Store) : Prop :=
  exists d, heap s !! ref = Some d /\ SwapData.status d = v.

Definition has_error (ref : nat) (v : string) (s : Store) : Prop :=
  exists d, heap s !! ref = Some d /\ SwapData.error d = Some v.

(** The call neither creates a source escrow nor submits a withdrawal. *)
Definition reveals_nothing (c : Call) : Prop :=
  submits "createSrcEscrow" c = false /\ withdraw_on c = None.

(** The call submits a withdrawal to an escrow of the destination chain. *)
Definition withdraws_on_dst (c : Call) : Prop :=
  exists escrow args, withdraw_on c = Some (Dst, escrow, args).

(** A withdrawal goes to the escrow of its chain, with the secret of the
    swap and the immutables of the side. *)
Definition expected_withdrawal (swapData : SwapData.t) (src dst : string) (c : Call) : Prop :=
  forall ch escrow args, withdraw_on c = Some (ch, escrow, args) ->
    match ch with
    | Src => escrow = src /\
             args = withdraw_args (SwapData.secret swapData) (SwapData.srcImmutables swapData)
    | Dst => escrow = dst /\
             args = withdraw_args (SwapData.secret swapData) (SwapData.dstImmutables swapData)
    end.


(** The calls of a polling window that runs to its end: [n] reads, each
    followed by a wait of five seconds. *)
Definition polling_window (read : Call) (n : nat) : list Call :=
  concat (replicate n [read; Sleep 5000]).

(** The object behind [ref] exists. *)
Definition allocated (ref : nat) (s : Store) : Prop := is_Some (heap s !! ref).

(** The number answered to a read that was fulfilled with one. *)
Definition uint_answer (e : Entry) : option Z :=
  match e_call e as c return ans_ty c -> option Z with
  | View _ _ _ _ => fun r => match r with inr z => Some z | inl _ => None end
  | EstimateGas _ _ _ _ _ => fun r => match r with inr z => Some z | inl _ => None end
  | GetBalance _ _ => fun r => match r with inr z => Some z | inl _ => None end
  | _ => fun _ => None
  end (e_ans e).



Definition is_withdrawal (c : Call) : bool :=
  match withdraw_on c with Some _ => true | None => false end.

Definition is_withdrawal_on (ch : Chain) (c : Call) : bool :=
  match withdraw_on c with
  | Some (Src, _, _) => match ch with Src => true | Dst => false end
  | Some (Dst, _, _) => match ch with Src => false | Dst => true end
  | None => false
  end.

(** The call reads the token balance of [owner]. *)
Definition reads_balance_of (owner : string) (c : Call) : bool :=
  match c with
  | View _ _ m [AAddress a] => String.eqb m "balanceOf" && String.eqb a owner
  | _ => false
  end.

(** ** Sample data: one order on two test ledgers *)

Module Sample.

Definition cfg : Config :=
  {| srcChainId := 11155111;
     dstChainId := 421614;
     srcUSDC := "0x1c7d4b196cb0c7b01d743fbc6116a902379c7238";
     dstUSDC := "0x75faf114eafb1bdbe2f0316df893fd58ce46aa4d";
     srcRelayer := "0x00000000000000000000000000000000000000aa";
     dstRelayer := "0x00000000000000000000000000000000000000aa" |}.

Definition user : string := "0x00000000000000000000000000000000000000bb".
Definition srcFactory : string := "0x00000000000000000000000000000000000000c1".
Definition dstFactory : string := "0x00000000000000000000000000000000000000c2".
Definition srcEscrow : string := "0x00000000000000000000000000000000000000e1".
Definition dstEscrow : string := "0x00000000000000000000000000000000000000e2".

(** Offsets 10, 120, 121, 122 on the source side and 10, 100, 101 on the
    destination side, as in the scripts; the timestamp field is empty. *)
Definition offsets : Z := Timelocks.pack [0; 10; 120; 121; 122; 10; 100; 101].

(** A stand-in for the SDK: the order hash is a constant, the raw
    immutables repeat the arguments. *)
Definition order : SdkOrder :=
  {| getOrderHash := fun _ => "0x0d";
     toSrcImmutables := fun _ taker amount hashlock =>
       {| raw_orderHash := "0x0d";
          raw_hashlock := hashlock;
          raw_maker := user;
          raw_taker := taker;
          raw_token := srcUSDC cfg;
          raw_amount := amount;
          raw_safetyDeposit := 0;
          raw_timelocks := offsets |} |}.

(** A stand-in for the library functions: the hash tags its argument,
    [parseUnits] knows the amount ["1"]. *)
Definition platform : Platform :=
  {| keccak256 := fun x => "0xha5" ++ x;
     parseUnits := fun x _ => if String.eqb x "1" then inr 1000000 else inl "invalid FixedNumber string value";
     CrossChainOrder_new := fun _ _ _ _ => inr order |}.

Definition ambient : Ambient :=
  {| rand_secret := "0x5ec2e7";
     rand_salt := 7;
     rand_nonce := 9;
     rand_message_nonce := 123456;
     now_ms := 1700000000000;
     created_ms := 1700000000001 |}.

Definition request : CreateOrderRequest :=
  {| req_amount := "1";
     req_userAddress := user;
     req_srcFactoryAddress := srcFactory;
     req_dstFactoryAddress := dstFactory |}.

(** The registry after [/api/create-order] on the gas-aware server, and
    the stored swap. *)
Definition store : Store := fst (create_order true platform cfg ambient request empty_store).

Definition swapData : SwapData.t :=
  match activeSwaps_get "0x0d" store with
  | Some d => d
  | None => SwapData.mk "" "" "" 0 "" (mkImmutables "" "" 0 0 0 0 0 0)
              (mkImmutables "" "" 0 0 0 0 0 0) "" "" "" 0 None None None None None None
  end.

Definition escrow_event (name escrow : string) : Log :=
  {| parseLog := Some {| ev_name := name; ev_escrow := Some escrow; ev_srcImmutables := None |} |}.

Definition receipt_of (ch : Chain) : Receipt :=
  match ch with
  | Src => {| logs := [escrow_event "SrcEscrowCreatedDirect" srcEscrow]; blockNumber := 100 |}
  | Dst => {| logs := [escrow_event "DstEscrowCreated" dstEscrow]; blockNumber := 200 |}
  end.

(** A ledger on which every call succeeds.  [escrowBalance] is the token
    balance it reports for the two escrows and [userAllowance] the
    allowance it reports on the source chain; every other balance and
    allowance is ample. *)
Definition ledger (escrowBalance userAllowance : Z) : Oracle :=
  fun _ c =>
    match c return ans_ty c with
    | View ch _ m args =>
        if String.eqb m "balanceOf" then
          match args with
          | [AAddress a] =>
              if String.eqb a srcEscrow || String.eqb a dstEscrow
              then inr escrowBalance else inr 5000000
          | _ => inr 5000000
          end
        else match ch with Src => inr userAllowance | Dst => inr 5000000 end
    | ViewAddress _ _ _ _ => inr srcEscrow
    | EstimateGas _ _ _ _ _ => inr 100000
    | Send _ _ m _ _ => inr {| tx_hash := "0x7a" ++ m |}
    | Wait ch _ => inr (receipt_of ch)
    | GetTransactionReceipt ch _ => inr (Some (receipt_of ch))
    | GetBalance _ _ => inr 0
    | GetBlock _ _ => inr (Some {| timestamp := 1700000100 |})
    | SignMessage _ _ => inr "0x519"
    | Sleep _ => tt
    | DateNow => 1700000000000
    end.

(** Escrows funded, allowance granted. *)
Definition happy_ledger : Oracle := ledger 1000000 1000000.

(** The escrows were created but hold no tokens. *)
Definition unfunded_ledger : Oracle := ledger 0 1000000.

(** The maker never grants the allowance. *)
Definition unapproved_ledger : Oracle := ledger 1000000 0.

(** The multi-fill script on the same ledgers. *)
Definition sdk : MultiFill.Sdk :=
  {| MultiFill.hashSecret := fun x => "0xha5" ++ x;
     MultiFill.getMerkleLeaves := map (fun x => "0x1ea" ++ x);
     MultiFill.forMultipleFills := fun _ => "0x2007";
     MultiFill.getProof := fun leaves idx => firstn 4 leaves;
     MultiFill.new_order := fun _ => inr order;
     MultiFill.solidityPacked := fun _ => "0xda7a" |}.

Definition chain_src : MultiFill.ChainSetup :=
  {| MultiFill.user := user; MultiFill.tokenAddress := dstUSDC cfg;
     MultiFill.escrowFactory := srcFactory; MultiFill.resolver := srcRelayer cfg |}.

Definition chain_dst : MultiFill.ChainSetup :=
  {| MultiFill.user := user; MultiFill.tokenAddress := srcUSDC cfg;
     MultiFill.escrowFactory := dstFactory; MultiFill.resolver := dstRelayer cfg |}.

Definition secrets : list string :=
  ["0x50"; "0x51"; "0x52"; "0x53"; "0x54"; "0x55"; "0x56"; "0x57"; "0x58"; "0x59"; "0x5a"].

Definition multi_fill : Prog unit (MultiFill.Flow unit) :=
  MultiFill.performMultipleFillCrossChainSwap sdk cfg chain_src chain_dst secrets 7 9.

End Sample.

(** The status and the error of the swap behind [ref], as stored. *)
Definition status_of (ref : nat) (s : Store) : option string :=
  SwapData.status <$> heap s !! ref.

Definition error_of (ref : nat) (s : Store) : option string :=
  heap s !! ref ≫= SwapData.error.

(** The call is the allowance read of the polling loop. *)
Definition is_allowance_call (tokenAddress owner spender : string) (c : Call) : bool :=
  match c with
  | View Src t m [AAddress o; AAddress p] =>
      String.eqb t tokenAddress && String.eqb m "allowance"
      && String.eqb o owner && String.eqb p spender
  | _ => false
  end.

(** Every fulfilled allowance read of the trace is below [amt]. *)
Definition allowance_below (tokenAddress owner spender : string) (amt : Z)
    (tr : list Entry) : bool :=
  forallb (fun e =>
    negb (is_allowance_call tokenAddress owner spender (e_call e))
    || match uint_answer e with Some z => z <? amt | None => true end) tr.

(** ** [/api/submit-signed-message] *)

(** [s.toLowerCase()] on the strings the handlers compare, which are
    addresses: the letters [A] to [Z] are mapped to [a] to [z], every other
    character is kept. *)
Definition lower_ascii (c : ascii) : ascii :=
  let n := nat_of_ascii c in
  if ((65 <=? n) && (n <=? 90))%nat then ascii_of_nat (n + 32) else c.

Fixpoint toLowerCase (s : string) : string :=
  match s with
  | EmptyString => EmptyString
  | String c rest => String (lower_ascii c) (toLowerCase rest)
  end.

(** [swapData.signature = v] *)
Definition set_signature (v : string) (d : SwapData.t) : SwapData.t :=
  SwapData.mk (SwapData.orderHash d) (SwapData.secret d) (SwapData.hashlock d)
    (SwapData.amount d) (SwapData.userAddress d) (SwapData.srcImmutables d)
    (SwapData.dstImmutables d) (SwapData.srcFactoryAddress d) (SwapData.dstFactoryAddress d)
    (SwapData.status d) (SwapData.createdAt d) (SwapData.typedData d) (Some v)
    (SwapData.srcEscrowAddress d) (SwapData.dstEscrowAddress d) (SwapData.completedAt d)
    (SwapData.error d).

(** The three properties of the request body, taken to be strings. *)
Record SubmitRequest := mkSubmit {
  sub_swapId : string;
  sub_signature : string;
  sub_userAddress : string
}.

(** The answer: [200] with the swap id, or a status code with an error. *)
Inductive SubmitResponse :=
| SubmitAccepted (swapId : string)
| SubmitRejected (code : Z) (error : string).

(** What one request leaves behind when the answer is sent: the
    registry, the answer, and the swap object on which [executeSwapAsync]
    was started, if any.  The call is not awaited, but it comes before
    [res.json] and runs up to its first [await] at once, so its first
    updates are in the registry the request leaves. *)
Record Submitted := mkSubmitted {
  sub_store : Store;
  sub_response : SubmitResponse;
  sub_started : option nat
}.

(** The typed data the plain server verifies the signature against: it
    is built again from the stored swap, with the time and a fresh random
    nonce of the submission. *)
Definition rebuilt_typed_data (cfg : Config) (amb : Ambient) (swapData : SwapData.t)
    : TypedData :=
  {| td_chainId := srcChainId cfg;
     td_verifyingContract := SwapData.srcFactoryAddress swapData;
     td_userAddress := SwapData.userAddress swapData;
     td_amount := SwapData.amount swapData;
     td_srcFactoryAddress := SwapData.srcFactoryAddress swapData;
     td_dstFactoryAddress := SwapData.dstFactoryAddress swapData;
     td_hashlock := SwapData.hashlock swapData;
     td_orderHash := SwapData.orderHash swapData;
     td_timestamp := now_ms amb / 1000;
     td_nonce := rand_message_nonce amb |}.

(** The typed data the gas-aware server verifies against:
    [swapData.typedData], whose [.domain] throws when it is [undefined]. *)
Definition stored_typed_data (swapData : SwapData.t) : Res TypedData :=
  of_option "Cannot read properties of undefined (reading 'domain')"
    (SwapData.typedData swapData).

(** The handler.  The two servers differ in the typed data they verify
    ([payload]) and in the orchestration they start ([executeSwapAsync],
    called on the stored object); [verifyTypedData] is
    [ethers.verifyTypedData], which returns the address that signed or
    throws.  Every exception of the inner [try] gives the answer [400].
    The answer [500] of the outer [catch] needs a body whose
    [userAddress] is no string, which a [SubmitRequest] cannot be. *)
Definition submit_signed_message (payload : SwapData.t -> Res TypedData)
    (executeSwapAsync : nat -> SwapData.t -> Prog Store unit)
    (verifyTypedData : TypedData -> string -> Res string)
    (req : SubmitRequest) (s : Store) : Submitted :=
  let rejected code error := mkSubmitted s (SubmitRejected code error) None in
  match activeSwaps s !! sub_swapId req with
  | None => rejected 404 "Swap not found"
  | Some ref =>
      match heap s !! ref with
      | None => rejected 404 "Swap not found"
      | Some swapData =>
          if negb (String.eqb (toLowerCase (SwapData.userAddress swapData))
                              (toLowerCase (sub_userAddress req)))
          then rejected 403 "Unauthorized: signature does not match swap user"
          else
            match letR typedData := payload swapData in
                  verifyTypedData typedData (sub_signature req) with
            | inl _ => rejected 400 "Signature verification failed"
            | inr recoveredAddress =>
                if negb (String.eqb (toLowerCase recoveredAddress)
                                    (toLowerCase (sub_userAddress req)))
                then rejected 400 "Invalid signature"
                else
                  let signed :=
                    activeSwaps_set (sub_swapId req) ref
                      (mutate ref (set_signature (sub_signature req))
                         (mutate ref (SwapData.set_status "signature_received") s)) in
                  mkSubmitted
                    (sync_prefix
                       (executeSwapAsync ref
                          (set_signature (sub_signature req)
                             (SwapData.set_status "signature_received" swapData)))
                       signed)
                    (SubmitAccepted (sub_swapId req))
                    (Some ref)
            end
      end
  end.

(** The handler of the plain server and the one of the gas-aware server. *)
Definition submit_plain (cfg : Config) (amb : Ambient) :=
  submit_signed_message (fun swapData => inr (rebuilt_typed_data cfg amb swapData))
    (Server1.executeSwapAsync cfg).

Definition submit_gas_aware (cfg : Config) :=
  submit_signed_message stored_typed_data (Server2.executeSwapAsync cfg).

(** ** Registries and swaps compared *)

(** Every key of the registry leads to an object, and the references in
    use are below the next one. *)
Definition store_wf (s : Store) : Prop :=
  (forall key ref, activeSwaps s !! key = Some ref -> is_Some (heap s !! ref)) /\
  (forall ref, is_Some (heap s !! ref) -> (ref < next_ref s)%nat).

(** The terms of a swap: what [/api/create-order] and the submission of
    the signature have fixed. *)
Definition same_terms (d d' : SwapData.t) : Prop :=
  SwapData.orderHash d' = SwapData.orderHash d /\
  SwapData.secret d' = SwapData.secret d /\
  SwapData.hashlock d' = SwapData.hashlock d /\
  SwapData.amount d' = SwapData.amount d /\
  SwapData.userAddress d' = SwapData.userAddress d /\
  SwapData.srcImmutables d' = SwapData.srcImmutables d /\
  SwapData.dstImmutables d' = SwapData.dstImmutables d /\
  SwapData.srcFactoryAddress d' = SwapData.srcFactoryAddress d /\
  SwapData.dstFactoryAddress d' = SwapData.dstFactoryAddress d /\
  SwapData.createdAt d' = SwapData.createdAt d /\
  SwapData.typedData d' = SwapData.typedData d /\
  SwapData.signature d' = SwapData.signature d.

(** What an orchestration started on the object [ref] of the swap with
    order hash [key] may have done to the registry [s0]: the terms of the
    swap are kept, every other object and every other key are as they
    were, and no object was created. *)
Definition orchestrated (ref : nat) (key : string) (s0 s : Store) : Prop :=
  (forall r d, heap s0 !! r = Some d ->
     exists d', heap s !! r = Some d' /\ same_terms d d' /\ (r <> ref -> d' = d)) /\
  (forall r, heap s0 !! r = None -> heap s !! r = None) /\
  next_ref s = next_ref s0 /\
  (forall k, k <> key -> activeSwaps s !! k = activeSwaps s0 !! k).

(** ** Budgets of calls *)

(** The cost of a trace. *)
Fixpoint spent (cost : Call -> Z) (tr : list Entry) : Z :=
  match tr with
  | [] => 0
  | e :: rest => cost (e_call e) + spent cost rest
  end.

(** The program is run with a budget from which every call takes its
    cost: wherever it returns, [Q] holds of what is left and of the value;
    wherever it throws, [E] holds of what is left and of the message. *)
Fixpoint run_within {St A} (cost : Call -> Z) (p : Prog St A) (budget : Z)
    (Q : Z -> A -> Prop) (E : Z -> string -> Prop) : Prop :=
  match p with
  | Ret a => Q budget a
  | Throw m => E budget m
  | Do c k => forall r, run_within cost (k r) (budget - cost c) Q E
  | Upd _ k => run_within cost k budget Q E
  end.

(** Along every path of the program the costs of the calls add up to
    [budget] at most. *)
Definition within {St A} (cost : Call -> Z) (budget : Z) (p : Prog St A) : Prop :=
  run_within cost p budget (fun left _ => 0 <= left) (fun left _ => 0 <= left).

(** The milliseconds a call waits. *)
Definition sleep_ms (c : Call) : Z :=
  match c with
  | Sleep ms => ms
  | _ => 0
  end.

(** One for a transaction sent to the method [m] of a contract. *)
Definition sends (m : string) (c : Call) : Z :=
  match c with
  | Send _ _ m' _ _ => if String.eqb m' m then 1 else 0
  | _ => 0
  end.

(** One for every transaction sent. *)
Definition transactions (c : Call) : Z := if is_send c then 1 else 0.

(** No path of the program ends in a [throw]. *)
Fixpoint never_throws {St A} (p : Prog St A) : Prop :=
  match p with
  | Ret _ => True
  | Throw _ => False
  | Do c k => forall r, never_throws (k r)
  | Upd _ k => never_throws k
  end.


(** The draws of a request with another secret. *)
Definition with_secret (x : string) (amb : Ambient) : Ambient :=
  {| rand_secret := x;
     rand_salt := rand_salt amb;
     rand_nonce := rand_nonce amb;
     rand_message_nonce := rand_message_nonce amb;
     now_ms := now_ms amb;
     created_ms := created_ms amb |}.

(** ** Sample data: the submission of a signature *)

Module SampleSubmit.

(** A stand-in for [ethers.verifyTypedData]: the signature ["0x519"] is
    the maker's (the address comes back in checksum case), ["0xbad"] is
    somebody else's, and anything else is malformed. *)
Definition verify (typedData : TypedData) (signature : string) : Res string :=
  if String.eqb signature "0x519" then inr "0x00000000000000000000000000000000000000BB"
  else if String.eqb signature "0xbad" then inr "0x00000000000000000000000000000000000000cc"
  else inl "invalid signature length".

Definition request : SubmitRequest :=
  {| sub_swapId := "0x0d"; sub_signature := "0x519"; sub_userAddress := Sample.user |}.

(** The clock and the draws at the time of the submission, ten seconds
    after the order was created. *)
Definition ambient : Ambient :=
  {| rand_secret := "";
     rand_salt := 0;
     rand_nonce := 0;
     rand_message_nonce := 654321;
     now_ms := 1700000010000;
     created_ms := 1700000010000 |}.

(** A hash that keeps the first three characters, under which two
    secrets collide. *)
Definition short_hash : Platform :=
  {| keccak256 := fun x => String.substring 0 3 x;
     parseUnits := parseUnits Sample.platform;
     CrossChainOrder_new := CrossChainOrder_new Sample.platform |}.

End SampleSubmit.

(** A ledger on which the wallet refuses to sign. *)
Definition refusing_wallet : Oracle :=
  fun n c =>
    match c return ans_ty c with
    | SignMessage _ _ => inl "user rejected signing"
    | c' => Sample.happy_ledger n c'
    end.

(** ** The flow of the demo script: [performCrossChainSwap] *)

Module DemoScript.
Import MultiFill.

Section Script.
(** [ethers.keccak256], [Sdk.CrossChainOrder.new] (the platform) and
    [Sdk.HashLock.forSingleFill]. *)
Variable P : Platform.
Variable forSingleFill : string -> string.
Variable solidityPacked : string -> string -> string.
Variable cfg : Config.
Variables srcChain dstChain : ChainSetup.
(** The random draws of one run. *)
Variable secret : string.
Variables salt nonce : Z.

(** [ethers.parseUnits('0.1', 6)] *)
Definition swapAmount : Z := 100000.

(** Step 1: fund the resolver on the destination chain with twice the
    swap amount when it holds less than the swap amount. *)
Definition fund_resolver : S0 unit :=
  let* resolverDstBalance := balanceOf Dst (tokenAddress dstChain) (resolver dstChain) in
  if resolverDstBalance <? swapAmount then
    let fundAmount := swapAmount * 2 in
    let* fundTx := send Dst (tokenAddress dstChain) "transfer"
        [AAddress (resolver dstChain); AUint fundAmount] no_overrides in
    wait Dst fundTx ;;; Ret tt
  else Ret tt.

(** The function awaits nine calls at most; everything after the
    approval is computed and printed, nothing is sent. *)
Definition performCrossChainSwap : S0 unit :=
  let* initialSrcBalance := balanceOf Src (tokenAddress srcChain) (user srcChain) in
  let* initialDstBalance := balanceOf Dst (tokenAddress dstChain) (user dstChain) in
  let* initialSrcEth := getBalance Src (user srcChain) in
  let* initialDstEth := getBalance Dst (user dstChain) in
  fund_resolver ;;;
  let hashlock := forSingleFill secret in
  let* order := lift (CrossChainOrder_new P (escrowFactory srcChain)
      {| oi_salt := salt;
         oi_nonce := nonce;
         oi_maker := user srcChain;
         oi_makingAmount := swapAmount;
         oi_takingAmount := swapAmount;
         oi_makerAsset := srcUSDC cfg;
         oi_takerAsset := dstUSDC cfg |} false false) in
  let orderHash := getOrderHash order (srcChainId cfg) in
  let* approveTx := send Src (tokenAddress srcChain) "approve"
      [AAddress (escrowFactory srcChain); AUint swapAmount] no_overrides in
  wait Src approveTx ;;;
  let srcImmutables :=
    toSrcImmutables order (srcChainId cfg) (user srcChain) swapAmount hashlock in
  let srcEscrowAddress :=
    Demo.escrow_address (keccak256 P) solidityPacked srcImmutables (user srcChain) in
  let dstImmutables :=
    Demo.dst_immutables srcImmutables (user dstChain) swapAmount (dstUSDC cfg)
      SAFETY_DEPOSIT in
  let dstEscrowAddress :=
    Demo.escrow_address (keccak256 P) solidityPacked dstImmutables (user dstChain) in
  Ret tt.

End Script.
End DemoScript.

(** ** [JSON.stringify] of an object literal

    The values of the properties of the object literals the script
    prints: strings and BigInts. *)
Inductive PropertyValue :=
| VString (s : string)
| VBigInt (z : Z).

Definition is_bigint (v : PropertyValue) : bool :=
  match v with
  | VBigInt _ => true
  | VString _ => false
  end.

(** The literal [{ orderHash, hashlock, maker, taker, token, amount,]
    [safetyDeposit, timelocks }] of the scripts: the two hashes are the
    strings of the SDK, the other six properties hold BigInts. *)
Definition immutables_object (i : Immutables) : list (string * PropertyValue) :=
  [("orderHash", VString (orderHash i)); ("hashlock", VString (hashlock i));
   ("maker", VBigInt (maker i)); ("taker", VBigInt (taker i));
   ("token", VBigInt (token i)); ("amount", VBigInt (amount i));
   ("safetyDeposit", VBigInt (safetyDeposit i)); ("timelocks", VBigInt (timelocks i))].

(** [console.log(label, JSON.stringify(object, null, 2))]: [JSON.stringify]
    throws a [TypeError] at the first property that holds a BigInt (no
    [toJSON] is installed for BigInts); otherwise the text is printed,
    and what is printed is not part of the model. *)
Definition log_json {St} (object : list (string * PropertyValue)) : Prog St unit :=
  if existsb (fun property => is_bigint (snd property)) object
  then Throw "Do not know how to serialize a BigInt"
  else Ret tt.

(** ** The simplified multi-fill script: [performSimplifiedMultipleFillSwap] *)

Module Simplified.
Import MultiFill.

Section Script.
Variable sdk : Sdk.
Variable cfg : Config.
Variables srcChain dstChain : ChainSetup.
Variable secrets : list string.
Variables salt nonce : Z.

(** [ethers.parseUnits('0.1', 6)] *)
Definition swapAmount : Z := 100000.
Definition fillAmount : Z := swapAmount.
Definition idx : nat := (length secrets - 1)%nat.
Definition secretHashes : list string := map (hashSecret sdk) secrets.
Definition leaves : list string := getMerkleLeaves sdk secrets.
Definition selectedSecret : string := at_index secrets idx.
Definition selectedSecretHash : string := at_index secretHashes idx.

Definition order_params (startTime : Z) : OrderParams :=
  {| op_escrowFactory := escrowFactory srcChain;
     op_info :=
       {| oi_salt := salt; oi_nonce := nonce;
          oi_maker := user srcChain;
          oi_makingAmount := swapAmount;
          oi_takingAmount := 99000;
          oi_makerAsset := dstUSDC cfg;
          oi_takerAsset := srcUSDC cfg |};
     op_hashLock := forMultipleFills sdk leaves;
     op_timeLocks := [10; 120; 121; 122; 10; 100; 101];
     op_srcChainId := dstChainId cfg;
     op_dstChainId := srcChainId cfg;
     op_srcSafetyDeposit := SAFETY_DEPOSIT;
     op_dstSafetyDeposit := SAFETY_DEPOSIT;
     op_auctionStartTime := startTime;
     op_whitelist := resolver srcChain;
     op_allowPartialFills := true;
     op_allowMultipleFills := true |}.

(** Step 5 and the final reads.  No call of the function is inside a
    [try], except the address computation inside the scan of the source
    receipt. *)
Definition withdraw_both (srcImmutables dstImmutables : Immutables)
    (srcEscrowAddress dstEscrowAddress : string) (dstReceipt : Receipt) : S0 unit :=
  sleep 11000 ;;;
  let* dstDeployedAt := block_timestamp Dst dstReceipt in
  let dstImmutablesWithDeployedAt :=
    {| orderHash := orderHash dstImmutables;
       hashlock := hashlock dstImmutables;
       maker := maker dstImmutables;
       taker := taker dstImmutables;
       token := token dstImmutables;
       amount := amount dstImmutables;
       safetyDeposit := safetyDeposit dstImmutables;
       timelocks := Timelocks.setDeployedAt (timelocks dstImmutables) dstDeployedAt |} in
  let* withdrawDstTx := send Dst dstEscrowAddress "withdraw"
      (withdraw_args selectedSecret dstImmutablesWithDeployedAt) (with_gas 200000) in
  wait Dst withdrawDstTx ;;;
  let* withdrawSrcTx := send Src srcEscrowAddress "withdraw"
      (withdraw_args selectedSecret srcImmutables) (with_gas 200000) in
  wait Src withdrawSrcTx ;;;
  let* finalSrcBalance := balanceOf Src (tokenAddress srcChain) (user srcChain) in
  let* finalDstBalance := balanceOf Dst (tokenAddress dstChain) (user dstChain) in
  let* finalSrcEscrowBalance := balanceOf Src (tokenAddress srcChain) srcEscrowAddress in
  let* finalDstEscrowBalance := balanceOf Dst (tokenAddress dstChain) dstEscrowAddress in
  Ret tt.

(** Step 4: the two approvals are sent and not waited for; each is
    followed by the print of the immutables as JSON. *)
Definition deploy_escrows (srcImmutables dstImmutables : Immutables)
    : S0 (string * string * Receipt) :=
  let* approveSrcTx := send Src (tokenAddress srcChain) "approve"
      [AAddress (escrowFactory srcChain); AUint fillAmount] (with_gas 100000) in
  log_json (immutables_object srcImmutables) ;;;
  let* createSrcEscrowTx := send Src (escrowFactory srcChain) "createSrcEscrow"
      [ATuple srcImmutables] (with_value_gas SAFETY_DEPOSIT 300000) in
  let* srcReceipt := wait Src createSrcEscrowTx in
  let* found := find_src_escrow srcChain (logs srcReceipt) in
  match truthy found with
  | None => Throw "Failed to get source escrow address from transaction logs"
  | Some srcEscrowAddress =>
      let* approveDstTx := send Dst (tokenAddress dstChain) "approve"
          [AAddress (escrowFactory dstChain); AUint fillAmount] (with_gas 100000) in
      log_json (immutables_object dstImmutables) ;;;
      let* now := date_now in
      let* createDstEscrowTx := send Dst (escrowFactory dstChain) "createDstEscrow"
          [ATuple dstImmutables; AUint (now / 1000 + 3600)]
          (with_value_gas SAFETY_DEPOSIT 300000) in
      let* dstReceipt := wait Dst createDstEscrowTx in
      match truthy (find_dst_escrow (logs dstReceipt)) with
      | None => Throw "Failed to get destination escrow address from transaction logs"
      | Some dstEscrowAddress => Ret (srcEscrowAddress, dstEscrowAddress, dstReceipt)
      end
  end.

Definition performSimplifiedMultipleFillSwap : S0 unit :=
  let* initialSrcBalance := balanceOf Src (tokenAddress srcChain) (user srcChain) in
  let* initialDstBalance := balanceOf Dst (tokenAddress dstChain) (user dstChain) in
  let* now := date_now in
  let* order := lift (new_order sdk (order_params (now / 1000))) in
  let orderHash := getOrderHash order (dstChainId cfg) in
  let* now' := date_now in
  let orderData := solidityPacked sdk
      [ABytes32 orderHash; AAddress (user srcChain); AAddress (srcUSDC cfg);
       AUint swapAmount; AUint 99000; AUint (now' / 1000)] in
  let* orderSignature := Do (SignMessage Src orderData) lift in
  let srcImmutablesRaw :=
    toSrcImmutables order (dstChainId cfg) (user srcChain) fillAmount selectedSecretHash in
  let* now'' := date_now in
  let currentTimestamp := now'' / 1000 in
  match side_immutables srcImmutablesRaw SAFETY_DEPOSIT currentTimestamp
          (user dstChain) (srcUSDC cfg) fillAmount with
  | None => Throw (side_immutables_error srcImmutablesRaw (user dstChain) (srcUSDC cfg))
  | Some (srcImmutables, dstImmutables) =>
      let* deployed := deploy_escrows srcImmutables dstImmutables in
      let '(srcEscrowAddress, dstEscrowAddress, dstReceipt) := deployed in
      withdraw_both srcImmutables dstImmutables srcEscrowAddress dstEscrowAddress dstReceipt
  end.

End Script.
End Simplified.

(** ** Helpers of the scripts *)

(** [countdown(seconds)]: every second the callback of [setInterval]
    prints [seconds], decrements it, and stops the interval and resolves
    the promise once it is negative.  The result is the list of the
    numbers printed, one per tick; [fuel] bounds the number of ticks.
    The argument is taken to be an integer. *)
Fixpoint countdown (fuel : nat) (seconds : Z) : option (list Z) :=
  match fuel with
  | O => None
  | S fuel' =>
      let seconds' := seconds - 1 in
      if seconds' <? 0 then Some [seconds]
      else option_map (cons seconds) (countdown fuel' seconds')
  end.

(** [s.includes(needle)] *)
Fixpoint includes (needle s : string) : bool :=
  String.prefix needle s ||
  match s with
  | EmptyString => false
  | String _ rest => includes needle rest
  end.

(** The key under which [setupChain] files the contracts of a chain. *)
Definition chainKey (chainName : string) : string :=
  if includes "Arbitrum Sepolia" chainName then "arbitrumSepolia"
  else if includes "Sepolia" chainName then "sepolia"
  else "unknown".

(** The demo and the simplified script on the sample ledgers. *)
Definition demo_script : Prog unit unit :=
  DemoScript.performCrossChainSwap Sample.platform (fun x => "0xha5" ++ x) String.append
    Sample.cfg Sample.chain_src Sample.chain_dst "0x5ec2e7" 7 9.

Definition simplified_script : Prog unit unit :=
  Simplified.performSimplifiedMultipleFillSwap Sample.sdk Sample.cfg Sample.chain_src
    Sample.chain_dst Sample.secrets 7 9.

(** A ledger on which the resolver holds no tokens. *)
Definition poor_resolver : Oracle :=
  fun n c =>
    match c return ans_ty c with
    | View ch t m args =>
        if String.eqb m "balanceOf" then inr 0 else Sample.happy_ledger n (View ch t m args)
    | c' => Sample.happy_ledger n c'
    end.

(** The gas limit the simplified script writes into a transaction to the
    method [m]. *)
Definition fixed_gas_limit (m : string) : Z :=
  if String.eqb m "approve" then 100000
  else if String.eqb m "withdraw" then 200000
  else 300000.

(** The call is no gas estimate, and if it is a transaction its gas
    limit is the fixed one of its method. *)
Definition fixed_gas_call (c : Call) : Prop :=
  match c with
  | EstimateGas _ _ _ _ _ => False
  | Send _ _ m _ ov => ov_gasLimit ov = Some (fixed_gas_limit m)
  | _ => True
  end.

(** The call creates no escrow and submits no withdrawal. *)
Definition moves_no_escrow (c : Call) : Prop :=
  submits "createSrcEscrow" c = false /\ submits "createDstEscrow" c = false /\
  withdraw_on c = None.






(** The receipt answered to [getTransactionReceipt], when there is one. *)
Definition receipt_answer (e : Entry) : option Receipt :=
  match e_call e as c return ans_ty c -> option Receipt with
  | GetTransactionReceipt _ _ => fun r =>
      match r with
      | inr (Some receipt) => Some receipt
      | _ => None
      end
  | _ => fun _ => None
  end (e_ans e).

(** A ledger on which everything succeeds, but the receipts read among
    the first six calls show no event. *)
Definition blind_first_receipt : Oracle :=
  fun n c =>
    match c return ans_ty c with
    | GetTransactionReceipt ch h =>
        if (n <? 6)%nat then inr (Some {| logs := []; blockNumber := 200 |})
        else Sample.happy_ledger n (GetTransactionReceipt ch h)
    | c' => Sample.happy_ledger n c'
    end.

(** The call reads the ETH balance of an address. *)
Definition reads_eth_balance (c : Call) : bool :=
  match c with
  | GetBalance _ _ => true
  | _ => false
  end.

(** The promise of the call was rejected. *)
Definition rejected (e : Entry) : bool :=
  match e_call e as c return ans_ty c -> bool with
  | View _ _ _ _ => fun r => match r with inl _ => true | inr _ => false end
  | ViewAddress _ _ _ _ => fun r => match r with inl _ => true | inr _ => false end
  | EstimateGas _ _ _ _ _ => fun r => match r with inl _ => true | inr _ => false end
  | Send _ _ _ _ _ => fun r => match r with inl _ => true | inr _ => false end
  | Wait _ _ => fun r => match r with inl _ => true | inr _ => false end
  | GetTransactionReceipt _ _ => fun r => match r with inl _ => true | inr _ => false end
  | GetBalance _ _ => fun r => match r with inl _ => true | inr _ => false end
  | GetBlock _ _ => fun r => match r with inl _ => true | inr _ => false end
  | SignMessage _ _ => fun r => match r with inl _ => true | inr _ => false end
  | Sleep _ => fun _ => false
  | DateNow => fun _ => false
  end (e_ans e).

(** A ledger on which everything succeeds, but no ETH balance can be
    read. *)
Definition no_eth_reads : Oracle :=
  fun n c =>
    match c return ans_ty c with
    | GetBalance _ _ => inl "timeout"
    | c' => Sample.happy_ledger n c'
    end.

(** * Properties *)

Local Open Scope list_scope.

(** ** The packed timelocks *)

Module TimelocksFacts.
Import Timelocks.

Lemma mask_bits (n : Z) :
  0 <= n -> Z.testbit DEPLOYED_AT_MASK n = (32 <=? n) && (n <? 248).
Proof.
  intros Hn. unfold DEPLOYED_AT_MASK.
  replace 0xFFFFFFFFFFFFFFFFFFFFFFFFFFFFFFFFFFFFFFFFFFFFFFFFFFFFFF00000000
    with (Z.shiftl (Z.ones 216) 32) by reflexivity.
  rewrite Z.shiftl_spec by lia.
  destruct (Z.leb_spec 32 n) as [Hle | Hlt]; simpl.
  - destruct (Z.ltb_spec n 248).
    + apply Z.ones_spec_low. lia.
    + apply Z.ones_spec_high. lia.
  - apply Z.testbit_neg_r. lia.
Qed.

Lemma small_bits (d n : Z) : 0 <= d < 2 ^ 32 -> 32 <= n -> Z.testbit d n = false.
Proof.
  intros [H0 H1] Hn.
  destruct (Z.eq_dec d 0) as [-> | Hnz]; [apply Z.bits_0 |].
  apply Z.bits_above_log2; [lia |].
  assert (Z.log2 d < 32) by (apply Z.log2_lt_pow2; lia). lia.
Qed.

(** Bits 32 to 247 survive the stamping, whatever they are. *)
Lemma setDeployedAt_bits (t d n : Z) :
  0 <= d < 2 ^ 32 -> 32 <= n < 248 ->
  Z.testbit (setDeployedAt t d) n = Z.testbit t n.
Proof.
  intros Hd Hn. unfold setDeployedAt.
  rewrite Z.lor_spec, Z.land_spec, mask_bits by lia.
  rewrite (small_bits d n) by lia.
  replace (32 <=? n) with true by (symmetry; apply Z.leb_le; lia).
  replace (n <? 248) with true by (symmetry; apply Z.ltb_lt; lia).
  simpl. now rewrite andb_true_r, orb_false_r.
Qed.

Lemma field_bits (i t n : Z) :
  0 <= i -> 0 <= n ->
  Z.testbit (field i t) n = (n <? 32) && Z.testbit t (n + 32 * i).
Proof.
  intros Hi Hn. unfold field, FIELD_BITS, FIELD_MAX.
  replace 0xFFFFFFFF with (Z.ones 32) by reflexivity.
  rewrite Z.land_spec, Z.shiftr_spec by lia.
  destruct (Z.ltb_spec n 32).
  - rewrite Z.ones_spec_low by lia. now rewrite andb_true_r.
  - rewrite Z.ones_spec_high by lia. now rewrite andb_false_r.
Qed.

(** The six sub-fields in positions 1 to 6 are kept. *)
Lemma setDeployedAt_keeps_field (t d i : Z) :
  0 <= d < 2 ^ 32 -> 1 <= i <= 6 ->
  field i (setDeployedAt t d) = field i t.
Proof.
  intros Hd Hi. apply Z.bits_inj'. intros n Hn.
  rewrite !field_bits by lia.
  destruct (Z.ltb_spec n 32); simpl; [| reflexivity].
  apply setDeployedAt_bits; [assumption | nia].
Qed.

(** The sub-field in position 0 receives the timestamp. *)
Lemma setDeployedAt_sets_field0 (t d : Z) :
  0 <= d < 2 ^ 32 -> field 0 (setDeployedAt t d) = d.
Proof.
  intros Hd. apply Z.bits_inj'. intros n Hn.
  rewrite field_bits by lia. unfold setDeployedAt.
  rewrite Z.lor_spec, Z.land_spec, mask_bits by lia.
  replace (n + 32 * 0) with n by lia.
  destruct (Z.ltb_spec n 32); simpl.
  - replace (32 <=? n) with false by (symmetry; apply Z.leb_gt; lia).
    simpl. now rewrite andb_false_r.
  - symmetry. apply small_bits; lia.
Qed.

(** The sub-field in position 7 keeps its low 24 bits and loses the rest. *)
Lemma setDeployedAt_truncates_field7 (t d : Z) :
  0 <= d < 2 ^ 32 ->
  field 7 (setDeployedAt t d) = Z.land (field 7 t) (Z.ones 24).
Proof.
  intros Hd. apply Z.bits_inj'. intros n Hn.
  rewrite Z.land_spec, !field_bits by lia. unfold setDeployedAt.
  rewrite Z.lor_spec, Z.land_spec, mask_bits by lia.
  rewrite (small_bits d (n + 32 * 7)) by lia.
  replace (32 <=? n + 32 * 7) with true by (symmetry; apply Z.leb_le; lia).
  rewrite orb_false_r. simpl.
  destruct (Z.ltb_spec n 24).
  - rewrite Z.ones_spec_low by lia.
    replace (n + 32 * 7 <? 248) with true by (symmetry; apply Z.ltb_lt; lia).
    now rewrite !andb_true_r.
  - rewrite Z.ones_spec_high by lia.
    replace (n + 32 * 7 <? 248) with false by (symmetry; apply Z.ltb_ge; lia).
    now rewrite !andb_false_r.
Qed.

(** Stamping twice is stamping once with the second timestamp, as far as
    bits 32 to 247 go. *)
Lemma setDeployedAt_again (t d1 d2 i : Z) :
  0 <= d1 < 2 ^ 32 -> 0 <= d2 < 2 ^ 32 -> 1 <= i <= 6 ->
  field i (setDeployedAt (setDeployedAt t d1) d2) = field i t.
Proof.
  intros H1 H2 Hi. now rewrite !setDeployedAt_keeps_field.
Qed.

(** The word whose eight sub-fields all hold [2^24], stamped with a
    timestamp of 2023: whichever sub-field is taken for [deployedAt], one
    of the other seven is altered. *)
Lemma stamping_alters_an_offset_in_every_layout (slot : Z) :
  0 <= slot <= 7 ->
  other_fields slot (setDeployedAt (pack (repeat 16777216 8%nat)) 1700000000)
  <> other_fields slot (pack (repeat 16777216 8%nat)).
Proof.
  intros H.
  assert (slot = 0 \/ slot = 1 \/ slot = 2 \/ slot = 3 \/ slot = 4 \/ slot = 5
          \/ slot = 6 \/ slot = 7) as Hs by lia.
  repeat (destruct Hs as [-> | Hs]); try subst slot; vm_compute; discriminate.
Qed.

End TimelocksFacts.

(** C4 (the code departs from the claim).  A packed word whose offsets
    satisfy the ordering invariant (source stages 100, 200, 300, 400;
    destination stages 100, 200, 16777216) is stamped with the timestamp
    1700000000: the six lower offsets are kept, the seventh, which needs
    bit 248 of the word, is replaced by 0, because the constant of the
    stamping expression has 54 hex digits [F] and not 56. *)
Theorem stamping_drops_the_top_byte :
  let offsets := [100; 200; 300; 400; 100; 200; 16777216] in
  let word := Timelocks.pack (0 :: offsets) in
  let stamped := Timelocks.setDeployedAt word 1700000000 in
  Timelocks.ordered (firstn 4 offsets) = true /\
  Timelocks.ordered (skipn 4 offsets) = true /\
  Timelocks.other_fields 0 word = offsets /\
  Timelocks.field 0 stamped = 1700000000 /\
  Timelocks.other_fields 0 stamped = [100; 200; 300; 400; 100; 200; 0].
Proof. vm_compute. repeat split; reflexivity. Qed.

(** ** Executions of programs *)

Section ProgramFacts.
Context {St : Type}.
Implicit Types s : St.

Lemma exec_bind {A B} (p : Prog St A) (f : A -> Prog St B) s tr s' o :
  exec (bind p f) s tr s' o <->
  (exists m, exec p s tr s' (inl m) /\ o = inl m) \/
  (exists a tr1 s1 tr2,
      exec p s tr1 s1 (inr a) /\ exec (f a) s1 tr2 s' o /\ tr = tr1 ++ tr2).
Proof.
  revert s tr. induction p as [a | m | c k IH | g k IH]; intros s tr; simpl.
  - split.
    + intros H. right. exists a, [], s, tr. auto.
    + intros [(m & (_ & _ & Hm) & _) | (a' & tr1 & s1 & tr2 & (-> & -> & Ha) & H & ->)].
      * discriminate.
      * injection Ha as ->. exact H.
  - split.
    + intros (-> & -> & ->). left. exists m. auto.
    + intros [(m' & (-> & -> & Hm) & ->) | (a' & tr1 & s1 & tr2 & (_ & _ & Ha) & _)].
      * injection Hm as ->. auto.
      * discriminate.
  - split.
    + intros (r & tr' & -> & H). apply IH in H.
      destruct H as [(m & H & ->) | (a & tr1 & s1 & tr2 & H1 & H2 & ->)].
      * left. exists m. split; [exists r, tr'; auto | reflexivity].
      * right. exists a, (mkEntry c r :: tr1), s1, tr2.
        split; [exists r, tr1; auto | auto].
    + intros [(m & (r & tr' & -> & H) & ->) | (a & tr1 & s1 & tr2 & (r & tr' & -> & H1) & H2 & ->)].
      * exists r, tr'. split; [reflexivity |]. apply IH. left. eauto.
      * exists r, (tr' ++ tr2). split; [reflexivity |]. apply IH. right.
        exists a, tr', s1, tr2. auto.
  - rewrite IH. reflexivity.
Qed.

Lemma exec_try_catch {A} (p : Prog St A) (h : string -> Prog St A) s tr s' o :
  exec (try_catch p h) s tr s' o <->
  (exists a, exec p s tr s' (inr a) /\ o = inr a) \/
  (exists m tr1 s1 tr2,
      exec p s tr1 s1 (inl m) /\ exec (h m) s1 tr2 s' o /\ tr = tr1 ++ tr2).
Proof.
  revert s tr. induction p as [a | m | c k IH | g k IH]; intros s tr; simpl.
  - split.
    + intros (-> & -> & ->). left. exists a. auto.
    + intros [(a' & (-> & -> & Ha) & ->) | (m & tr1 & s1 & tr2 & (_ & _ & Hm) & _)].
      * injection Ha as ->. auto.
      * discriminate.
  - split.
    + intros H. right. exists m, [], s, tr. auto.
    + intros [(a & (_ & _ & Ha) & _) | (m' & tr1 & s1 & tr2 & (-> & -> & Hm) & H & ->)].
      * discriminate.
      * injection Hm as ->. exact H.
  - split.
    + intros (r & tr' & -> & H). apply IH in H.
      destruct H as [(a & H & ->) | (m & tr1 & s1 & tr2 & H1 & H2 & ->)].
      * left. exists a. split; [exists r, tr'; auto | reflexivity].
      * right. exists m, (mkEntry c r :: tr1), s1, tr2.
        split; [exists r, tr1; auto | auto].
    + intros [(a & (r & tr' & -> & H) & ->) | (m & tr1 & s1 & tr2 & (r & tr' & -> & H1) & H2 & ->)].
      * exists r, tr'. split; [reflexivity |]. apply IH. left. eauto.
      * exists r, (tr' ++ tr2). split; [reflexivity |]. apply IH. right.
        exists m, tr', s1, tr2. auto.
  - rewrite IH. reflexivity.
Qed.

(** The oracle-driven run is an execution. *)
Lemma run_exec {A} (env : Oracle) (p : Prog St A) n s :
  exec p s (trace (run env n p s)) (final (run env n p s)) (outcome (run env n p s)).
Proof.
  revert n s. induction p as [a | m | c k IH | g k IH]; intros n s; simpl; auto.
  exists (env n c), (trace (run env (S n) (k (env n c)) s)). split; [reflexivity | apply IH].
Qed.

Lemma calls_sat_exec {A} (Q : Call -> Prop) (p : Prog St A) s tr s' o :
  calls_sat Q p -> exec p s tr s' o -> Forall (fun e => Q (e_call e)) tr.
Proof.
  revert s tr. induction p as [a | m | c k IH | g k IH]; intros s tr; simpl.
  - intros _ (-> & _). constructor.
  - intros _ (-> & _). constructor.
  - intros [Hc Hk] (r & tr' & -> & H). constructor; [exact Hc | eapply IH; eauto].
  - intros Hk H. eapply IH; eauto.
Qed.

Lemma calls_sat_bind {A B} (Q : Call -> Prop) (p : Prog St A) (f : A -> Prog St B) :
  calls_sat Q p -> (forall a, calls_sat Q (f a)) -> calls_sat Q (bind p f).
Proof.
  intros Hp Hf. induction p as [a | m | c k IH | g k IH]; simpl in *; auto.
  destruct Hp as [Hc Hk]. split; auto.
Qed.

Lemma calls_sat_try_catch {A} (Q : Call -> Prop) (p : Prog St A) (h : string -> Prog St A) :
  calls_sat Q p -> (forall m, calls_sat Q (h m)) -> calls_sat Q (try_catch p h).
Proof.
  intros Hp Hh. induction p as [a | m | c k IH | g k IH]; simpl in *; auto.
  destruct Hp as [Hc Hk]. split; auto.
Qed.

Lemma calls_sat_lift {A} (Q : Call -> Prop) (r : Res A) : calls_sat Q (lift (Store := St) r).
Proof. destruct r; exact I. Qed.

Lemma calls_sat_impl {A} (Q Q' : Call -> Prop) (p : Prog St A) :
  (forall c, Q c -> Q' c) -> calls_sat Q p -> calls_sat Q' p.
Proof.
  intros HQ. induction p as [a | m | c k IH | g k IH]; simpl; auto.
  intros [Hc Hk]. split; auto.
Qed.

(** A program without calls leaves no trace. *)
Lemma exec_update (f : St -> St) s tr s' (o : Res unit) :
  exec (update f) s tr s' o <-> tr = [] /\ s' = f s /\ o = inr tt.
Proof. reflexivity. Qed.

Lemma updates_keep_exec {A} (I : St -> Prop) (p : Prog St A) s tr s' o :
  updates_keep I p -> I s -> exec p s tr s' o -> I s'.
Proof.
  revert s tr. induction p as [a | m | c k IH | g k IH]; intros s tr; simpl.
  - intros _ Hs (_ & -> & _). exact Hs.
  - intros _ Hs (_ & -> & _). exact Hs.
  - intros Hk Hs (r & tr' & -> & H). exact (IH r s tr' (Hk r) Hs H).
  - intros [Hg Hk] Hs H. exact (IH (g s) tr Hk (Hg s Hs) H).
Qed.

Lemma updates_keep_bind {A B} (I : St -> Prop) (p : Prog St A) (f : A -> Prog St B) :
  updates_keep I p -> (forall a, updates_keep I (f a)) -> updates_keep I (bind p f).
Proof.
  intros Hp Hf. induction p as [a | m | c k IH | g k IH]; simpl in *; auto.
  destruct Hp as [Hc Hk]. split; auto.
Qed.

Lemma updates_keep_try_catch {A} (I : St -> Prop) (p : Prog St A) (h : string -> Prog St A) :
  updates_keep I p -> (forall m, updates_keep I (h m)) -> updates_keep I (try_catch p h).
Proof.
  intros Hp Hh. induction p as [a | m | c k IH | g k IH]; simpl in *; auto.
  destruct Hp as [Hc Hk]. split; auto.
Qed.

End ProgramFacts.

(** Splitting a trace at an entry that its first part cannot contain. *)
Lemma split_after_clean {X} (P : X -> Prop) (clean rest pre post : list X) (e : X) :
  Forall (fun x => ~ P x) clean -> P e ->
  clean ++ rest = pre ++ e :: post ->
  exists pre', pre = clean ++ pre' /\ rest = pre' ++ e :: post.
Proof.
  revert pre. induction clean as [| x clean IH]; intros pre Hc He Heq; simpl in *.
  - exists pre. auto.
  - destruct pre as [| y pre]; simpl in Heq; injection Heq as -> Heq.
    + inversion Hc; subst. contradiction.
    + inversion Hc; subst. destruct (IH pre) as (pre' & -> & ->); auto.
      exists pre'. auto.
Qed.

Lemma in_clean_absurd {X} (P : X -> Prop) (clean pre post : list X) (e : X) :
  Forall (fun x => ~ P x) clean -> P e -> clean = pre ++ e :: post -> False.
Proof.
  intros Hc He ->. rewrite Forall_app in Hc. destruct Hc as [_ Hc].
  inversion Hc; subst. contradiction.
Qed.

(** Walking past a part of the program that cannot issue the call looked
    for: that part has completed, and the call is in what follows. *)
Lemma skip_bind {St A B} (P : Call -> Prop) (p : Prog St A) (f : A -> Prog St B)
    (s s' : St) tr o pre e post :
  calls_sat (fun c => ~ P c) p ->
  exec (bind p f) s tr s' o -> tr = pre ++ e :: post -> P (e_call e) ->
  exists a tr1 s1 pre2 tr2,
    exec p s tr1 s1 (inr a) /\ exec (f a) s1 tr2 s' o /\
    pre = tr1 ++ pre2 /\ tr2 = pre2 ++ e :: post.
Proof.
  intros Hclean H Htr He. apply exec_bind in H.
  destruct H as [(m & H & _) | (a & tr1 & s1 & tr2 & H1 & H2 & ->)].
  - exfalso. eapply calls_sat_exec in H; [| exact Hclean].
    exact (in_clean_absurd (fun x => P (e_call x)) _ _ _ _ H He Htr).
  - pose proof (calls_sat_exec _ _ _ _ _ _ Hclean H1) as Hc.
    destruct (split_after_clean (fun x => P (e_call x)) tr1 tr2 pre post e Hc He Htr)
      as (pre2 & -> & ->).
    exists a, tr1, s1, pre2, (pre2 ++ e :: post). auto.
Qed.

(** A call found in a program that cannot issue it. *)
Lemma absent_call {St A} (P : Call -> Prop) (p : Prog St A) (s s' : St) tr o pre e post :
  calls_sat (fun c => ~ P c) p ->
  exec p s tr s' o -> tr = pre ++ e :: post -> P (e_call e) -> False.
Proof.
  intros Hclean H Htr He. eapply calls_sat_exec in H; [| exact Hclean].
  exact (in_clean_absurd (fun x => P (e_call x)) _ _ _ _ H He Htr).
Qed.

(** A handler that issues no call adds nothing to the trace. *)
Lemma exec_silent {St A} (p : Prog St A) (s s' : St) tr o :
  calls_sat (fun _ => False) p -> exec p s tr s' o -> tr = [].
Proof.
  intros Hc H. eapply calls_sat_exec in H; [| exact Hc].
  destruct tr; [reflexivity | inversion H; contradiction].
Qed.

Lemma exec_handled {St A} (p : Prog St A) (h : string -> Prog St A) (s s' : St) tr o :
  (forall m, calls_sat (fun _ => False) (h m)) ->
  exec (try_catch p h) s tr s' o ->
  (exists a, exec p s tr s' (inr a) /\ o = inr a) \/
  (exists m s1, exec p s tr s1 (inl m) /\ exec (h m) s1 [] s' o).
Proof.
  intros Hh H. apply exec_try_catch in H.
  destruct H as [H | (m & tr1 & s1 & tr2 & H1 & H2 & ->)]; [left; exact H |].
  right. pose proof (exec_silent _ _ _ _ _ (Hh m) H2) as ->.
  rewrite app_nil_r. eauto.
Qed.

(** ** Footprints of the programs *)

Section Footprints.
Context {St : Type}.

Lemma calls_sat_poll (Q : Call -> Prop) n tok owner spender amt :
  Q (allowance_call tok owner spender) -> Q (Sleep 5000) ->
  calls_sat Q (poll_approval (St := St) n tok owner spender amt).
Proof.
  intros Ha Hs. induction n as [| n IH]; simpl; [exact I |].
  split; [exact Ha |]. intros [m | z].
  - simpl. auto.
  - destruct (z >=? amt); simpl; auto.
Qed.

End Footprints.

Create HintDb calls discriminated.

#[local] Hint Unfold balanceOf allowance estimateGas send wait getTransactionReceipt
  getBalance addressOfEscrowSrc sleep date_now update : calls.

Ltac calls_leaf :=
  cbn; repeat split; try congruence; try discriminate; try reflexivity; auto.

Ltac calls_step :=
  lazymatch goal with
  | |- True => exact I
  | |- calls_sat _ (bind _ _) => apply calls_sat_bind; [| intros ?]
  | |- calls_sat _ (try_catch _ _) => apply calls_sat_try_catch; [| intros ?]
  | |- calls_sat _ (lift _) => apply calls_sat_lift
  | |- calls_sat _ (poll_approval _ _ _ _ _) => apply calls_sat_poll; calls_leaf
  | |- calls_sat _ (Ret _) => exact I
  | |- calls_sat _ (Throw _) => exact I
  | |- calls_sat _ (Upd _ _) => cbn [calls_sat]
  | |- calls_sat _ (Do _ _) => cbn [calls_sat]; split; [calls_leaf | intros ?]
  | |- calls_sat _ (if ?b then _ else _) => destruct b
  | |- calls_sat _ (match ?x with _ => _ end) => destruct x
  | |- calls_sat _ (let _ := _ in _) => cbv zeta
  | |- calls_sat _ _ => progress autounfold with calls
  end.

Ltac solve_calls := repeat calls_step.

Ltac exec_run H :=
  cbn [exec bind try_catch lift] in H;
  lazymatch type of H with
  | exists r tr', _ = _ :: tr' /\ _ =>
      let r := fresh "r" in
      let tr' := fresh "tr" in
      destruct H as (r & tr' & -> & H);
      cbn [ans_ty] in r;
      lazymatch type of r with
      | Res _ => destruct r as [? | r]
      | (_ + _)%type => destruct r as [? | r]
      | _ => idtac
      end;
      exec_run H
  | _ = [] /\ _ /\ _ =>
      let E := fresh "E" in
      destruct H as (-> & -> & E); try discriminate E
  | exec (if ?b then _ else _) _ _ _ _ => destruct b eqn:?; exec_run H
  | exec (match ?x with _ => _ end) _ _ _ _ => destruct x eqn:?; exec_run H
  | _ => idtac
  end.

(** The same, through the branches that stand under a [try]. *)
Ltac exec_all H :=
  exec_run H;
  try (lazymatch type of H with
       | context [match ?o with Some _ => Ret _ | None => Throw _ end] => destruct o
       | context [if ?b then _ else _] => destruct b eqn:?
       | context [match truthy ?x with _ => _ end] => destruct (truthy x) eqn:?
       end;
       exec_all H).

(** ** The swap object stays allocated *)

Lemma allocated_mutate ref f s : allocated ref s -> allocated ref (mutate ref f s).
Proof.
  unfold allocated, mutate. simpl. intros [d Hd].
  rewrite lookup_alter. rewrite decide_True by reflexivity. rewrite Hd. simpl. eauto.
Qed.

Lemma allocated_set ref key s : allocated ref s -> allocated ref (activeSwaps_set key ref s).
Proof. unfold allocated, activeSwaps_set. simpl. auto. Qed.

Lemma updates_keep_poll (Inv : Store -> Prop) n tok owner spender amt :
  updates_keep Inv (poll_approval n tok owner spender amt).
Proof.
  induction n as [| n IH]; simpl; [exact I |].
  intros [m | z]; simpl; auto. destruct (z >=? amt); simpl; auto.
Qed.

Lemma updates_keep_lift {A} (Inv : Store -> Prop) (r : Res A) : updates_keep Inv (lift r).
Proof. destruct r; exact I. Qed.

Ltac updates_step :=
  lazymatch goal with
  | |- True => exact I
  | |- allocated _ (mutate _ _ _) => apply allocated_mutate; assumption
  | |- allocated _ (activeSwaps_set _ _ _) => apply allocated_set; assumption
  | |- updates_keep _ (bind _ _) => apply updates_keep_bind; [| intros ?]
  | |- updates_keep _ (try_catch _ _) => apply updates_keep_try_catch; [| intros ?]
  | |- updates_keep _ (lift _) => apply updates_keep_lift
  | |- updates_keep _ (poll_approval _ _ _ _ _) => apply updates_keep_poll
  | |- updates_keep _ (Ret _) => exact I
  | |- updates_keep _ (Throw _) => exact I
  | |- updates_keep _ (Upd _ _) => cbn [updates_keep]; split; [intros ? ? |]
  | |- updates_keep _ (Do _ _) => cbn [updates_keep]; intros ?
  | |- updates_keep _ (if ?b then _ else _) => destruct b
  | |- updates_keep _ (match ?x with _ => _ end) => destruct x
  | |- updates_keep _ (let _ := _ in _) => cbv zeta
  | |- updates_keep _ _ => progress autounfold with calls
  end.

Ltac bind_inv H :=
  apply exec_bind in H;
  let m := fresh "m" in
  let a := fresh "a" in
  let tr1 := fresh "tr" in
  let s1 := fresh "s" in
  let tr2 := fresh "tr" in
  let H1 := fresh "H" in
  let E := fresh "E" in
  destruct H as [(m & H & E) | (a & tr1 & s1 & tr2 & H1 & H & ->)];
  [ first [discriminate E | injection E as -> | subst] | ].

Ltac sublist_search :=
  first [ apply sublist_nil_l
        | (apply sublist_skip + apply sublist_cons); sublist_search ].

Lemma no_withdrawal_not_dst (c : Call) : withdraw_on c = None -> ~ withdraws_on_dst c.
Proof. intros Hn (escrow & args & H). congruence. Qed.

Lemma sleep_calls ms : calls_sat (fun c => ~ withdraws_on_dst c) (sleep (St := Store) ms).
Proof. solve_calls. intros (? & ? & ?); discriminate. Qed.

Module Server2Facts.
Import Server2.
#[local] Hint Unfold set_status retry_or_fail approve_estimated approve_retry approve_dst
  record_dst_escrow create_dst_escrow wait_src_approval transfer_from_user approve_src
  record_src_escrow create_src_escrow verify_funds withdraw_from withdraw_src withdraw_dst
  transfer_to_user complete fail lock_funds release_funds swap_body : calls.

Section Facts.
Variable cfg : Config.
Variable ref : nat.
Variable swapData : SwapData.t.

Lemma s2_calls_sat_find_src (Q : Call -> Prop) ls :
  (forall i, Q (ViewAddress Src (SwapData.srcFactoryAddress swapData)
                  "addressOfEscrowSrc" [ATuple i])) ->
  calls_sat Q (find_src_escrow swapData ls).
Proof.
  intros HQ. induction ls as [| l ls IH]; simpl; [exact I |].
  destruct (parseLog l) as [p |]; [| exact IH].
  destruct (String.eqb _ _); [exact I |].
  destruct (String.eqb _ _); [| exact IH].
  destruct (ev_srcImmutables p); [| exact IH].
  simpl. split; [apply HQ |].
  intros [m | a]; [exact IH | exact I].
Qed.

Ltac solve_calls2 :=
  repeat first
    [ lazymatch goal with
      | |- calls_sat _ (find_src_escrow _ _) => apply s2_calls_sat_find_src; intros; calls_leaf
      end
    | calls_step ].

(** Steps 1 and 2 talk to the destination chain only. *)
Lemma s2_approve_dst_calls :
  calls_sat (fun c => chain_of c <> Some Src /\ reveals_nothing c)
    (approve_dst cfg ref swapData).
Proof. unfold reveals_nothing. solve_calls2. Qed.

Lemma s2_create_dst_escrow_calls :
  calls_sat (fun c => chain_of c <> Some Src /\ reveals_nothing c)
    (create_dst_escrow cfg ref swapData).
Proof. unfold reveals_nothing. solve_calls2. Qed.

(** Steps 1 to 6 submit no withdrawal. *)
Lemma s2_lock_funds_calls :
  calls_sat (fun c => withdraw_on c = None) (lock_funds cfg ref swapData).
Proof. solve_calls2. Qed.

Lemma s2_verify_funds_calls src dst :
  calls_sat (fun c => withdraw_on c = None) (verify_funds cfg swapData src dst).
Proof. solve_calls2. Qed.

(** Steps 7 to 10 submit withdrawals to the two escrows only, with the
    secret and the immutables of the side. *)
Lemma s2_release_funds_calls src dst :
  calls_sat (expected_withdrawal swapData src dst) (release_funds cfg ref swapData src dst).
Proof.
  unfold expected_withdrawal.
  solve_calls2; intros ch escrow args [= <- <- <-]; auto.
Qed.

Lemma s2_verify_ok src dst s tr s' :
  exec (verify_funds cfg swapData src dst) s tr s' (inr tt) ->
  exists zs zd es ed,
    tr = [balance_entry Src (srcUSDC cfg) src zs; balance_entry Dst (dstUSDC cfg) dst zd;
          mkEntry (GetBalance Src src) (inr es); mkEntry (GetBalance Dst dst) (inr ed)] /\
    SwapData.amount swapData <= zs /\ SwapData.amount swapData <= zd.
Proof.
  intros H. unfold verify_funds, balanceOf, getBalance in H. exec_run H.
  apply andb_true_iff in Heqb. destruct Heqb as [Hs Hd].
  apply Z.geb_le in Hs, Hd. exists r0, r1, r2, r3. auto.
Qed.

(** The polling loop never throws and never touches the store; it
    answers [true] only after an allowance of at least the amount. *)
Lemma poll_result n tok owner spender amt (s s' : Store) tr o :
  exec (poll_approval n tok owner spender amt) s tr s' o ->
  s' = s /\
  Forall (fun c => c = allowance_call tok owner spender \/ c = Sleep 5000) (calls_of tr) /\
  ((o = inr true /\ exists z, In (allowance_entry tok owner spender z) tr /\ amt <= z) \/
   (o = inr false /\ calls_of tr = polling_window (allowance_call tok owner spender) n)).
Proof.
  revert tr. induction n as [| n IH]; intros tr H.
  - simpl in H. destruct H as (-> & -> & ->). split; [reflexivity |].
    split; [constructor |]. right. auto.
  - simpl in H. destruct H as (r & tr' & -> & H).
    assert (Hretry : exec (sleep 5000 ;;; poll_approval n tok owner spender amt) s tr' s' o ->
       s' = s /\
       Forall (fun c => c = allowance_call tok owner spender \/ c = Sleep 5000)
         (calls_of (mkEntry (allowance_call tok owner spender) r :: tr')) /\
       ((o = inr true /\ exists z, In (allowance_entry tok owner spender z)
                                    (mkEntry (allowance_call tok owner spender) r :: tr')
                                  /\ amt <= z) \/
        (o = inr false /\ calls_of (mkEntry (allowance_call tok owner spender) r :: tr')
                          = polling_window (allowance_call tok owner spender) (S n)))).
    { intros H'. unfold sleep in H'. exec_run H'. destruct (IH _ H') as (-> & Hc & Hr).
      split; [reflexivity |].
      split; [constructor; [left; reflexivity | constructor; [right; reflexivity | exact Hc]] |].
      destruct Hr as [(-> & z & Hin & Hz) | (-> & Hl)].
      - left. split; [reflexivity |]. exists z. simpl. auto.
      - right. split; [reflexivity |]. unfold polling_window in *. simpl. now rewrite <- Hl. }
    destruct r as [m | z]; [exact (Hretry H) |].
    destruct (z >=? amt) eqn:Hz; [| exact (Hretry H)].
    simpl in H. destruct H as (-> & -> & ->).
    split; [reflexivity |]. split; [constructor; [left; reflexivity | constructor] |].
    left. split; [reflexivity |]. exists z. apply Z.geb_le in Hz. simpl. auto.
Qed.

Lemma s2_updates_find_src (Inv : Store -> Prop) ls :
  updates_keep Inv (find_src_escrow swapData ls).
Proof.
  induction ls as [| l ls IH]; simpl; [exact I |].
  destruct (parseLog l) as [p |]; [| exact IH].
  destruct (String.eqb _ _); [exact I |].
  destruct (String.eqb _ _); [| exact IH].
  destruct (ev_srcImmutables p); [| exact IH].
  simpl. intros [m | a]; [exact IH | exact I].
Qed.

Ltac solve_updates2 :=
  repeat first
    [ lazymatch goal with
      | |- updates_keep _ (find_src_escrow _ _) => apply s2_updates_find_src
      end
    | updates_step ].

Lemma s2_body_keeps_object :
  updates_keep (allocated ref) (swap_body cfg ref swapData).
Proof. solve_updates2. Qed.

(** What the [catch] of the function leaves in the registry. *)
Lemma s2_fail_result m s s' tr o :
  allocated ref s -> exec (fail ref swapData m) s tr s' o ->
  tr = [] /\ has_status ref "failed" s' /\ has_error ref m s'.
Proof.
  intros [d Hd] H. unfold fail, update in H. exec_run H.
  split; [reflexivity |].
  unfold has_status, has_error, activeSwaps_set, mutate; simpl.
  rewrite !lookup_alter, !decide_True by reflexivity. rewrite Hd. simpl.
  split; eexists; split; reflexivity.
Qed.

Lemma s2_set_status_exec v s tr s' (o : Res unit) :
  exec (set_status ref swapData v) s tr s' o -> tr = [] /\ o = inr tt.
Proof. intros H. unfold set_status, update in H. exec_run H. auto. Qed.

Lemma s2_wait_src_approval_outcome s tr s' o :
  exec (wait_src_approval cfg ref swapData) s tr s' o ->
  (o = inr tt /\
   exists z, In (allowance_entry (srcUSDC cfg) (SwapData.userAddress swapData)
                   (srcRelayer cfg) z) tr /\ SwapData.amount swapData <= z) \/
  (o = inl TIMEOUT /\
   calls_of tr = polling_window (allowance_call (srcUSDC cfg) (SwapData.userAddress swapData)
                                   (srcRelayer cfg)) maxAttempts).
Proof.
  intros H. unfold wait_src_approval in H.
  bind_inv H.
  { apply s2_set_status_exec in H. destruct H as [_ E]. discriminate. }
  apply s2_set_status_exec in H0. destruct H0 as [-> _]. simpl.
  bind_inv H.
  - apply poll_result in H. destruct H as (_ & _ & [(E & _) | (E & _)]); discriminate.
  - apply poll_result in H0. destruct H0 as (-> & _ & Hr).
    destruct Hr as [(E & z & Hin & Hz) | (E & Hw)]; injection E as ->; exec_run H;
      rewrite app_nil_r.
    + left. eauto.
    + right. subst o. auto.
Qed.

(** If steps 1 to 5 complete, the allowance was seen to reach the amount. *)
Lemma s2_lock_funds_approved s tr s' x :
  exec (lock_funds cfg ref swapData) s tr s' (inr x) ->
  exists z, In (allowance_entry (srcUSDC cfg) (SwapData.userAddress swapData)
                  (srcRelayer cfg) z) tr /\ SwapData.amount swapData <= z.
Proof.
  intros H. unfold lock_funds in H.
  bind_inv H. bind_inv H. bind_inv H.
  apply s2_wait_src_approval_outcome in H2. destruct H2 as [(_ & z & Hin & Hz) | (E & _)];
    [| discriminate].
  exists z. split; [| exact Hz]. rewrite !in_app_iff. auto.
Qed.

Lemma not_on_src_is_not_poll tr tok owner spender :
  Forall (fun e => chain_of (e_call e) <> Some Src /\ reveals_nothing (e_call e)) tr ->
  ~ In (allowance_call tok owner spender) (calls_of tr).
Proof.
  intros Hf Hin. unfold calls_of in Hin. apply in_map_iff in Hin.
  destruct Hin as (e & He & Hin). rewrite Forall_forall in Hf.
  destruct (Hf e) as [Hc _]; [apply list_elem_of_In; exact Hin |].
  rewrite He in Hc. apply Hc. reflexivity.
Qed.

Lemma polling_window_quiet read n :
  reveals_nothing read -> Forall reveals_nothing (polling_window read n).
Proof.
  intros Hr. unfold polling_window. induction n as [| n IH]; simpl; [constructor |].
  constructor; [exact Hr |]. constructor; [split; reflexivity | exact IH].
Qed.

(** If steps 1 to 5 throw although the polling was entered and never saw a
    sufficient allowance, then the error is the timeout, and the calls are
    those of the two steps on the destination chain followed by a full
    polling window. *)
Lemma s2_lock_funds_timeout s tr s' m :
  exec (lock_funds cfg ref swapData) s tr s' (inl m) ->
  In (allowance_call (srcUSDC cfg) (SwapData.userAddress swapData) (srcRelayer cfg))
     (calls_of tr) ->
  (forall z, In (allowance_entry (srcUSDC cfg) (SwapData.userAddress swapData)
                   (srcRelayer cfg) z) tr -> z < SwapData.amount swapData) ->
  m = TIMEOUT /\
  exists setup,
    calls_of tr = setup ++ polling_window
                    (allowance_call (srcUSDC cfg) (SwapData.userAddress swapData)
                       (srcRelayer cfg)) maxAttempts /\
    Forall (fun c => chain_of c <> Some Src /\ reveals_nothing c) setup.
Proof.
  intros H Hentered Hnever. unfold lock_funds in H.
  apply exec_bind in H.
  destruct H as [(m1 & H & _) | (a & ta & sa & tr' & Ha & H & ->)].
  { exfalso. eapply calls_sat_exec in H; [| apply s2_approve_dst_calls].
    exact (not_on_src_is_not_poll _ _ _ _ H Hentered). }
  pose proof (calls_sat_exec _ _ _ _ _ _ s2_approve_dst_calls Ha) as Fa.
  apply exec_bind in H.
  destruct H as [(m1 & H & _) | (dst & tb & sb & tr'' & Hb & H & ->)].
  { exfalso. eapply calls_sat_exec in H; [| apply s2_create_dst_escrow_calls].
    apply (not_on_src_is_not_poll (ta ++ tr')
             (srcUSDC cfg) (SwapData.userAddress swapData) (srcRelayer cfg));
      [apply Forall_app; auto | exact Hentered]. }
  pose proof (calls_sat_exec _ _ _ _ _ _ s2_create_dst_escrow_calls Hb) as Fb.
  apply exec_bind in H.
  destruct H as [(m1 & H & E) | (u & tc & sc & tr3 & Hc & H & ->)].
  - injection E as ->. apply s2_wait_src_approval_outcome in H.
    destruct H as [(E & _) | (E & Hw)]; [discriminate |].
    injection E as ->. split; [reflexivity |].
    exists (calls_of (ta ++ tb)). unfold calls_of in *.
    rewrite !map_app, Hw, <- app_assoc. split; [reflexivity |].
    rewrite Forall_app, !Forall_map. auto.
  - exfalso. apply s2_wait_src_approval_outcome in Hc.
    destruct Hc as [(_ & z & Hin & Hz) | (E & _)]; [| discriminate].
    assert (z < SwapData.amount swapData); [| lia].
    apply Hnever. rewrite !in_app_iff. auto.
Qed.

(** A withdrawal that returns has sent the secret to the escrow in a
    transaction and has seen that transaction confirmed. *)
Lemma s2_withdraw_from_ok ch tok escrow i prefix s tr s' :
  exec (withdraw_from swapData ch tok escrow i prefix) s tr s' (inr tt) ->
  exists ov tx rc,
    [sent_entry ch escrow "withdraw" (withdraw_args (SwapData.secret swapData) i) ov tx;
     waited_entry ch tx rc] `sublist_of` tr.
Proof.
  intros H. unfold withdraw_from, balanceOf, estimateGas, send, wait in H.
  exec_run H; do 3 eexists; unfold sent_entry, waited_entry; sublist_search.
Qed.

Lemma s2_withdraw_src_ok src s tr s' :
  exec (withdraw_src cfg ref swapData src) s tr s' (inr tt) ->
  exists ov tx rc,
    [sent_entry Src src "withdraw"
       (withdraw_args (SwapData.secret swapData) (SwapData.srcImmutables swapData)) ov tx;
     waited_entry Src tx rc] `sublist_of` tr.
Proof.
  intros H. unfold withdraw_src in H. bind_inv H.
  apply s2_set_status_exec in H0. destruct H0 as [-> _].
  exact (s2_withdraw_from_ok _ _ _ _ _ _ _ _ H).
Qed.

Lemma s2_withdraw_dst_ok dst s tr s' :
  exec (withdraw_dst cfg ref swapData dst) s tr s' (inr tt) ->
  exists ov tx rc,
    [sent_entry Dst dst "withdraw"
       (withdraw_args (SwapData.secret swapData) (SwapData.dstImmutables swapData)) ov tx;
     waited_entry Dst tx rc] `sublist_of` tr.
Proof.
  intros H. unfold withdraw_dst in H. bind_inv H.
  apply s2_set_status_exec in H0. destruct H0 as [-> _].
  exact (s2_withdraw_from_ok _ _ _ _ _ _ _ _ H).
Qed.

Lemma s2_fail_silent m : calls_sat (fun _ => False) (fail ref swapData m).
Proof. solve_calls2. Qed.

Lemma s2_run_is_body s tr s' o :
  exec (executeSwapAsync cfg ref swapData) s tr s' o ->
  exists s1 o1, exec (swap_body cfg ref swapData) s tr s1 o1.
Proof.
  intros H. unfold executeSwapAsync in H.
  apply exec_handled in H; [| apply s2_fail_silent].
  destruct H as [(a & H & _) | (m & s1 & H & _)]; eauto.
Qed.

(** Every withdrawal the gas-aware server submits comes after a read of
    the token balance of both escrows that found the amount or more. *)
Lemma s2_secret_guarded s tr s' o pre e post ch escrow args :
  exec (executeSwapAsync cfg ref swapData) s tr s' o ->
  tr = pre ++ e :: post ->
  withdraw_on (e_call e) = Some (ch, escrow, args) ->
  exists src dst zs zd,
    In (balance_entry Src (srcUSDC cfg) src zs) pre /\
    In (balance_entry Dst (dstUSDC cfg) dst zd) pre /\
    SwapData.amount swapData <= zs /\ SwapData.amount swapData <= zd /\
    escrow = match ch with Src => src | Dst => dst end.
Proof.
  intros H Htr He. apply s2_run_is_body in H. destruct H as (s1 & o1 & H).
  unfold swap_body in H.
  assert (Hp : (fun c => withdraw_on c <> None) (e_call e)) by (simpl; congruence).
  destruct (skip_bind (fun c => withdraw_on c <> None) _ _ _ _ _ _ _ _ _
              (calls_sat_impl _ _ _ (fun c Hc Hn => Hn Hc) s2_lock_funds_calls) H Htr Hp)
    as ([src dst] & tr1 & s2 & pre2 & tr2 & _ & H2 & -> & Htr2).
  cbn [fst snd] in H2.
  destruct (skip_bind (fun c => withdraw_on c <> None) _ _ _ _ _ _ _ _ _
              (calls_sat_impl _ _ _ (fun c Hc Hn => Hn Hc) (s2_verify_funds_calls src dst))
              H2 Htr2 Hp)
    as ([] & tr3 & s3 & pre3 & tr4 & Hv & H4 & -> & Htr4).
  apply s2_verify_ok in Hv. destruct Hv as (zs & zd & es & ed & -> & Hzs & Hzd).
  exists src, dst, zs, zd. rewrite !in_app_iff. simpl.
  repeat split; auto.
  eapply calls_sat_exec in H4; [| apply s2_release_funds_calls].
  rewrite Htr4, Forall_app, Forall_cons in H4. destruct H4 as (_ & Hq & _).
  specialize (Hq ch escrow args He). destruct ch; tauto.
Qed.

Lemma s2_withdraw_src_calls src :
  calls_sat (fun c => ~ withdraws_on_dst c) (withdraw_src cfg ref swapData src).
Proof.
  solve_calls2; try (intros (? & ? & ?); discriminate).
Qed.

(** In the gas-aware server every withdrawal submitted to the destination
    escrow comes after a confirmed withdrawal on the source escrow with the
    secret of the swap. *)
Lemma s2_dst_after_src s tr s' o pre e post :
  exec (executeSwapAsync cfg ref swapData) s tr s' o ->
  tr = pre ++ e :: post ->
  withdraws_on_dst (e_call e) ->
  exists src ov tx rc,
    [sent_entry Src src "withdraw"
       (withdraw_args (SwapData.secret swapData) (SwapData.srcImmutables swapData)) ov tx;
     waited_entry Src tx rc] `sublist_of` pre.
Proof.
  intros H Htr He. apply s2_run_is_body in H. destruct H as (s1 & o1 & H).
  unfold swap_body in H.
  destruct (skip_bind withdraws_on_dst _ _ _ _ _ _ _ _ _
              (calls_sat_impl _ _ _ no_withdrawal_not_dst s2_lock_funds_calls) H Htr He)
    as ([src dst] & tr1 & s2 & pre2 & tr2 & _ & H2 & -> & Htr2).
  cbn [fst snd] in H2.
  destruct (skip_bind withdraws_on_dst _ _ _ _ _ _ _ _ _
              (calls_sat_impl _ _ _ no_withdrawal_not_dst (s2_verify_funds_calls src dst))
              H2 Htr2 He)
    as ([] & tr3 & s3 & pre3 & tr4 & _ & H4 & -> & Htr4).
  unfold release_funds in H4.
  destruct (skip_bind withdraws_on_dst _ _ _ _ _ _ _ _ _ (sleep_calls 10000) H4 Htr4 He)
    as ([] & tr5 & s5 & pre5 & tr6 & _ & H6 & -> & Htr6).
  destruct (skip_bind withdraws_on_dst _ _ _ _ _ _ _ _ _ (s2_withdraw_src_calls src)
              H6 Htr6 He)
    as ([] & tr7 & s7 & pre7 & tr8 & Hw & _ & -> & _).
  apply s2_withdraw_src_ok in Hw. destruct Hw as (ov & tx & rc & Hsub).
  exists src, ov, tx, rc.
  do 3 apply sublist_inserts_l. apply sublist_inserts_r. exact Hsub.
Qed.

Lemma s2_failed_status m s s' tr o v :
  exec (fail ref swapData m) s tr s' o -> has_status ref v s' -> v = "failed".
Proof.
  intros H (d & Hd & <-). unfold fail, update in H. exec_run H.
  unfold activeSwaps_set, mutate in Hd; simpl in Hd.
  rewrite !lookup_alter, !decide_True in Hd by reflexivity.
  destruct (heap s !! ref) as [d0 |]; simpl in Hd; [| discriminate].
  injection Hd as <-. reflexivity.
Qed.

(** A completed run of the gas-aware server has withdrawn on the source
    escrow, seen the confirmation, and then withdrawn on the destination
    escrow and seen the confirmation, with the same secret. *)
Lemma s2_completed_order s tr s' o :
  exec (executeSwapAsync cfg ref swapData) s tr s' o ->
  has_status ref "completed" s' ->
  exists src dst ov1 tx1 rc1 ov2 tx2 rc2,
    [sent_entry Src src "withdraw"
       (withdraw_args (SwapData.secret swapData) (SwapData.srcImmutables swapData)) ov1 tx1;
     waited_entry Src tx1 rc1;
     sent_entry Dst dst "withdraw"
       (withdraw_args (SwapData.secret swapData) (SwapData.dstImmutables swapData)) ov2 tx2;
     waited_entry Dst tx2 rc2] `sublist_of` tr.
Proof.
  intros H Hst. unfold executeSwapAsync in H.
  apply exec_handled in H; [| apply s2_fail_silent].
  destruct H as [(a & H & _) | (m & s1 & _ & H)].
  2:{ apply (s2_failed_status _ _ _ _ _ _ H) in Hst. discriminate. }
  unfold swap_body in H. bind_inv H. destruct a0 as [src dst]. cbn [fst snd] in H.
  bind_inv H. unfold release_funds in H. bind_inv H. bind_inv H. bind_inv H.
  repeat match goal with u : unit |- _ => destruct u end.
  apply s2_withdraw_src_ok in H3. destruct H3 as (ov1 & tx1 & rc1 & Hs).
  apply s2_withdraw_dst_ok in H4. destruct H4 as (ov2 & tx2 & rc2 & Hd).
  exists src, dst, ov1, tx1, rc1, ov2, tx2, rc2.
  do 3 apply sublist_inserts_l.
  rewrite app_assoc. apply sublist_inserts_r.
  exact (sublist_app _ _ _ _ Hs Hd).
Qed.

End Facts.
End Server2Facts.

(** C2.  In the gas-aware server, take any execution of [executeSwapAsync]
    on a stored swap in which the polling of the maker's allowance was
    entered and no read of that allowance ever returned the fill amount or
    more.  Then the swap ends with status [failed] and the timeout message
    as its error; the calls of the execution are calls to the destination
    chain followed by the full polling window (sixty reads of the
    allowance, five seconds apart); and none of them creates a source
    escrow or submits a withdrawal, so the secret goes to no ledger. *)
Theorem authorization_timeout cfg ref swapData s tr s' o :
  allocated ref s ->
  exec (Server2.executeSwapAsync cfg ref swapData) s tr s' o ->
  In (allowance_call (srcUSDC cfg) (SwapData.userAddress swapData) (srcRelayer cfg))
     (calls_of tr) ->
  (forall z, In (allowance_entry (srcUSDC cfg) (SwapData.userAddress swapData)
                   (srcRelayer cfg) z) tr -> z < SwapData.amount swapData) ->
  has_status ref "failed" s' /\
  has_error ref Server2.TIMEOUT s' /\
  (exists setup,
      calls_of tr = setup ++ polling_window
                      (allowance_call (srcUSDC cfg) (SwapData.userAddress swapData)
                         (srcRelayer cfg)) 60 /\
      Forall (fun c => chain_of c <> Some Src) setup) /\
  Forall reveals_nothing (calls_of tr).
Proof.
  intros Halloc H Hentered Hnever. unfold Server2.executeSwapAsync in H.
  apply exec_try_catch in H.
  assert (Hbody : forall s1 o1, exec (Server2.swap_body cfg ref swapData) s tr s1 o1 ->
            exists m, o1 = inl m /\ m = Server2.TIMEOUT /\
              exists setup,
                calls_of tr = setup ++ polling_window
                                (allowance_call (srcUSDC cfg) (SwapData.userAddress swapData)
                                   (srcRelayer cfg)) maxAttempts /\
                Forall (fun c => chain_of c <> Some Src /\ reveals_nothing c) setup).
  { intros s1 o1 Hb. unfold Server2.swap_body in Hb. apply exec_bind in Hb.
    destruct Hb as [(m & Hb & ->) | (x & tr1 & s2 & tr2 & Hb & _ & ->)].
    - exists m. split; [reflexivity |].
      exact (Server2Facts.s2_lock_funds_timeout _ _ _ _ _ _ _ Hb Hentered Hnever).
    - exfalso. apply Server2Facts.s2_lock_funds_approved in Hb.
      destruct Hb as (z & Hin & Hz).
      assert (z < SwapData.amount swapData); [| lia].
      apply Hnever. rewrite in_app_iff. auto. }
  destruct H as [(a & H & ->) | (m & tr1 & s1 & tr2 & H1 & H2 & ->)].
  - destruct (Hbody _ _ H) as (m & E & _). discriminate.
  - pose proof (updates_keep_exec _ _ _ _ _ _
                  (Server2Facts.s2_body_keeps_object cfg ref swapData) Halloc H1) as Halloc1.
    destruct (Server2Facts.s2_fail_result _ _ _ _ _ _ _ Halloc1 H2) as (-> & Hst & Herr).
    rewrite app_nil_r in *.
    destruct (Hbody _ _ H1) as (m' & E & -> & setup & Hcalls & Hsetup).
    injection E as ->. split; [exact Hst |]. split; [exact Herr |]. split.
    + exists setup. split; [exact Hcalls |].
      eapply Forall_impl; [exact Hsetup |]. intros c [Hc _]. exact Hc.
    + rewrite Hcalls. apply Forall_app. split.
      * eapply Forall_impl; [exact Hsetup |]. intros c [_ Hc]. exact Hc.
      * apply Server2Facts.polling_window_quiet. split; reflexivity.
Qed.

Module Server1Facts.
Import Server1.
#[local] Hint Unfold set_status approve_dst create_dst_escrow wait_src_approval
  create_src_escrow withdraw_src withdraw_dst transfer_to_user complete fail swap_body : calls.

Section Facts.
Variable cfg : Config.
Variable ref : nat.
Variable swapData : SwapData.t.

Lemma s1_calls_sat_find_src (Q : Call -> Prop) ls :
  Q (ViewAddress Src (SwapData.srcFactoryAddress swapData) "addressOfEscrowSrc"
       [ATuple (SwapData.srcImmutables swapData)]) ->
  calls_sat Q (find_src_escrow swapData ls).
Proof.
  intros HQ. induction ls as [| l ls IH]; simpl; [exact I |].
  destruct (parseLog l) as [p |]; [| exact IH].
  destruct (String.eqb _ _); [exact I |].
  destruct (String.eqb _ _); [| exact IH].
  simpl. split; [apply HQ |].
  intros [m | a]; [exact IH | exact I].
Qed.

Ltac solve_calls1 :=
  repeat first
    [ lazymatch goal with
      | |- calls_sat _ (find_src_escrow _ _) => apply s1_calls_sat_find_src; calls_leaf
      end
    | calls_step ].

Lemma s1_set_status_exec v s tr s' (o : Res unit) :
  exec (set_status ref swapData v) s tr s' o -> tr = [] /\ o = inr tt.
Proof. intros H. unfold set_status, update in H. exec_run H. auto. Qed.

Lemma s1_approve_dst_calls :
  calls_sat (fun c => ~ withdraws_on_dst c) (approve_dst cfg ref swapData).
Proof. solve_calls1; try (intros (? & ? & ?); discriminate). Qed.

Lemma s1_create_dst_escrow_calls :
  calls_sat (fun c => ~ withdraws_on_dst c) (create_dst_escrow ref swapData).
Proof. solve_calls1; try (intros (? & ? & ?); discriminate). Qed.

Lemma s1_wait_src_approval_calls :
  calls_sat (fun c => ~ withdraws_on_dst c) (wait_src_approval cfg ref swapData).
Proof. solve_calls1; try (intros (? & ? & ?); discriminate). Qed.

Lemma s1_create_src_escrow_calls :
  calls_sat (fun c => ~ withdraws_on_dst c) (create_src_escrow ref swapData).
Proof. solve_calls1; try (intros (? & ? & ?); discriminate). Qed.

Lemma s1_withdraw_src_calls src :
  calls_sat (fun c => ~ withdraws_on_dst c) (withdraw_src ref swapData src).
Proof. solve_calls1; try (intros (? & ? & ?); discriminate). Qed.

Lemma s1_withdraw_src_ok src s tr s' :
  exec (withdraw_src ref swapData src) s tr s' (inr tt) ->
  exists ov tx rc,
    [sent_entry Src src "withdraw"
       (withdraw_args (SwapData.secret swapData) (SwapData.srcImmutables swapData)) ov tx;
     waited_entry Src tx rc] `sublist_of` tr.
Proof.
  intros H. unfold withdraw_src in H. bind_inv H.
  apply s1_set_status_exec in H0. destruct H0 as [-> _].
  unfold send, wait in H. exec_run H.
  do 3 eexists. unfold sent_entry, waited_entry. sublist_search.
Qed.

Lemma s1_withdraw_dst_ok dst s tr s' :
  exec (withdraw_dst ref swapData dst) s tr s' (inr tt) ->
  exists ov tx rc,
    [sent_entry Dst dst "withdraw"
       (withdraw_args (SwapData.secret swapData) (SwapData.dstImmutables swapData)) ov tx;
     waited_entry Dst tx rc] `sublist_of` tr.
Proof.
  intros H. unfold withdraw_dst in H. bind_inv H.
  apply s1_set_status_exec in H0. destruct H0 as [-> _].
  unfold send, wait in H. exec_run H.
  do 3 eexists. unfold sent_entry, waited_entry. sublist_search.
Qed.

Lemma s1_fail_silent m : calls_sat (fun _ => False) (fail ref swapData m).
Proof. solve_calls1. Qed.

Lemma s1_failed_status m s s' tr o v :
  exec (fail ref swapData m) s tr s' o -> has_status ref v s' -> v = "failed".
Proof.
  intros H (d & Hd & <-). unfold fail, update in H. exec_run H.
  unfold activeSwaps_set, mutate in Hd; simpl in Hd.
  rewrite !lookup_alter, !decide_True in Hd by reflexivity.
  destruct (heap s !! ref) as [d0 |]; simpl in Hd; [| discriminate].
  injection Hd as <-. reflexivity.
Qed.

Lemma s1_run_is_body s tr s' o :
  exec (executeSwapAsync cfg ref swapData) s tr s' o ->
  exists s1 o1, exec (swap_body cfg ref swapData) s tr s1 o1.
Proof.
  intros H. unfold executeSwapAsync in H.
  apply exec_handled in H; [| apply s1_fail_silent].
  destruct H as [(a & H & _) | (m & s1 & H & _)]; eauto.
Qed.

(** In the plain server every withdrawal submitted to the destination
    escrow comes after a confirmed withdrawal on the source escrow. *)
Lemma s1_dst_after_src s tr s' o pre e post :
  exec (executeSwapAsync cfg ref swapData) s tr s' o ->
  tr = pre ++ e :: post ->
  withdraws_on_dst (e_call e) ->
  exists src ov tx rc,
    [sent_entry Src src "withdraw"
       (withdraw_args (SwapData.secret swapData) (SwapData.srcImmutables swapData)) ov tx;
     waited_entry Src tx rc] `sublist_of` pre.
Proof.
  intros H Htr He. apply s1_run_is_body in H. destruct H as (s1 & o1 & H).
  unfold swap_body in H.
  destruct (skip_bind withdraws_on_dst _ _ _ _ _ _ _ _ _ s1_approve_dst_calls H Htr He)
    as ([] & tr1 & s2 & pre2 & tr2 & _ & H2 & -> & Htr2).
  destruct (skip_bind withdraws_on_dst _ _ _ _ _ _ _ _ _ s1_create_dst_escrow_calls
              H2 Htr2 He)
    as (dst & tr3 & s3 & pre3 & tr4 & _ & H4 & -> & Htr4).
  destruct (skip_bind withdraws_on_dst _ _ _ _ _ _ _ _ _ s1_wait_src_approval_calls
              H4 Htr4 He)
    as ([] & tr5 & s5 & pre5 & tr6 & _ & H6 & -> & Htr6).
  destruct (skip_bind withdraws_on_dst _ _ _ _ _ _ _ _ _ s1_create_src_escrow_calls
              H6 Htr6 He)
    as (src & tr7 & s7 & pre7 & tr8 & _ & H8 & -> & Htr8).
  destruct (skip_bind withdraws_on_dst _ _ _ _ _ _ _ _ _ (sleep_calls 10000) H8 Htr8 He)
    as ([] & tr9 & s9 & pre9 & tr10 & _ & H10 & -> & Htr10).
  destruct (skip_bind withdraws_on_dst _ _ _ _ _ _ _ _ _ (s1_withdraw_src_calls src)
              H10 Htr10 He)
    as ([] & tr11 & s11 & pre11 & tr12 & Hw & _ & -> & _).
  apply s1_withdraw_src_ok in Hw. destruct Hw as (ov & tx & rc & Hsub).
  exists src, ov, tx, rc.
  do 5 apply sublist_inserts_l. apply sublist_inserts_r. exact Hsub.
Qed.

Lemma s1_completed_order s tr s' o :
  exec (executeSwapAsync cfg ref swapData) s tr s' o ->
  has_status ref "completed" s' ->
  exists src dst ov1 tx1 rc1 ov2 tx2 rc2,
    [sent_entry Src src "withdraw"
       (withdraw_args (SwapData.secret swapData) (SwapData.srcImmutables swapData)) ov1 tx1;
     waited_entry Src tx1 rc1;
     sent_entry Dst dst "withdraw"
       (withdraw_args (SwapData.secret swapData) (SwapData.dstImmutables swapData)) ov2 tx2;
     waited_entry Dst tx2 rc2] `sublist_of` tr.
Proof.
  intros H Hst. unfold executeSwapAsync in H.
  apply exec_handled in H; [| apply s1_fail_silent].
  destruct H as [(a & H & _) | (m & s1 & _ & H)].
  2:{ apply (s1_failed_status _ _ _ _ _ _ H) in Hst. discriminate. }
  unfold swap_body in H.
  bind_inv H. bind_inv H. bind_inv H. bind_inv H. bind_inv H. bind_inv H. bind_inv H.
  repeat match goal with u : unit |- _ => destruct u end.
  match goal with
  | Hs : exec (withdraw_src _ _ _) _ _ _ _ |- _ =>
      apply s1_withdraw_src_ok in Hs; destruct Hs as (ov1 & tx1 & rc1 & Hsrc)
  end.
  match goal with
  | Hd : exec (withdraw_dst _ _ _) _ _ _ _ |- _ =>
      apply s1_withdraw_dst_ok in Hd; destruct Hd as (ov2 & tx2 & rc2 & Hdst)
  end.
  do 8 eexists.
  do 5 apply sublist_inserts_l.
  rewrite app_assoc. apply sublist_inserts_r.
  exact (sublist_app _ _ _ _ Hsrc Hdst).
Qed.

End Facts.
End Server1Facts.

(** C3, as amended.  In both relayer servers, whatever the ledgers answer:
    a withdrawal is submitted to the destination escrow only after the
    withdrawal transaction carrying the secret was sent to the source
    escrow and its confirmation was received; and a run that ends with
    status [completed] contains, in this order, the source withdrawal, its
    confirmation, the destination withdrawal with the same secret, and its
    confirmation. *)
Theorem source_withdrawal_first_in_servers cfg ref swapData s tr s' o :
  exec (Server1.executeSwapAsync cfg ref swapData) s tr s' o \/
  exec (Server2.executeSwapAsync cfg ref swapData) s tr s' o ->
  (forall pre e post,
      tr = pre ++ e :: post -> withdraws_on_dst (e_call e) ->
      exists src ov tx rc,
        [sent_entry Src src "withdraw"
           (withdraw_args (SwapData.secret swapData) (SwapData.srcImmutables swapData)) ov tx;
         waited_entry Src tx rc] `sublist_of` pre) /\
  (has_status ref "completed" s' ->
   exists src dst ov1 tx1 rc1 ov2 tx2 rc2,
     [sent_entry Src src "withdraw"
        (withdraw_args (SwapData.secret swapData) (SwapData.srcImmutables swapData)) ov1 tx1;
      waited_entry Src tx1 rc1;
      sent_entry Dst dst "withdraw"
        (withdraw_args (SwapData.secret swapData) (SwapData.dstImmutables swapData)) ov2 tx2;
      waited_entry Dst tx2 rc2] `sublist_of` tr).
Proof.
  intros [H | H]; split.
  - intros pre e post. exact (Server1Facts.s1_dst_after_src _ _ _ _ _ _ _ _ _ _ H).
  - exact (Server1Facts.s1_completed_order _ _ _ _ _ _ _ H).
  - intros pre e post. exact (Server2Facts.s2_dst_after_src _ _ _ _ _ _ _ _ _ _ H).
  - exact (Server2Facts.s2_completed_order _ _ _ _ _ _ _ H).
Qed.

(** ** The plain server against the gas-aware one on an unfunded ledger *)

(** C1 (the code departs from the claim).  On a ledger where both escrows
    are created but hold no tokens, the plain server issues exactly the
    calls below: it never reads the balance of an escrow, sends the secret
    to the source escrow and then to the destination escrow, and ends with
    status [completed].  On the same ledger the gas-aware server reads both
    balances, submits no withdrawal and fails with the funds-not-locked
    error. *)
Theorem plain_server_reveals_secret_unverified :
  let d := Sample.swapData in
  let plain := run Sample.unfunded_ledger 0
                 (Server1.executeSwapAsync Sample.cfg 0 d) Sample.store in
  let gas_aware := run Sample.unfunded_ledger 0
                     (Server2.executeSwapAsync Sample.cfg 0 d) Sample.store in
  calls_of (trace plain) =
    [View Dst (dstUSDC Sample.cfg) "balanceOf" [AAddress (dstRelayer Sample.cfg)];
     Send Dst (dstUSDC Sample.cfg) "approve"
       [AAddress Sample.dstFactory; AUint 1000000] no_overrides;
     Wait Dst {| tx_hash := "0x7aapprove" |};
     DateNow;
     Send Dst Sample.dstFactory "createDstEscrow"
       [ATuple (SwapData.dstImmutables d); AUint 1700003600] (with_value SAFETY_DEPOSIT);
     Wait Dst {| tx_hash := "0x7acreateDstEscrow" |};
     View Src (srcUSDC Sample.cfg) "allowance"
       [AAddress Sample.user; AAddress Sample.srcFactory];
     Send Src Sample.srcFactory "createSrcEscrow"
       [ATuple (SwapData.srcImmutables d)] (with_value SAFETY_DEPOSIT);
     Wait Src {| tx_hash := "0x7acreateSrcEscrow" |};
     Sleep 10000;
     Send Src Sample.srcEscrow "withdraw"
       (withdraw_args (SwapData.secret d) (SwapData.srcImmutables d)) no_overrides;
     Wait Src {| tx_hash := "0x7awithdraw" |};
     Send Dst Sample.dstEscrow "withdraw"
       (withdraw_args (SwapData.secret d) (SwapData.dstImmutables d)) no_overrides;
     Wait Dst {| tx_hash := "0x7awithdraw" |};
     Send Dst (dstUSDC Sample.cfg) "transfer"
       [AAddress Sample.user; AUint 1000000] no_overrides;
     Wait Dst {| tx_hash := "0x7atransfer" |};
     DateNow] /\
  existsb (reads_balance_of Sample.srcEscrow) (calls_of (trace plain)) = false /\
  existsb (reads_balance_of Sample.dstEscrow) (calls_of (trace plain)) = false /\
  status_of 0 (final plain) = Some "completed" /\
  existsb (reads_balance_of Sample.srcEscrow) (calls_of (trace gas_aware)) = true /\
  existsb (reads_balance_of Sample.dstEscrow) (calls_of (trace gas_aware)) = true /\
  existsb is_withdrawal (calls_of (trace gas_aware)) = false /\
  status_of 0 (final gas_aware) = Some "failed" /\
  error_of 0 (final gas_aware) = Some "Funds not properly locked in escrow contracts".
Proof. vm_compute. repeat split; reflexivity. Qed.

(** ** The multi-fill script *)

Module MultiFillFacts.
Import MultiFill.
#[local] Hint Unfold approve block_timestamp locate_src_escrow create_src_escrow withdraw_from
  final_verification create_dst_and_withdraw performMultipleFillCrossChainSwap : calls.

Section Facts.
Variable sdk : Sdk.
Variable cfg : Config.
Variables srcChain dstChain : ChainSetup.
Variable secrets : list string.
Variables salt nonce : Z.






End Facts.
End MultiFillFacts.









(** C3 as stated fails on the multi-fill script: on the ledger where every
    call succeeds the script completes, and its first withdrawal
    transaction (call number 22) goes to the destination escrow; no
    withdrawal call for the source escrow precedes it. *)
Lemma multi_fill_withdraws_on_destination_first :
  let r := run Sample.happy_ledger 0 Sample.multi_fill tt in
  outcome r = inr (MultiFill.Next tt) /\
  nth_error (calls_of (trace r)) 22
    = Some (Send Dst Sample.dstEscrow "withdraw"
              [ABytes32 "0x5a";
               ATuple {| orderHash := "0x0d"; hashlock := "0xha50x5a"; maker := 187;
                         taker := 187;
                         token := 162645876805862407557836451532389263558424949304;
                         amount := 500000; safetyDeposit := SAFETY_DEPOSIT;
                         timelocks := Timelocks.setDeployedAt
                                        (Timelocks.setDeployedAt Sample.offsets 1700000000)
                                        1700000100 |}]
              (with_gas 120000)) /\
  existsb (is_withdrawal_on Src) (firstn 22 (calls_of (trace r))) = false /\
  existsb (is_withdrawal_on Src) (skipn 22 (calls_of (trace r))) = true.
Proof. vm_compute. repeat split; reflexivity. Qed.

(** ** The script [arb-sep-mul-fixed.js] *)

Lemma auctionStartTimestamp_undefined (currentTime : Z) :
  MultiFillFixed.uint_identifier (MultiFillFixed.scope currentTime) "auctionStartTimestamp"
  = inl "auctionStartTimestamp is not defined".
Proof. reflexivity. Qed.

(** C10.  Whatever the SDK, the ledgers and the rest of the function are,
    every execution of [performMultipleFillCrossChainSwap] of
    [arb-sep-mul-fixed.js] ends by throwing; it issues at most the four
    balance reads and the clock reading that precede the signature of the
    order, so it sends no transaction (no approval, no escrow creation, no
    withdrawal); and when these five calls are answered and the SDK builds
    the order, the error is the [ReferenceError] of the undefined
    identifier [auctionStartTimestamp]. *)
Theorem fixed_script_always_throws
    sdk cfg srcChain dstChain secrets salt nonce rest s tr s' o :
  exec (MultiFillFixed.performMultipleFillCrossChainSwap sdk cfg srcChain dstChain secrets
          salt nonce rest) s tr s' o ->
  (exists message, o = inl message) /\
  Forall (fun e => is_send (e_call e) = false /\ submits "createSrcEscrow" (e_call e) = false
                   /\ submits "createDstEscrow" (e_call e) = false
                   /\ withdraw_on (e_call e) = None) tr /\
  (length tr <= 5)%nat /\
  (length tr = 5%nat ->
   (forall params, exists order, MultiFill.new_order sdk params = inr order) ->
   o = inl "auctionStartTimestamp is not defined").
Proof.
  intros H. unfold MultiFillFixed.performMultipleFillCrossChainSwap in H.
  unfold balanceOf, getBalance, date_now in H.
  exec_run H.
  1-4: subst o; split; [eexists; reflexivity |]; split; [repeat constructor |];
       split; [simpl; lia | simpl; intros; lia].
  destruct (MultiFill.new_order sdk _) as [message | order] eqn:Hnew; exec_run H.
  - subst o. split; [eexists; reflexivity |]. split; [repeat constructor |].
    split; [simpl; lia |]. intros _ Hsdk.
    match type of Hnew with
    | MultiFill.new_order sdk ?p = _ => destruct (Hsdk p) as (order & Ho); congruence
    end.
  - rewrite auctionStartTimestamp_undefined in H. exec_run H. subst o.
    split; [eexists; reflexivity |]. split; [repeat constructor |].
    split; [simpl; lia |]. reflexivity.
Qed.

Lemma fixed_script_always_throws_witness :
  let p := MultiFillFixed.performMultipleFillCrossChainSwap Sample.sdk Sample.cfg
             Sample.chain_src Sample.chain_dst Sample.secrets 7 9
             (fun _ _ => Ret (MultiFill.Next tt)) in
  let r := run Sample.happy_ledger 0 p tt in
  outcome r = inl "auctionStartTimestamp is not defined" /\
  length (trace r) = 5%nat /\
  Forall (fun e => is_send (e_call e) = false /\ submits "createSrcEscrow" (e_call e) = false
                   /\ submits "createDstEscrow" (e_call e) = false
                   /\ withdraw_on (e_call e) = None) (trace r).
Proof.
  pose proof (fixed_script_always_throws Sample.sdk Sample.cfg Sample.chain_src
                Sample.chain_dst Sample.secrets 7 9 (fun _ _ => Ret (MultiFill.Next tt))
                tt _ _ _ (run_exec Sample.happy_ledger _ 0%nat tt)) as (_ & Hsend & _ & Hmsg).
  split; [| split; [vm_compute; reflexivity | exact Hsend]].
  apply Hmsg; [vm_compute; reflexivity |].
  intros params. exists Sample.order. reflexivity.
Defined.

(** ** The escrow address of the demo script *)

(** C5, as amended.  The derivation of [cross-chain-swap.js] is a function
    of the order hash of the immutables and of the user address: equal
    order hashes and equal user addresses give equal escrow addresses,
    whatever the other fields of the immutables are. *)
Theorem escrow_address_depends_on_order_hash_only
    (keccak256 : string -> string) (solidityPacked : string -> string -> string)
    (i1 i2 : RawImmutables) (u1 u2 : string) :
  raw_orderHash i1 = raw_orderHash i2 -> u1 = u2 ->
  Demo.escrow_address keccak256 solidityPacked i1 u1
  = Demo.escrow_address keccak256 solidityPacked i2 u2.
Proof. intros Hh ->. unfold Demo.escrow_address. now rewrite Hh. Qed.

Lemma escrow_address_depends_on_order_hash_only_witness :
  let i := toSrcImmutables Sample.order 11155111 Sample.user 1000000 "0x4a" in
  let j := Demo.dst_immutables i Sample.user 1000000 (dstUSDC Sample.cfg) SAFETY_DEPOSIT in
  raw_orderHash i = raw_orderHash j /\
  Demo.escrow_address (keccak256 Sample.platform) String.append i Sample.user
  = Demo.escrow_address (keccak256 Sample.platform) String.append j Sample.user.
Proof.
  split; [reflexivity |].
  apply (escrow_address_depends_on_order_hash_only (keccak256 Sample.platform) String.append);
    reflexivity.
Defined.

(** C5 as stated fails: two immutables that differ only in the deployedAt
    sub-field of their timelocks (empty in one, stamped in the other) get
    the same address, for every hash function. *)
Lemma deployedAt_does_not_change_the_address :
  let i := toSrcImmutables Sample.order 11155111 Sample.user 1000000 "0x4a" in
  let j := {| raw_orderHash := raw_orderHash i; raw_hashlock := raw_hashlock i;
              raw_maker := raw_maker i; raw_taker := raw_taker i; raw_token := raw_token i;
              raw_amount := raw_amount i; raw_safetyDeposit := raw_safetyDeposit i;
              raw_timelocks := Timelocks.setDeployedAt (raw_timelocks i) 1700000000 |} in
  Timelocks.field 0 (raw_timelocks i) = 0 /\
  Timelocks.field 0 (raw_timelocks j) = 1700000000 /\
  Timelocks.other_fields 0 (raw_timelocks i) = Timelocks.other_fields 0 (raw_timelocks j) /\
  forall (keccak256 : string -> string) (solidityPacked : string -> string -> string),
    Demo.escrow_address keccak256 solidityPacked i Sample.user
    = Demo.escrow_address keccak256 solidityPacked j Sample.user.
Proof.
  cbv zeta. split; [vm_compute; reflexivity |]. split; [vm_compute; reflexivity |].
  split; [vm_compute; reflexivity |]. intros. reflexivity.
Qed.

(** ** The two sides of an order *)

(** C9, as amended.  The two records built from the SDK's source
    immutables share the order hash, the hashlock, the maker, the safety
    deposit and the timelocks, which are the SDK's timelocks stamped once
    with the current timestamp; the destination record takes its taker,
    token and amount from the destination taker address, the destination
    token address and the fill amount. *)
Theorem sides_share_hashes_and_timelocks
    raw deposit currentTimestamp dstTaker dstToken fillAmount src dst :
  side_immutables raw deposit currentTimestamp dstTaker dstToken fillAmount = Some (src, dst) ->
  orderHash src = raw_orderHash raw /\ orderHash dst = orderHash src /\
  hashlock src = raw_hashlock raw /\ hashlock dst = hashlock src /\
  maker dst = maker src /\
  safetyDeposit src = deposit /\ safetyDeposit dst = deposit /\
  timelocks src = Timelocks.setDeployedAt (raw_timelocks raw) currentTimestamp /\
  timelocks dst = timelocks src /\
  JsBigInt.BigInt (raw_taker raw) = Some (taker src) /\
  JsBigInt.BigInt dstTaker = Some (taker dst) /\
  JsBigInt.BigInt (raw_token raw) = Some (token src) /\
  JsBigInt.BigInt dstToken = Some (token dst) /\
  amount src = raw_amount raw /\ amount dst = fillAmount.
Proof.
  unfold side_immutables. intros H.
  destruct (JsBigInt.BigInt (raw_maker raw)) as [m |]; [| discriminate].
  destruct (JsBigInt.BigInt (raw_taker raw)) as [t |]; [| discriminate].
  destruct (JsBigInt.BigInt (raw_token raw)) as [k |]; [| discriminate].
  destruct (JsBigInt.BigInt dstTaker) as [dt |]; [| discriminate].
  destruct (JsBigInt.BigInt dstToken) as [dk |]; [| discriminate].
  simpl in H. injection H as <- <-. simpl. repeat split; reflexivity.
Qed.

Lemma sides_share_hashes_and_timelocks_witness :
  let src := SwapData.srcImmutables Sample.swapData in
  let dst := SwapData.dstImmutables Sample.swapData in
  orderHash dst = orderHash src /\ hashlock dst = hashlock src /\
  timelocks dst = timelocks src /\ token dst <> token src.
Proof.
  destruct (sides_share_hashes_and_timelocks
              (toSrcImmutables Sample.order 421614 Sample.user 1000000 "0xha50x5ec2e7")
              SAFETY_DEPOSIT 1700000000 Sample.user (dstUSDC Sample.cfg) 1000000
              (SwapData.srcImmutables Sample.swapData)
              (SwapData.dstImmutables Sample.swapData))
    as (_ & Ho & _ & Hh & _ & _ & _ & _ & Ht & _); [vm_compute; reflexivity |].
  repeat split; try assumption. vm_compute. discriminate.
Defined.

(** C9 as stated fails: for the order of [/api/create-order] the two
    sides have the same taker, the same amount and the same timelocks
    (deployedAt included); only the token differs. *)
Lemma sides_differ_in_token_only :
  let src := SwapData.srcImmutables Sample.swapData in
  let dst := SwapData.dstImmutables Sample.swapData in
  taker dst = taker src /\ amount dst = amount src /\ timelocks dst = timelocks src /\
  Timelocks.field 0 (timelocks dst) = Timelocks.field 0 (timelocks src) /\
  token dst <> token src.
Proof. vm_compute. repeat split; try reflexivity. discriminate. Qed.

(** ** The registry *)

Lemma get_after_create keep P cfg amb req s entry typedData :
  create_order_entry keep P cfg amb req = inr (entry, typedData) ->
  activeSwaps_get (SwapData.orderHash entry) (fst (create_order keep P cfg amb req s))
  = Some entry.
Proof.
  intros H. unfold create_order. rewrite H. unfold alloc, activeSwaps_set, activeSwaps_get.
  simpl. rewrite lookup_insert_eq. simpl. apply lookup_insert_eq.
Qed.

(** C8, as amended.  When [/api/create-order] succeeds, the registry maps
    the order hash to an object whose own properties are exactly the
    twelve (eleven in the plain server) of the literal: it holds the
    status [created], the secret, the hashlock and both immutables; the
    escrow addresses are not there yet (the orchestrator assigns them
    later), and there is no version counter and no leaf index. *)
Theorem registry_entry_layout keep P cfg amb req s s' swapId oh typedData approval :
  create_order keep P cfg amb req s = (s', OrderCreated swapId oh typedData approval) ->
  exists entry,
    activeSwaps_get swapId s' = Some entry /\
    SwapData.orderHash entry = swapId /\
    SwapData.status entry = "created" /\
    SwapData.secret entry = rand_secret amb /\
    SwapData.hashlock entry = keccak256 P (rand_secret amb) /\
    (exists raw,
        side_immutables raw SAFETY_DEPOSIT (now_ms amb / 1000)
          (req_userAddress req) (dstUSDC cfg) (SwapData.amount entry)
        = Some (SwapData.srcImmutables entry, SwapData.dstImmutables entry)) /\
    SwapData.srcEscrowAddress entry = None /\
    SwapData.dstEscrowAddress entry = None /\
    SwapData.own_keys entry =
      ["orderHash"; "secret"; "hashlock"; "amount"; "userAddress"; "srcImmutables";
       "dstImmutables"; "srcFactoryAddress"; "dstFactoryAddress"; "status"; "createdAt"]
      ++ (if keep then ["typedData"] else []) /\
    ~ In "version" (SwapData.own_keys entry).
Proof.
  intros H.
  destruct (create_order_entry keep P cfg amb req) as [message | [entry td]] eqn:E.
  { unfold create_order in H. rewrite E in H. discriminate. }
  pose proof (get_after_create keep P cfg amb req s entry td E) as Hget.
  unfold create_order in H, Hget. rewrite E in H, Hget.
  simpl in H, Hget. injection H as <- <- _ _ _.
  exists entry. split; [exact Hget |]. split; [reflexivity |].
  unfold create_order_entry in E.
  destruct (parseUnits P (req_amount req) 6) as [? | swapAmount]; [discriminate |].
  simpl in E.
  destruct (CrossChainOrder_new P _ _ _ _) as [? | order]; [discriminate |].
  simpl in E.
  match type of E with
  | context [side_immutables ?raw _ _ _ _ _] =>
      destruct (side_immutables raw SAFETY_DEPOSIT (now_ms amb / 1000) (req_userAddress req)
                  (dstUSDC cfg) swapAmount) as [[src dst] |] eqn:Hs;
      [| discriminate]
  end.
  simpl in E. injection E as <- _. simpl.
  repeat split; try reflexivity.
  - eexists. exact Hs.
  - destruct keep; reflexivity.
  - destruct keep; simpl; intuition discriminate.
Qed.

Lemma registry_entry_layout_witness :
  exists entry,
    activeSwaps_get "0x0d" Sample.store = Some entry /\
    SwapData.status entry = "created" /\
    ~ In "version" (SwapData.own_keys entry).
Proof.
  destruct (registry_entry_layout true Sample.platform Sample.cfg Sample.ambient
              Sample.request empty_store Sample.store "0x0d" "0x0d"
              (match SwapData.typedData Sample.swapData with
               | Some t => t
               | None => mkTypedData 0 "" "" 0 "" "" "" "" 0 0
               end)
              {| ap_tokenAddress := srcUSDC Sample.cfg; ap_spender := Sample.srcFactory;
                 ap_amount := 1000000 |})
    as (entry & Hget & _ & Hst & _ & _ & _ & _ & _ & _ & Hv); [vm_compute; reflexivity |].
  exists entry. auto.
Defined.

(** C8 as stated fails: the entry that [/api/create-order] stores for the
    sample order has twelve properties; neither escrow address is among
    them, and no version counter either. *)
Lemma registry_entry_has_no_version_counter :
  SwapData.own_keys Sample.swapData =
    ["orderHash"; "secret"; "hashlock"; "amount"; "userAddress"; "srcImmutables";
     "dstImmutables"; "srcFactoryAddress"; "dstFactoryAddress"; "status"; "createdAt";
     "typedData"] /\
  activeSwaps_get "0x0d" Sample.store = Some Sample.swapData /\
  SwapData.srcEscrowAddress Sample.swapData = None /\
  SwapData.dstEscrowAddress Sample.swapData = None /\
  existsb (String.eqb "version") (SwapData.own_keys Sample.swapData) = false.
Proof. vm_compute. repeat split; reflexivity. Qed.

(** ** The status query *)

(** C7, as amended.  For a swap stored under [swapId], the status query
    answers with the stored status and with the two escrow addresses, each
    of them from the moment the orchestrator assigns it to the swap object
    ([null] before); the answer does not depend on the error message
    stored with a failed swap, which it does not carry. *)
Theorem status_query_answer swapId ref d s :
  activeSwaps s !! swapId = Some ref -> heap s !! ref = Some d ->
  swap_status swapId s
  = SwapStatus (SwapData.status d) swapId
      {| st_amount := Format.formatUnits (SwapData.amount d) 6;
         st_userAddress := SwapData.userAddress d;
         st_createdAt := SwapData.createdAt d;
         st_srcEscrowAddress := or_null (SwapData.srcEscrowAddress d);
         st_dstEscrowAddress := or_null (SwapData.dstEscrowAddress d) |} /\
  (forall a, a <> "" ->
     exists st id details,
       swap_status swapId (mutate ref (SwapData.set_dstEscrowAddress a) s)
       = SwapStatus st id details /\ st_dstEscrowAddress details = Some a) /\
  (forall a, a <> "" ->
     exists st id details,
       swap_status swapId (mutate ref (SwapData.set_srcEscrowAddress a) s)
       = SwapStatus st id details /\ st_srcEscrowAddress details = Some a) /\
  (forall message,
     swap_status swapId (mutate ref (SwapData.set_error message) s) = swap_status swapId s).
Proof.
  intros Hmap Hheap.
  assert (Hget : forall f, activeSwaps_get swapId (mutate ref f s) = Some (f d)).
  { intros f. unfold activeSwaps_get, mutate. simpl. rewrite Hmap. simpl.
    rewrite lookup_alter, decide_True by reflexivity. rewrite Hheap. reflexivity. }
  assert (Hget0 : activeSwaps_get swapId s = Some d).
  { unfold activeSwaps_get. rewrite Hmap. simpl. exact Hheap. }
  assert (Hnull : forall a, a <> "" -> or_null (Some a) = Some a).
  { intros a Ha. unfold or_null. destruct (String.eqb_spec a ""); [contradiction | reflexivity]. }
  unfold swap_status. rewrite Hget0. split; [reflexivity |].
  split; [| split].
  - intros a Ha. rewrite Hget. do 3 eexists. split; [reflexivity |]. cbn -[or_null]. auto.
  - intros a Ha. rewrite Hget. do 3 eexists. split; [reflexivity |]. cbn -[or_null]. auto.
  - intros message. rewrite Hget. reflexivity.
Qed.

Lemma status_query_answer_witness :
  swap_status "0x0d" Sample.store
  = SwapStatus "created" "0x0d"
      {| st_amount := "1.0"; st_userAddress := Sample.user; st_createdAt := 1700000000001;
         st_srcEscrowAddress := None; st_dstEscrowAddress := None |}.
Proof.
  destruct (status_query_answer "0x0d" 0 Sample.swapData Sample.store) as (H & _);
    [vm_compute; reflexivity | vm_compute; reflexivity |].
  rewrite H. vm_compute. reflexivity.
Defined.

(** C7 as stated fails: after the gas-aware server has failed on the
    unfunded ledger, the swap object holds the error message, and the
    status query answers [failed] with both escrow addresses and nothing
    else; a swap that failed with another message gets the same answer. *)
Lemma status_answer_omits_the_error :
  let failed := final (run Sample.unfunded_ledger 0
                         (Server2.executeSwapAsync Sample.cfg 0 Sample.swapData)
                         Sample.store) in
  let other := mutate 0 (SwapData.set_error "Failed to approve USDC on source chain: gas")
                 failed in
  error_of 0 failed = Some "Funds not properly locked in escrow contracts" /\
  error_of 0 other = Some "Failed to approve USDC on source chain: gas" /\
  swap_status "0x0d" failed
  = SwapStatus "failed" "0x0d"
      {| st_amount := "1.0"; st_userAddress := Sample.user; st_createdAt := 1700000000001;
         st_srcEscrowAddress := Some Sample.srcEscrow;
         st_dstEscrowAddress := Some Sample.dstEscrow |} /\
  swap_status "0x0d" other = swap_status "0x0d" failed.
Proof. vm_compute. repeat split; reflexivity. Qed.

(** ** Runs on the sample ledgers *)

Lemma has_status_of ref v s : status_of ref s = Some v -> has_status ref v s.
Proof.
  unfold status_of, has_status. destruct (heap s !! ref) as [d |]; simpl; [| discriminate].
  intros [= <-]. eauto.
Qed.

Lemma is_allowance_call_eq tok owner spender c :
  is_allowance_call tok owner spender c = true -> c = allowance_call tok owner spender.
Proof.
  destruct c as [ch t m args | | | | | | | | | |]; try discriminate.
  destruct ch; try discriminate.
  destruct args as [| [o | | | |] [| [p | | | |] [|]]]; try discriminate.
  simpl. rewrite !andb_true_iff. intros [[[Ht Hm] Ho] Hp].
  apply String.eqb_eq in Ht, Hm, Ho, Hp. subst. reflexivity.
Qed.

Lemma allowance_call_found tok owner spender calls :
  existsb (is_allowance_call tok owner spender) calls = true ->
  In (allowance_call tok owner spender) calls.
Proof.
  intros H. apply existsb_exists in H. destruct H as (c & Hin & Hc).
  apply is_allowance_call_eq in Hc. now subst.
Qed.

Lemma allowance_below_spec tok owner spender amt tr :
  allowance_below tok owner spender amt tr = true ->
  forall z, In (allowance_entry tok owner spender z) tr -> z < amt.
Proof.
  unfold allowance_below. intros H z Hin.
  rewrite forallb_forall in H. specialize (H _ Hin).
  unfold allowance_entry, allowance_call in H. simpl in H.
  rewrite !String.eqb_refl in H. simpl in H. now apply Z.ltb_lt.
Qed.

(** The run of the gas-aware server on the ledger where the maker never
    grants the allowance: sixty reads of the allowance, then the failure. *)
Lemma authorization_timeout_witness :
  let r := run Sample.unapproved_ledger 0
             (Server2.executeSwapAsync Sample.cfg 0 Sample.swapData) Sample.store in
  length (filter (is_allowance_call (srcUSDC Sample.cfg) Sample.user (srcRelayer Sample.cfg))
            (calls_of (trace r))) = 60%nat /\
  allowance_below (srcUSDC Sample.cfg) Sample.user (srcRelayer Sample.cfg) 1000000 (trace r)
  = true /\
  has_status 0 "failed" (final r) /\
  has_error 0 Server2.TIMEOUT (final r) /\
  Forall reveals_nothing (calls_of (trace r)).
Proof.
  intros r. split; [vm_compute; reflexivity |]. split; [vm_compute; reflexivity |].
  cut (has_status 0 "failed" (final r) /\ has_error 0 Server2.TIMEOUT (final r) /\
       (exists setup,
           calls_of (trace r)
           = setup ++ polling_window
                        (allowance_call (srcUSDC Sample.cfg)
                           (SwapData.userAddress Sample.swapData) (srcRelayer Sample.cfg)) 60 /\
           Forall (fun c => chain_of c <> Some Src) setup) /\
       Forall reveals_nothing (calls_of (trace r))); [tauto |].
  apply (authorization_timeout Sample.cfg 0 Sample.swapData Sample.store
           (trace r) (final r) (outcome r)).
  - eexists. vm_compute. reflexivity.
  - apply run_exec.
  - apply allowance_call_found. vm_compute. reflexivity.
  - apply allowance_below_spec. vm_compute. reflexivity.
Defined.

(** The run of the gas-aware server on the ledger where every call
    succeeds. *)
Lemma source_withdrawal_first_in_servers_witness :
  let r := run Sample.happy_ledger 0
             (Server2.executeSwapAsync Sample.cfg 0 Sample.swapData) Sample.store in
  status_of 0 (final r) = Some "completed" /\
  exists src dst ov1 tx1 rc1 ov2 tx2 rc2,
    [sent_entry Src src "withdraw"
       (withdraw_args (SwapData.secret Sample.swapData)
          (SwapData.srcImmutables Sample.swapData)) ov1 tx1;
     waited_entry Src tx1 rc1;
     sent_entry Dst dst "withdraw"
       (withdraw_args (SwapData.secret Sample.swapData)
          (SwapData.dstImmutables Sample.swapData)) ov2 tx2;
     waited_entry Dst tx2 rc2] `sublist_of` trace r.
Proof.
  intros r. split; [vm_compute; reflexivity |].
  apply (source_withdrawal_first_in_servers Sample.cfg 0 Sample.swapData Sample.store
           (trace r) (final r) (outcome r)).
  - right. apply run_exec.
  - apply has_status_of. vm_compute. reflexivity.
Defined.

(** * Further properties of the code *)

(** ** The stamping expression, bit by bit *)

(** X1.  Whatever the word is (negative or wider than 256 bits included),
    stamping it with a timestamp below [2^32] gives a number between 0
    and [2^248]: its low 32 bits are those of the timestamp, its bits 32
    to 247 are those of the word, and every bit from 248 on is cleared. *)
Theorem stamped_word_bits (t d : Z) :
  0 <= d < 2 ^ 32 ->
  0 <= Timelocks.setDeployedAt t d < 2 ^ 248 /\
  forall n, 0 <= n ->
    Z.testbit (Timelocks.setDeployedAt t d) n =
      if n <? 32 then Z.testbit d n
      else if n <? 248 then Z.testbit t n else false.
Proof.
  intros Hd.
  assert (Hbits : forall n, 0 <= n ->
            Z.testbit (Timelocks.setDeployedAt t d) n =
              if n <? 32 then Z.testbit d n
              else if n <? 248 then Z.testbit t n else false).
  { intros n Hn. unfold Timelocks.setDeployedAt.
    rewrite Z.lor_spec, Z.land_spec, TimelocksFacts.mask_bits by lia.
    destruct (Z.ltb_spec n 32) as [Hlt | Hge].
    - replace (32 <=? n) with false by (symmetry; apply Z.leb_gt; lia).
      simpl. now rewrite andb_false_r.
    - rewrite (TimelocksFacts.small_bits d n) by lia.
      replace (32 <=? n) with true by (symmetry; apply Z.leb_le; lia).
      rewrite orb_false_r. simpl.
      destruct (n <? 248); [apply andb_true_r | apply andb_false_r]. }
  split; [| exact Hbits].
  assert (Hnonneg : 0 <= Timelocks.setDeployedAt t d).
  { unfold Timelocks.setDeployedAt. apply Z.lor_nonneg. split; [| lia].
    apply Z.land_nonneg. right. unfold Timelocks.DEPLOYED_AT_MASK. lia. }
  split; [exact Hnonneg |].
  assert (E : Timelocks.setDeployedAt t d
              = Z.land (Timelocks.setDeployedAt t d) (Z.ones 248)).
  { apply Z.bits_inj'. intros n Hn. rewrite Z.land_spec, Hbits by lia.
    destruct (Z.ltb_spec n 32).
    - rewrite Z.ones_spec_low by lia. now rewrite andb_true_r.
    - destruct (Z.ltb_spec n 248).
      + rewrite Z.ones_spec_low by lia. now rewrite andb_true_r.
      + reflexivity. }
  rewrite E, Z.land_ones by lia. apply Z.mod_pos_bound. lia.
Qed.

Lemma stamped_word_bits_witness :
  0 <= Timelocks.setDeployedAt (- 1) 1700000000 < 2 ^ 248 /\
  Z.testbit (Timelocks.setDeployedAt (- 1) 1700000000) 247 = true /\
  Z.testbit (Timelocks.setDeployedAt (- 1) 1700000000) 248 = false.
Proof.
  destruct (stamped_word_bits (- 1) 1700000000) as [Hr Hb]; [lia |].
  split; [exact Hr |].
  split; [rewrite (Hb 247) | rewrite (Hb 248)]; try lia; reflexivity.
Defined.

(** X2.  Stamping a stamped word again replaces the timestamp and changes
    nothing else: the result is the one of stamping the original word
    with the second timestamp (the first one being below [2^32]). *)
Theorem restamping_replaces_the_timestamp (t d1 d2 : Z) :
  0 <= d1 < 2 ^ 32 ->
  Timelocks.setDeployedAt (Timelocks.setDeployedAt t d1) d2 = Timelocks.setDeployedAt t d2.
Proof.
  intros H1. apply Z.bits_inj'. intros n Hn. unfold Timelocks.setDeployedAt.
  rewrite !Z.lor_spec, !Z.land_spec, Z.lor_spec, Z.land_spec, TimelocksFacts.mask_bits by lia.
  destruct (Z.leb_spec 32 n) as [Hle | Hlt]; simpl.
  - rewrite (TimelocksFacts.small_bits d1 n) by lia.
    rewrite orb_false_r. now rewrite <- andb_assoc, andb_diag.
  - now rewrite !andb_false_r.
Qed.

Lemma restamping_replaces_the_timestamp_witness :
  Timelocks.setDeployedAt (Timelocks.setDeployedAt Sample.offsets 1700000000) 1700000100
  = Timelocks.setDeployedAt Sample.offsets 1700000100.
Proof. apply (restamping_replaces_the_timestamp Sample.offsets 1700000000 1700000100). lia. Defined.

(** ** [/api/create-order] and the rest of the registry *)

Lemma store_wf_empty : store_wf empty_store.
Proof.
  split.
  - intros key ref H. unfold empty_store in H. simpl in H. rewrite lookup_empty in H.
    discriminate.
  - intros ref [d H]. unfold empty_store in H. simpl in H. rewrite lookup_empty in H.
    discriminate.
Qed.

Lemma store_wf_fresh s : store_wf s -> heap s !! next_ref s = None.
Proof.
  intros [_ Hb]. destruct (heap s !! next_ref s) eqn:E; [| reflexivity].
  assert (next_ref s < next_ref s)%nat by (apply Hb; eauto). lia.
Qed.

(** X3.  On a well-formed registry, [/api/create-order] leaves a
    well-formed registry; when it fails it leaves the registry as it was,
    and when it succeeds every swap stored under another key than the new
    order hash is read as before. *)
Theorem create_order_touches_one_key keep P cfg amb req s :
  store_wf s ->
  store_wf (fst (create_order keep P cfg amb req s)) /\
  match snd (create_order keep P cfg amb req s) with
  | OrderFailed _ => fst (create_order keep P cfg amb req s) = s
  | OrderCreated swapId _ _ _ =>
      forall key, key <> swapId ->
        activeSwaps_get key (fst (create_order keep P cfg amb req s)) = activeSwaps_get key s
  end.
Proof.
  intros Hwf. pose proof (store_wf_fresh s Hwf) as Hfresh. destruct Hwf as [Ha Hb].
  unfold create_order.
  destruct (create_order_entry keep P cfg amb req) as [message | [entry td]]; simpl.
  { split; [split; assumption | reflexivity]. }
  split.
  - split.
    + intros key ref. unfold activeSwaps_set, alloc; simpl.
      destruct (decide (key = SwapData.orderHash entry)) as [-> | Hne].
      * rewrite lookup_insert_eq. intros [= <-]. rewrite lookup_insert_eq. eauto.
      * rewrite lookup_insert_ne by congruence. intros H.
        destruct (decide (ref = next_ref s)) as [-> | Hr].
        -- rewrite lookup_insert_eq. eauto.
        -- rewrite lookup_insert_ne by congruence. eauto.
    + intros ref. unfold activeSwaps_set, alloc; simpl.
      destruct (decide (ref = next_ref s)) as [-> | Hr].
      * intros _. lia.
      * rewrite lookup_insert_ne by congruence. intros H. specialize (Hb ref H). lia.
  - intros key Hkey. unfold activeSwaps_get, activeSwaps_set, alloc; simpl.
    rewrite lookup_insert_ne by congruence.
    destruct (activeSwaps s !! key) as [ref |] eqn:E; simpl; [| reflexivity].
    rewrite lookup_insert_ne; [reflexivity |].
    intros <-. destruct (Ha key _ E) as [d Hd]. congruence.
Qed.

Lemma create_order_touches_one_key_witness :
  store_wf Sample.store /\
  forall key, key <> "0x0d" -> activeSwaps_get key Sample.store = None.
Proof.
  pose proof (create_order_touches_one_key true Sample.platform Sample.cfg Sample.ambient
                Sample.request empty_store store_wf_empty) as [Hwf Hkeys].
  split; [exact Hwf |].
  intros key Hkey. exact (Hkeys key Hkey).
Defined.

(** X4.  The answer of [/api/create-order] depends on the secret through
    its hash only: with another secret of the same hash, and everything
    else equal, the handler gives the same answer (swap id, order hash,
    typed data, approval data, or error). *)
Theorem create_order_answer_hides_the_secret keep P cfg amb req s x :
  keccak256 P x = keccak256 P (rand_secret amb) ->
  snd (create_order keep P cfg (with_secret x amb) req s)
  = snd (create_order keep P cfg amb req s).
Proof.
  intros Hx. unfold create_order, create_order_entry, with_secret; simpl. rewrite Hx.
  destruct (parseUnits P (req_amount req) 6) as [? | swapAmount]; simpl; [reflexivity |].
  destruct (CrossChainOrder_new P _ _ _ _) as [? | order]; simpl; [reflexivity |].
  destruct (side_immutables _ _ _ _ _ _) as [[src dst] |]; simpl; reflexivity.
Qed.

Lemma create_order_answer_hides_the_secret_witness :
  keccak256 SampleSubmit.short_hash "0x5ffff" = keccak256 SampleSubmit.short_hash "0x5ec2e7" /\
  snd (create_order true SampleSubmit.short_hash Sample.cfg
         (with_secret "0x5ffff" Sample.ambient) Sample.request empty_store)
  = snd (create_order true SampleSubmit.short_hash Sample.cfg Sample.ambient Sample.request
           empty_store).
Proof.
  split; [reflexivity |].
  apply (create_order_answer_hides_the_secret true SampleSubmit.short_hash Sample.cfg
           Sample.ambient Sample.request empty_store "0x5ffff").
  reflexivity.
Defined.

(** ** [/api/submit-signed-message] *)

(** X5.  In both servers a submission that is not accepted (unknown swap,
    another user, a signature that cannot be verified or that somebody
    else made) changes nothing in the registry and starts no
    orchestration; an accepted one answers with the swap id of the
    request and starts the orchestration on the object stored under it. *)
Theorem rejected_submission_changes_nothing payload executeSwapAsync verifyTypedData req s :
  match sub_response (submit_signed_message payload executeSwapAsync verifyTypedData req s) with
  | SubmitRejected code _ =>
      sub_store (submit_signed_message payload executeSwapAsync verifyTypedData req s) = s /\
      sub_started (submit_signed_message payload executeSwapAsync verifyTypedData req s)
      = None /\
      (code = 404 \/ code = 403 \/ code = 400)
  | SubmitAccepted swapId =>
      swapId = sub_swapId req /\
      exists ref,
        sub_started (submit_signed_message payload executeSwapAsync verifyTypedData req s)
        = Some ref /\
        activeSwaps s !! swapId = Some ref
  end.
Proof.
  unfold submit_signed_message.
  destruct (activeSwaps s !! sub_swapId req) as [ref |] eqn:Hk; simpl; [| auto].
  destruct (heap s !! ref) as [d |]; simpl; [| auto].
  destruct (negb _); simpl; [auto |].
  destruct (bindR _ _) as [? | recovered]; simpl; [auto |].
  destruct (negb _); simpl; [auto |].
  split; [reflexivity |]. exists ref. auto.
Qed.

Lemma toLowerCase_eqb a b :
  negb (String.eqb (toLowerCase a) (toLowerCase b)) = false <-> toLowerCase a = toLowerCase b.
Proof.
  rewrite negb_false_iff. apply String.eqb_eq.
Qed.

(** X6.  The gas-aware server accepts a submission exactly when the swap
    is in the registry, the address of the request is the one of the
    stored swap up to the case of its letters, and the signature
    verifies, against the typed data stored with the swap by
    [/api/create-order], to that same address up to case. *)
Theorem gas_aware_submission_accepted_iff cfg verifyTypedData req s :
  sub_response (submit_gas_aware cfg verifyTypedData req s) = SubmitAccepted (sub_swapId req) <->
  exists swapData typedData signer,
    activeSwaps_get (sub_swapId req) s = Some swapData /\
    toLowerCase (sub_userAddress req) = toLowerCase (SwapData.userAddress swapData) /\
    SwapData.typedData swapData = Some typedData /\
    verifyTypedData typedData (sub_signature req) = inr signer /\
    toLowerCase signer = toLowerCase (SwapData.userAddress swapData).
Proof.
  unfold submit_gas_aware, submit_signed_message, activeSwaps_get, stored_typed_data.
  destruct (activeSwaps s !! sub_swapId req) as [ref |]; simpl.
  2:{ split; [discriminate | intros (d & ? & ? & H & _); discriminate]. }
  destruct (heap s !! ref) as [d |]; simpl.
  2:{ split; [discriminate | intros (d & ? & ? & H & _); discriminate]. }
  destruct (negb (String.eqb (toLowerCase (SwapData.userAddress d))
                             (toLowerCase (sub_userAddress req)))) eqn:Hu; simpl.
  { split; [discriminate |]. intros (d' & td & signer & [= <-] & Hreq & _).
    apply negb_true_iff, String.eqb_neq in Hu. congruence. }
  apply toLowerCase_eqb in Hu.
  destruct (SwapData.typedData d) as [td |] eqn:Htd; simpl.
  2:{ split; [discriminate | intros (d' & ? & ? & [= <-] & _ & H & _); congruence]. }
  destruct (verifyTypedData td (sub_signature req)) as [m | signer] eqn:Hv; simpl.
  { split; [discriminate |].
    intros (d' & td' & signer & [= <-] & _ & H1 & H & _). congruence. }
  destruct (negb (String.eqb (toLowerCase signer) (toLowerCase (sub_userAddress req))))
    eqn:Hs; simpl.
  { split; [discriminate |].
    intros (d' & td' & signer' & [= <-] & _ & H1 & H & Hl).
    apply negb_true_iff, String.eqb_neq in Hs. congruence. }
  apply toLowerCase_eqb in Hs. split; [| reflexivity].
  intros _. exists d, td, signer. repeat split; congruence.
Qed.


(** The first updates of the two orchestrations: both write the status
    [approving_dst] and set the registry entry of the order hash before
    their first [await]. *)
Lemma sync_prefix_of_the_orchestrations cfg ref swapData s :
  sync_prefix (Server1.executeSwapAsync cfg ref swapData) s
  = activeSwaps_set (SwapData.orderHash swapData) ref
      (mutate ref (SwapData.set_status "approving_dst") s) /\
  sync_prefix (Server2.executeSwapAsync cfg ref swapData) s
  = activeSwaps_set (SwapData.orderHash swapData) ref
      (mutate ref (SwapData.set_status "approving_dst") s).
Proof. split; reflexivity. Qed.

(** X8.  When the answer to an accepted submission is sent, the swap
    stored under the id of the request carries the signature, its other
    properties but the status are as before, and its status is
    [approving_dst], not [signature_received]: the handler calls
    [executeSwapAsync] before it answers, and the orchestration writes
    its first status before its first [await].  So the status query
    answers [approving_dst] at once, and no request finds the status
    [signature_received] in the registry this request leaves. *)
Theorem accepted_submission_is_recorded cfg amb verifyTypedData req s r :
  r = submit_plain cfg amb verifyTypedData req s \/
  r = submit_gas_aware cfg verifyTypedData req s ->
  sub_response r = SubmitAccepted (sub_swapId req) ->
  exists swapData,
    activeSwaps_get (sub_swapId req) s = Some swapData /\
    activeSwaps_get (sub_swapId req) (sub_store r)
    = Some (set_signature (sub_signature req)
              (SwapData.set_status "approving_dst" swapData)) /\
    swap_status (sub_swapId req) (sub_store r)
    = SwapStatus "approving_dst" (sub_swapId req)
        {| st_amount := Format.formatUnits (SwapData.amount swapData) 6;
           st_userAddress := SwapData.userAddress swapData;
           st_createdAt := SwapData.createdAt swapData;
           st_srcEscrowAddress := or_null (SwapData.srcEscrowAddress swapData);
           st_dstEscrowAddress := or_null (SwapData.dstEscrowAddress swapData) |}.
Proof.
  assert (G : forall payload run,
            (forall ref d s0,
                sync_prefix (run ref d) s0
                = activeSwaps_set (SwapData.orderHash d) ref
                    (mutate ref (SwapData.set_status "approving_dst") s0)) ->
            let r := submit_signed_message payload run verifyTypedData req s in
            sub_response r = SubmitAccepted (sub_swapId req) ->
            exists swapData,
              activeSwaps_get (sub_swapId req) s = Some swapData /\
              activeSwaps_get (sub_swapId req) (sub_store r)
              = Some (set_signature (sub_signature req)
                        (SwapData.set_status "approving_dst" swapData))).
  { intros payload run Hrun. unfold submit_signed_message, activeSwaps_get.
    destruct (activeSwaps s !! sub_swapId req) as [ref |] eqn:Hk; simpl; [| discriminate].
    destruct (heap s !! ref) as [d |] eqn:Hd; simpl; [| discriminate].
    destruct (negb _); simpl; [discriminate |].
    destruct (bindR _ _) as [? | recovered]; simpl; [discriminate |].
    destruct (negb _); simpl; [discriminate |].
    intros _. exists d. split; [reflexivity |].
    rewrite Hrun. unfold activeSwaps_set, mutate; simpl.
    assert (Hkey : forall key : string,
               <[key := ref]> (<[sub_swapId req := ref]> (activeSwaps s)) !! sub_swapId req
               = Some ref).
    { intros key. destruct (decide (key = sub_swapId req)) as [-> | Hne].
      - apply lookup_insert_eq.
      - rewrite lookup_insert_ne by exact Hne. apply lookup_insert_eq. }
    rewrite Hkey. simpl.
    rewrite !lookup_alter, !decide_True by reflexivity. rewrite Hd. simpl.
    destruct d; reflexivity. }
  intros Hr Hacc.
  assert (H : exists swapData,
             activeSwaps_get (sub_swapId req) s = Some swapData /\
             activeSwaps_get (sub_swapId req) (sub_store r)
             = Some (set_signature (sub_signature req)
                       (SwapData.set_status "approving_dst" swapData))).
  { destruct Hr as [-> | ->].
    - apply (G _ (Server1.executeSwapAsync cfg)); [| exact Hacc].
      intros ref d s0. apply (sync_prefix_of_the_orchestrations cfg ref d s0).
    - apply (G _ (Server2.executeSwapAsync cfg)); [| exact Hacc].
      intros ref d s0. apply (sync_prefix_of_the_orchestrations cfg ref d s0). }
  destruct H as (d & Hget & Hget'). exists d.
  split; [exact Hget |]. split; [exact Hget' |].
  unfold swap_status. rewrite Hget'. destruct d; reflexivity.
Qed.

Lemma accepted_submission_is_recorded_witness :
  let r := submit_gas_aware Sample.cfg SampleSubmit.verify SampleSubmit.request Sample.store in
  sub_response r = SubmitAccepted "0x0d" /\
  sub_started r = Some 0%nat /\
  swap_status "0x0d" (sub_store r)
  = SwapStatus "approving_dst" "0x0d"
      {| st_amount := "1.0"; st_userAddress := Sample.user; st_createdAt := 1700000000001;
         st_srcEscrowAddress := None; st_dstEscrowAddress := None |}.
Proof.
  intros r. split; [vm_compute; reflexivity |]. split; [vm_compute; reflexivity |].
  destruct (accepted_submission_is_recorded Sample.cfg SampleSubmit.ambient SampleSubmit.verify
              SampleSubmit.request Sample.store r) as (d & Hd & _ & Hs);
    [right; reflexivity | vm_compute; reflexivity |].
  assert (E : Some Sample.swapData = Some d) by (rewrite <- Hd; vm_compute; reflexivity).
  injection E as <-. refine (eq_trans Hs _). vm_compute. reflexivity.
Defined.

(** X9.  The typed data [/api/create-order] hands to the client is the
    one the gas-aware server keeps and verifies the signature against.
    The plain server keeps none and verifies against typed data built
    again at the submission: they are the ones handed out only when the
    submission falls in the same second as the creation of the order and
    draws the same random nonce. *)
Theorem typed_data_verified_against keep P cfg amb req s s' swapId oh typedData approval amb' :
  create_order keep P cfg amb req s = (s', OrderCreated swapId oh typedData approval) ->
  exists swapData,
    activeSwaps_get swapId s' = Some swapData /\
    (keep = true -> stored_typed_data swapData = inr typedData) /\
    (rebuilt_typed_data cfg amb' swapData = typedData <->
     now_ms amb' / 1000 = now_ms amb / 1000 /\
     rand_message_nonce amb' = rand_message_nonce amb).
Proof.
  intros H.
  destruct (create_order_entry keep P cfg amb req) as [message | [entry td]] eqn:E.
  { unfold create_order in H. rewrite E in H. discriminate. }
  pose proof (get_after_create keep P cfg amb req s entry td E) as Hget.
  unfold create_order in H, Hget. rewrite E in H, Hget.
  simpl in H, Hget. injection H as <- <- _ <- _.
  exists entry. split; [exact Hget |].
  unfold create_order_entry in E.
  destruct (parseUnits P (req_amount req) 6) as [? | swapAmount]; [discriminate |].
  simpl in E.
  destruct (CrossChainOrder_new P _ _ _ _) as [? | order]; [discriminate |].
  simpl in E.
  destruct (side_immutables _ _ _ _ _ _) as [[src dst] |]; [| discriminate].
  simpl in E. injection E as <- <-.
  split.
  - intros ->. reflexivity.
  - unfold rebuilt_typed_data; simpl. split.
    + intros [= Ht Hn]. auto.
    + intros [-> ->]. reflexivity.
Qed.

Lemma typed_data_verified_against_witness :
  exists swapData,
    activeSwaps_get "0x0d" Sample.store = Some swapData /\
    SwapData.typedData swapData <> None /\
    Some (rebuilt_typed_data Sample.cfg SampleSubmit.ambient swapData)
    <> SwapData.typedData swapData.
Proof.
  destruct (typed_data_verified_against true Sample.platform Sample.cfg Sample.ambient
              Sample.request empty_store Sample.store "0x0d" "0x0d"
              {| td_chainId := 11155111; td_verifyingContract := Sample.srcFactory;
                 td_userAddress := Sample.user; td_amount := 1000000;
                 td_srcFactoryAddress := Sample.srcFactory;
                 td_dstFactoryAddress := Sample.dstFactory;
                 td_hashlock := "0xha50x5ec2e7"; td_orderHash := "0x0d";
                 td_timestamp := 1700000000; td_nonce := 123456 |}
              {| ap_tokenAddress := srcUSDC Sample.cfg; ap_spender := Sample.srcFactory;
                 ap_amount := 1000000 |} SampleSubmit.ambient)
    as (d & Hget & Hkeep & Hiff); [vm_compute; reflexivity |].
  exists d. split; [exact Hget |].
  specialize (Hkeep eq_refl). unfold stored_typed_data in Hkeep.
  destruct (SwapData.typedData d) as [td |]; [| discriminate].
  cbn [of_option] in Hkeep. injection Hkeep as Htd.
  split; [discriminate |].
  intros [= Heq]. rewrite Htd in Heq. apply Hiff in Heq. destruct Heq as [Ht _].
  vm_compute in Ht. discriminate.
Defined.

(** ** Budgets and programs that never throw *)

Section BudgetFacts.
Context {St : Type}.
Variable cost : Call -> Z.

Lemma run_within_exec {A} (p : Prog St A) b Q E (s s' : St) tr o :
  run_within cost p b Q E -> exec p s tr s' o ->
  match o with
  | inr a => Q (b - spent cost tr) a
  | inl m => E (b - spent cost tr) m
  end.
Proof.
  revert b s tr. induction p as [a | m | c k IH | g k IH]; intros b s tr; simpl.
  - intros HQ (-> & _ & ->). simpl. now rewrite Z.sub_0_r.
  - intros HE (-> & _ & ->). simpl. now rewrite Z.sub_0_r.
  - intros Hk (r & tr' & -> & H). specialize (IH r _ _ _ (Hk r) H). simpl.
    replace (b - (cost c + spent cost tr')) with (b - cost c - spent cost tr') by lia.
    exact IH.
  - intros Hk H. exact (IH _ _ _ Hk H).
Qed.

Lemma within_exec {A} (p : Prog St A) b (s s' : St) tr o :
  within cost b p -> exec p s tr s' o -> spent cost tr <= b.
Proof.
  intros Hw H. pose proof (run_within_exec p b _ _ s s' tr o Hw H) as Hr.
  destruct o; lia.
Qed.

Lemma run_within_bind {A B} (p : Prog St A) (f : A -> Prog St B) b Q E :
  run_within cost p b (fun left a => run_within cost (f a) left Q E) E ->
  run_within cost (bind p f) b Q E.
Proof.
  revert b. induction p as [a | m | c k IH | g k IH]; intros b; simpl; auto.
Qed.

Lemma run_within_try_catch {A} (p : Prog St A) (h : string -> Prog St A) b Q E :
  run_within cost p b Q (fun left m => run_within cost (h m) left Q E) ->
  run_within cost (try_catch p h) b Q E.
Proof.
  revert b. induction p as [a | m | c k IH | g k IH]; intros b; simpl; auto.
Qed.

(** A part of the program whose own budget is known. *)
Lemma run_within_cut {A} n (p : Prog St A) b (Q : Z -> A -> Prop) E :
  within cost n p ->
  (forall left a, b - n <= left -> Q left a) ->
  (forall left m, b - n <= left -> E left m) ->
  run_within cost p b Q E.
Proof.
  unfold within. revert n b. induction p as [a | m | c k IH | g k IH]; intros n b; simpl.
  - intros Hn HQ _. apply HQ. lia.
  - intros Hn _ HE. apply HE. lia.
  - intros Hk HQ HE r. apply (IH r (n - cost c)); [apply Hk | |];
      intros left x Hl; [apply HQ | apply HE]; lia.
  - intros Hk HQ HE. exact (IH n b Hk HQ HE).
Qed.

Lemma within_poll n tok owner spender amt :
  0 <= cost (allowance_call tok owner spender) -> 0 <= cost (Sleep 5000) ->
  within cost (Z.of_nat n * (cost (allowance_call tok owner spender) + cost (Sleep 5000)))
    (poll_approval (St := St) n tok owner spender amt).
Proof.
  intros Ha Hs. unfold within. induction n as [| n IH]; [simpl; lia |].
  cbn [poll_approval run_within]. fold (allowance_call tok owner spender).
  assert (Hretry : run_within cost
                     (sleep (St := St) 5000 ;;; poll_approval n tok owner spender amt)
                     (Z.of_nat (S n) * (cost (allowance_call tok owner spender)
                                        + cost (Sleep 5000))
                      - cost (allowance_call tok owner spender))
                     (fun left _ => 0 <= left) (fun left _ => 0 <= left)).
  { cbn [sleep bind run_within]. intros _.
    match goal with
    | |- run_within _ _ ?b _ _ =>
        replace b with (Z.of_nat n * (cost (allowance_call tok owner spender)
                                      + cost (Sleep 5000))) by lia
    end.
    exact IH. }
  intros [m | z]; [exact Hretry |].
  destruct (z >=? amt); [| exact Hretry].
  cbn [run_within]. nia.
Qed.

Lemma never_throws_exec {A} (p : Prog St A) (s s' : St) tr m :
  never_throws p -> exec p s tr s' (inl m) -> False.
Proof.
  revert s tr. induction p as [a | m' | c k IH | g k IH]; intros s tr; simpl.
  - intros _ (_ & _ & E). discriminate.
  - intros [].
  - intros Hk (r & tr' & -> & H). exact (IH r _ _ (Hk r) H).
  - intros Hk H. exact (IH _ _ Hk H).
Qed.

Lemma never_throws_bind {A B} (p : Prog St A) (f : A -> Prog St B) :
  never_throws p -> (forall a, never_throws (f a)) -> never_throws (bind p f).
Proof.
  intros Hp Hf. induction p as [a | m | c k IH | g k IH]; simpl in *; auto.
Qed.

(** A [try] whose [catch] cannot throw cannot throw. *)
Lemma never_throws_try_catch {A} (p : Prog St A) (h : string -> Prog St A) :
  (forall m, never_throws (h m)) -> never_throws (try_catch p h).
Proof.
  intros Hh. induction p as [a | m | c k IH | g k IH]; simpl in *; auto.
Qed.

End BudgetFacts.

Ltac budget_step :=
  lazymatch goal with
  | |- within _ _ _ => unfold within
  | |- run_within _ (bind _ _) _ _ _ => apply run_within_bind
  | |- run_within _ (try_catch _ _) _ _ _ => apply run_within_try_catch
  | |- run_within _ (Ret _) _ _ _ => cbn [run_within]; cbv beta
  | |- run_within _ (Throw _) _ _ _ => cbn [run_within]; cbv beta
  | |- run_within _ (Do _ _) _ _ _ => cbn [run_within]; intros ?
  | |- run_within _ (Upd _ _) _ _ _ => cbn [run_within]
  | |- run_within _ (lift ?r) _ _ _ => destruct r; cbn [lift]
  | |- run_within _ (if ?b then _ else _) _ _ _ => destruct b
  | |- run_within _ (match ?x with _ => _ end) _ _ _ => destruct x
  | |- run_within _ (let _ := _ in _) _ _ _ => cbv zeta
  | |- run_within _ _ _ _ _ => progress autounfold with calls
  | |- _ <= _ =>
      repeat match goal with H : _ <= _ |- _ => progress cbn in H end; cbn; lia
  end.

(** The polling loop, cut out with the budget [n]. *)
Ltac budget_poll n :=
  lazymatch goal with
  | |- run_within ?cost (poll_approval _ _ _ _ _) _ _ _ =>
      apply (run_within_cut cost n);
      [ exact (within_poll cost maxAttempts _ _ _ _ ltac:(cbn; lia) ltac:(cbn; lia))
      | intros ? ? ? | intros ? ? ? ]
  end.

Module Server2Budget.
Import Server2.
#[local] Hint Unfold set_status retry_or_fail approve_estimated approve_retry approve_dst
  record_dst_escrow create_dst_escrow wait_src_approval transfer_from_user approve_src
  record_src_escrow create_src_escrow verify_funds withdraw_from withdraw_src withdraw_dst
  transfer_to_user complete fail : calls.

Section Facts.
Variable cfg : Config.
Variable ref : nat.
Variable swapData : SwapData.t.
Variable cost : Call -> Z.

Lemma s2_find_src_within ls :
  (forall i, cost (ViewAddress Src (SwapData.srcFactoryAddress swapData)
                     "addressOfEscrowSrc" [ATuple i]) = 0) ->
  within cost 0 (find_src_escrow swapData ls).
Proof.
  intros Hc. unfold within. induction ls as [| l ls IH]; simpl; [lia |].
  destruct (parseLog l) as [p |]; [| exact IH].
  destruct (String.eqb _ _); [simpl; lia |].
  destruct (String.eqb _ _); [| exact IH].
  destruct (ev_srcImmutables p) as [i |]; [| exact IH].
  cbn [run_within]. rewrite Hc. intros [m | a]; [exact IH | simpl; lia].
Qed.

(** The budgets of the ten steps add up. *)
Lemma s2_budgets_add_up n1 n2 n3 n4 n5 n6 n7 n8 n9 n10 :
  within cost n1 (approve_dst cfg ref swapData) ->
  within cost n2 (create_dst_escrow cfg ref swapData) ->
  within cost n3 (wait_src_approval cfg ref swapData) ->
  within cost n4 (transfer_from_user cfg ref swapData) ->
  within cost n5 (approve_src cfg swapData) ->
  within cost n6 (create_src_escrow ref swapData) ->
  (forall src dst, within cost n7 (verify_funds cfg swapData src dst)) ->
  (forall src, within cost n8 (sleep 10000 ;;; withdraw_src cfg ref swapData src)) ->
  (forall dst, within cost n9 (withdraw_dst cfg ref swapData dst)) ->
  within cost n10 (transfer_to_user cfg swapData ;;; complete ref swapData) ->
  0 <= n1 -> 0 <= n2 -> 0 <= n3 -> 0 <= n4 -> 0 <= n5 -> 0 <= n6 -> 0 <= n7 -> 0 <= n8 ->
  0 <= n9 -> 0 <= n10 ->
  within cost (n1 + n2 + n3 + n4 + n5 + n6 + n7 + n8 + n9 + n10)
    (executeSwapAsync cfg ref swapData).
Proof.
  intros H1 H2 H3 H4 H5 H6 H7 H8 H9 H10 ? ? ? ? ? ? ? ? ? ?.
  assert (Hfail : forall left m, 0 <= left ->
            run_within cost (fail ref swapData m) left
              (fun left _ => 0 <= left) (fun left _ => 0 <= left)).
  { intros left m Hl. unfold fail, update. cbn [bind run_within]. exact Hl. }
  unfold within, executeSwapAsync. apply run_within_try_catch.
  unfold swap_body. apply run_within_bind. unfold lock_funds.
  apply run_within_bind. apply (run_within_cut cost n1); [exact H1 | | intros; apply Hfail; lia].
  intros left1 _ Hl1.
  apply run_within_bind. apply (run_within_cut cost n2); [exact H2 | | intros; apply Hfail; lia].
  intros left2 dst Hl2.
  apply run_within_bind. apply (run_within_cut cost n3); [exact H3 | | intros; apply Hfail; lia].
  intros left3 _ Hl3.
  apply run_within_bind. apply (run_within_cut cost n4); [exact H4 | | intros; apply Hfail; lia].
  intros left4 _ Hl4.
  apply run_within_bind. apply (run_within_cut cost n5); [exact H5 | | intros; apply Hfail; lia].
  intros left5 _ Hl5.
  apply run_within_bind. apply (run_within_cut cost n6); [exact H6 | | intros; apply Hfail; lia].
  intros left6 src Hl6. cbn [run_within fst snd].
  apply run_within_bind.
  apply (run_within_cut cost n7); [apply H7 | | intros; apply Hfail; lia].
  intros left7 _ Hl7. unfold release_funds.
  pose proof (H8 src) as H8'. unfold within in H8'.
  cbn [sleep bind run_within] in H8'. cbn [sleep bind run_within]. intros u.
  apply run_within_bind.
  apply (run_within_cut cost (n8 - cost (Sleep 10000)));
    [exact (H8' tt) | | intros; apply Hfail; lia].
  intros left8 _ Hl8.
  apply run_within_bind. apply (run_within_cut cost n9); [apply H9 | | intros; apply Hfail; lia].
  intros left9 _ Hl9.
  apply (run_within_cut cost n10); [exact H10 | intros; lia | intros; apply Hfail; lia].
Qed.

End Facts.
End Server2Budget.

#[local] Hint Unfold Server2.set_status Server2.retry_or_fail Server2.approve_estimated
  Server2.approve_retry Server2.approve_dst Server2.record_dst_escrow Server2.create_dst_escrow
  Server2.wait_src_approval Server2.transfer_from_user Server2.approve_src
  Server2.record_src_escrow Server2.create_src_escrow Server2.verify_funds Server2.withdraw_from
  Server2.withdraw_src Server2.withdraw_dst Server2.transfer_to_user Server2.complete
  Server2.fail : calls.

Ltac solve_budget2 n :=
  repeat first
    [ lazymatch goal with
      | |- run_within ?cost (Server2.find_src_escrow _ _) _ _ _ =>
          apply (run_within_cut cost 0);
          [ apply Server2Budget.s2_find_src_within; reflexivity | intros ? ? ? | intros ? ? ? ]
      end
    | budget_poll n
    | budget_step ].

Lemma s1_find_src_within cost swapData ls :
  cost (ViewAddress Src (SwapData.srcFactoryAddress swapData) "addressOfEscrowSrc"
          [ATuple (SwapData.srcImmutables swapData)]) = 0 ->
  within cost 0 (Server1.find_src_escrow swapData ls).
Proof.
  intros Hc. unfold within. induction ls as [| l ls IH]; simpl; [lia |].
  destruct (parseLog l) as [p |]; [| exact IH].
  destruct (String.eqb _ _); [simpl; lia |].
  destruct (String.eqb _ _); [| exact IH].
  cbn [run_within]. rewrite Hc. intros [m | a]; [exact IH | simpl; lia].
Qed.

Ltac solve_budget1 n :=
  repeat first
    [ lazymatch goal with
      | |- run_within ?cost (Server1.find_src_escrow _ _) _ _ _ =>
          apply (run_within_cut cost 0);
          [ apply s1_find_src_within; reflexivity | intros ? ? ? | intros ? ? ? ]
      end
    | budget_poll n
    | budget_step ].

Lemma s1_sleeps cfg ref swapData :
  within sleep_ms 310000 (Server1.executeSwapAsync cfg ref swapData).
Proof.
  unfold Server1.executeSwapAsync, Server1.swap_body.
  unfold Server1.approve_dst, Server1.create_dst_escrow, Server1.wait_src_approval,
    Server1.create_src_escrow, Server1.withdraw_src, Server1.withdraw_dst,
    Server1.transfer_to_user, Server1.complete, Server1.fail, Server1.set_status.
  solve_budget1 300000.
Qed.

Lemma s2_sleeps cfg ref swapData :
  within sleep_ms 310000 (Server2.executeSwapAsync cfg ref swapData).
Proof.
  change 310000 with (0 + 0 + 300000 + 0 + 0 + 0 + 0 + 10000 + 0 + 0).
  apply Server2Budget.s2_budgets_add_up; try lia; intros; solve_budget2 300000.
Qed.

(** ** How long and how often the orchestration acts *)

(** X10.  Whatever the ledgers answer, one orchestration of either server
    sleeps for 310 seconds at most in total: sixty waits of five seconds
    while it polls the allowance, and the ten seconds before the
    withdrawals. *)
Theorem orchestration_sleeps_at_most cfg ref swapData s tr s' o :
  exec (Server1.executeSwapAsync cfg ref swapData) s tr s' o \/
  exec (Server2.executeSwapAsync cfg ref swapData) s tr s' o ->
  spent sleep_ms tr <= 310000.
Proof.
  intros [H | H].
  - exact (within_exec sleep_ms _ _ _ _ _ _ (s1_sleeps cfg ref swapData) H).
  - exact (within_exec sleep_ms _ _ _ _ _ _ (s2_sleeps cfg ref swapData) H).
Qed.

Lemma orchestration_sleeps_at_most_witness :
  let r := run Sample.unapproved_ledger 0
             (Server2.executeSwapAsync Sample.cfg 0 Sample.swapData) Sample.store in
  spent sleep_ms (trace r) = 300000 /\ spent sleep_ms (trace r) <= 310000.
Proof.
  intros r. split; [vm_compute; reflexivity |].
  apply (orchestration_sleeps_at_most Sample.cfg 0 Sample.swapData Sample.store
           (trace r) (final r) (outcome r)).
  right. apply run_exec.
Defined.

(** X11.  Whatever the ledgers answer, one orchestration of the gas-aware
    server sends fourteen transactions at most: each approval, each
    escrow creation and each withdrawal at most twice (the second time
    with a fixed gas limit, after the first attempt has thrown), the
    transfer from the user and the transfer to the user at most once.  So
    the secret goes out in four transactions at most, and at most two
    safety deposits are attached on each chain. *)
Theorem gas_aware_server_sends_at_most cfg ref swapData s tr s' o :
  exec (Server2.executeSwapAsync cfg ref swapData) s tr s' o ->
  spent transactions tr <= 14 /\
  spent (sends "approve") tr <= 4 /\
  spent (sends "createDstEscrow") tr <= 2 /\
  spent (sends "transferFrom") tr <= 1 /\
  spent (sends "createSrcEscrow") tr <= 2 /\
  spent (sends "withdraw") tr <= 4 /\
  spent (sends "transfer") tr <= 1.
Proof.
  intros H. repeat split.
  - refine (within_exec transactions _ _ _ _ _ _ _ H). clear H.
    change 14 with (2 + 2 + 0 + 1 + 2 + 2 + 0 + 2 + 2 + 1).
    apply Server2Budget.s2_budgets_add_up; try lia; intros; solve_budget2 0.
  - refine (within_exec (sends "approve") _ _ _ _ _ _ _ H). clear H.
    change 4 with (2 + 0 + 0 + 0 + 2 + 0 + 0 + 0 + 0 + 0).
    apply Server2Budget.s2_budgets_add_up; try lia; intros; solve_budget2 0.
  - refine (within_exec (sends "createDstEscrow") _ _ _ _ _ _ _ H). clear H.
    change 2 with (0 + 2 + 0 + 0 + 0 + 0 + 0 + 0 + 0 + 0).
    apply Server2Budget.s2_budgets_add_up; try lia; intros; solve_budget2 0.
  - refine (within_exec (sends "transferFrom") _ _ _ _ _ _ _ H). clear H.
    change 1 with (0 + 0 + 0 + 1 + 0 + 0 + 0 + 0 + 0 + 0).
    apply Server2Budget.s2_budgets_add_up; try lia; intros; solve_budget2 0.
  - refine (within_exec (sends "createSrcEscrow") _ _ _ _ _ _ _ H). clear H.
    change 2 with (0 + 0 + 0 + 0 + 0 + 2 + 0 + 0 + 0 + 0).
    apply Server2Budget.s2_budgets_add_up; try lia; intros; solve_budget2 0.
  - refine (within_exec (sends "withdraw") _ _ _ _ _ _ _ H). clear H.
    change 4 with (0 + 0 + 0 + 0 + 0 + 0 + 0 + 2 + 2 + 0).
    apply Server2Budget.s2_budgets_add_up; try lia; intros; solve_budget2 0.
  - refine (within_exec (sends "transfer") _ _ _ _ _ _ _ H). clear H.
    change 1 with (0 + 0 + 0 + 0 + 0 + 0 + 0 + 0 + 0 + 1).
    apply Server2Budget.s2_budgets_add_up; try lia; intros; solve_budget2 0.
Qed.

Lemma gas_aware_server_sends_at_most_witness :
  let r := run Sample.happy_ledger 0
             (Server2.executeSwapAsync Sample.cfg 0 Sample.swapData) Sample.store in
  spent transactions (trace r) = 6 /\ spent (sends "withdraw") (trace r) <= 4.
Proof.
  intros r. split; [vm_compute; reflexivity |].
  pose proof (gas_aware_server_sends_at_most Sample.cfg 0 Sample.swapData Sample.store
                (trace r) (final r) (outcome r) (run_exec _ _ _ _))
    as (_ & _ & _ & _ & _ & Hw & _).
  exact Hw.
Defined.

(** ** What the orchestration leaves in the registry *)

Ltac keeps_step upd :=
  lazymatch goal with
  | |- True => exact I
  | |- updates_keep _ (bind _ _) => apply updates_keep_bind; [| intros ?]
  | |- updates_keep _ (try_catch _ _) => apply updates_keep_try_catch; [| intros ?]
  | |- updates_keep _ (lift _) => apply updates_keep_lift
  | |- updates_keep _ (poll_approval _ _ _ _ _) => apply updates_keep_poll
  | |- updates_keep _ (Ret _) => exact I
  | |- updates_keep _ (Throw _) => exact I
  | |- updates_keep _ (Upd _ _) => cbn [updates_keep]; split; [intros ? ?; upd |]
  | |- updates_keep _ (Do _ _) => cbn [updates_keep]; intros ?
  | |- updates_keep _ (if ?b then _ else _) => destruct b
  | |- updates_keep _ (match ?x with _ => _ end) => destruct x
  | |- updates_keep _ (let _ := _ in _) => cbv zeta
  | |- updates_keep _ _ => progress autounfold with calls
  end.

Lemma s1_updates_find_src (Inv : Store -> Prop) swapData ls :
  updates_keep Inv (Server1.find_src_escrow swapData ls).
Proof.
  induction ls as [| l ls IH]; simpl; [exact I |].
  destruct (parseLog l) as [p |]; [| exact IH].
  destruct (String.eqb _ _); [exact I |].
  destruct (String.eqb _ _); [| exact IH].
  simpl. intros [m | a]; [exact IH | exact I].
Qed.

#[local] Hint Unfold Server1.set_status Server1.approve_dst Server1.create_dst_escrow
  Server1.wait_src_approval Server1.create_src_escrow Server1.withdraw_src Server1.withdraw_dst
  Server1.transfer_to_user Server1.complete Server1.fail Server1.swap_body
  Server2.lock_funds Server2.release_funds Server2.swap_body : calls.

Ltac solve_keeps upd :=
  repeat first
    [ lazymatch goal with
      | |- updates_keep _ (Server1.find_src_escrow _ _) => apply s1_updates_find_src
      | |- updates_keep _ (Server2.find_src_escrow _ _) => apply Server2Facts.s2_updates_find_src
      end
    | keeps_step upd ].

Lemma same_terms_refl d : same_terms d d.
Proof. repeat split. Qed.

Lemma same_terms_trans d1 d2 d3 : same_terms d1 d2 -> same_terms d2 d3 -> same_terms d1 d3.
Proof.
  unfold same_terms. intros H1 H2.
  repeat match goal with H : _ /\ _ |- _ => destruct H end.
  repeat split; congruence.
Qed.

Lemma orchestrated_refl ref key s : orchestrated ref key s s.
Proof.
  repeat split; auto. intros r d Hd. exists d. split; [exact Hd |].
  split; [apply same_terms_refl | reflexivity].
Qed.

Lemma orchestrated_mutate ref key f s0 s :
  (forall d, same_terms d (f d)) ->
  orchestrated ref key s0 s -> orchestrated ref key s0 (mutate ref f s).
Proof.
  intros Hf (Hobj & Hnone & Hnext & Hkeys). unfold mutate. repeat split; simpl; auto.
  - intros r d Hd. destruct (Hobj r d Hd) as (d' & Hd' & Hsame & Hother).
    rewrite lookup_alter. destruct (decide (ref = r)) as [<- | Hne].
    + rewrite Hd'. simpl. exists (f d'). split; [reflexivity |].
      split; [exact (same_terms_trans _ _ _ Hsame (Hf d')) | congruence].
    + exists d'. auto.
  - intros r Hr. rewrite lookup_alter. destruct (decide (ref = r)) as [<- | Hne].
    + rewrite (Hnone _ Hr). reflexivity.
    + auto.
Qed.

Lemma orchestrated_set ref key s0 s :
  orchestrated ref key s0 s -> orchestrated ref key s0 (activeSwaps_set key ref s).
Proof.
  intros (Hobj & Hnone & Hnext & Hkeys). unfold activeSwaps_set. repeat split; simpl; auto.
  intros k Hk. rewrite lookup_insert_ne by congruence. auto.
Qed.

Ltac orchestrated_update :=
  first [ apply orchestrated_set; assumption
        | apply orchestrated_mutate; [intros ?; repeat split | assumption] ].

Ltac allocated_update :=
  first [ apply allocated_mutate; assumption | apply allocated_set; assumption ].

(** X12.  Whatever the ledgers answer, an orchestration of either server
    keeps the terms of its swap (order hash, secret, hashlock, amount,
    user, both immutables, factories, creation date, typed data and
    signature), changes no other object of the registry, creates none,
    and writes under no other key than the order hash of the swap. *)
Theorem orchestration_keeps_the_terms cfg ref swapData s tr s' o :
  exec (Server1.executeSwapAsync cfg ref swapData) s tr s' o \/
  exec (Server2.executeSwapAsync cfg ref swapData) s tr s' o ->
  orchestrated ref (SwapData.orderHash swapData) s s'.
Proof.
  intros [H | H].
  - refine (updates_keep_exec _ _ _ _ _ _ _ (orchestrated_refl _ _ _) H). clear H.
    unfold Server1.executeSwapAsync. solve_keeps orchestrated_update.
  - refine (updates_keep_exec _ _ _ _ _ _ _ (orchestrated_refl _ _ _) H). clear H.
    unfold Server2.executeSwapAsync. solve_keeps orchestrated_update.
Qed.

Lemma orchestration_keeps_the_terms_witness :
  let r := run Sample.happy_ledger 0
             (Server2.executeSwapAsync Sample.cfg 0 Sample.swapData) Sample.store in
  status_of 0 (final r) = Some "completed" /\
  orchestrated 0 "0x0d" Sample.store (final r).
Proof.
  intros r. split; [vm_compute; reflexivity |].
  apply (orchestration_keeps_the_terms Sample.cfg 0 Sample.swapData Sample.store
           (trace r) (final r) (outcome r)).
  right. apply run_exec.
Defined.

Lemma s1_body_keeps_object cfg ref swapData :
  updates_keep (allocated ref) (Server1.swap_body cfg ref swapData).
Proof. solve_keeps allocated_update. Qed.

Lemma allocated_completed ref key t s :
  allocated ref s ->
  has_status ref "completed"
    (activeSwaps_set key ref
       (mutate ref (SwapData.set_completedAt t)
          (mutate ref (SwapData.set_status "completed") s))).
Proof.
  intros [d Hd]. unfold has_status, activeSwaps_set, mutate; simpl.
  rewrite !lookup_alter, !decide_True by reflexivity. rewrite Hd. simpl.
  eexists. split; reflexivity.
Qed.

Lemma s1_complete_result ref swapData s tr s' o :
  allocated ref s -> exec (Server1.complete ref swapData) s tr s' o ->
  o = inr tt /\ has_status ref "completed" s'.
Proof.
  intros Ha H. unfold Server1.complete, update, date_now in H. exec_run H.
  split; [assumption | apply allocated_completed; exact Ha].
Qed.

Lemma s2_complete_result ref swapData s tr s' o :
  allocated ref s -> exec (Server2.complete ref swapData) s tr s' o ->
  o = inr tt /\ has_status ref "completed" s'.
Proof.
  intros Ha H. unfold Server2.complete, update, date_now in H. exec_run H.
  split; [assumption | apply allocated_completed; exact Ha].
Qed.

Lemma s1_fail_result ref swapData m s s' tr o :
  allocated ref s -> exec (Server1.fail ref swapData m) s tr s' o ->
  o = inr tt /\ has_status ref "failed" s' /\ has_error ref m s'.
Proof.
  intros [d Hd] H. unfold Server1.fail, update in H. exec_run H.
  split; [assumption |].
  unfold has_status, has_error, activeSwaps_set, mutate; simpl.
  rewrite !lookup_alter, !decide_True by reflexivity. rewrite Hd. simpl.
  split; eexists; split; reflexivity.
Qed.

Lemma s2_fail_returns ref swapData m s s' tr o :
  exec (Server2.fail ref swapData m) s tr s' o -> o = inr tt.
Proof. intros H. unfold Server2.fail, update in H. exec_run H. assumption. Qed.

(** Splitting an execution of [p ;;; q] that returns. *)
Ltac split_exec H :=
  apply exec_bind in H;
  let m := fresh "m" in
  let a := fresh "a" in
  let tr1 := fresh "tr" in
  let s1 := fresh "s" in
  let tr2 := fresh "tr" in
  let H1 := fresh "Hfst" in
  let E := fresh "E" in
  destruct H as [(m & H & E) | (a & tr1 & s1 & tr2 & H1 & H & ->)];
  [ discriminate E | ].

(** X13.  Started on a swap object of the registry, an orchestration of
    either server never throws, whatever the ledgers answer: it returns,
    and it leaves the swap either with the status [completed] or with the
    status [failed] and the message of the error in its [error]
    property. *)
Theorem orchestration_ends_completed_or_failed cfg ref swapData s tr s' o :
  allocated ref s ->
  exec (Server1.executeSwapAsync cfg ref swapData) s tr s' o \/
  exec (Server2.executeSwapAsync cfg ref swapData) s tr s' o ->
  o = inr tt /\
  (has_status ref "completed" s' \/
   (has_status ref "failed" s' /\ exists message, has_error ref message s')).
Proof.
  intros Ha [H | H].
  - unfold Server1.executeSwapAsync in H.
    apply exec_handled in H; [| apply Server1Facts.s1_fail_silent].
    destruct H as [([] & H & ->) | (m & s1 & Hb & Hf)].
    + split; [reflexivity |]. left.
      assert (Hstay : forall {A} (p : M A) t1 s1 s2 (x : Res A),
                updates_keep (allocated ref) p -> allocated ref s1 -> exec p s1 t1 s2 x ->
                allocated ref s2).
      { intros A p t1 s1 s2 x Hk Hs1 Hx. exact (updates_keep_exec _ _ _ _ _ _ Hk Hs1 Hx). }
      unfold Server1.swap_body in H.
      split_exec H. apply Hstay in Hfst; [| solve_keeps allocated_update | exact Ha].
      split_exec H. apply Hstay in Hfst0; [| solve_keeps allocated_update | exact Hfst].
      split_exec H. apply Hstay in Hfst1; [| solve_keeps allocated_update | exact Hfst0].
      split_exec H. apply Hstay in Hfst2; [| solve_keeps allocated_update | exact Hfst1].
      split_exec H. apply Hstay in Hfst3; [| solve_keeps allocated_update | exact Hfst2].
      split_exec H. apply Hstay in Hfst4; [| solve_keeps allocated_update | exact Hfst3].
      split_exec H. apply Hstay in Hfst5; [| solve_keeps allocated_update | exact Hfst4].
      split_exec H. apply Hstay in Hfst6; [| solve_keeps allocated_update | exact Hfst5].
      exact (proj2 (s1_complete_result _ _ _ _ _ _ Hfst6 H)).
    + pose proof (updates_keep_exec _ _ _ _ _ _ (s1_body_keeps_object cfg ref swapData) Ha Hb)
        as Ha1.
      destruct (s1_fail_result _ _ _ _ _ _ _ Ha1 Hf) as (-> & Hst & Her).
      split; [reflexivity |]. right. eauto.
  - unfold Server2.executeSwapAsync in H.
    apply exec_handled in H; [| apply Server2Facts.s2_fail_silent].
    destruct H as [([] & H & ->) | (m & s1 & Hb & Hf)].
    + split; [reflexivity |]. left.
      assert (Hstay : forall {A} (p : M A) t1 s1 s2 (x : Res A),
                updates_keep (allocated ref) p -> allocated ref s1 -> exec p s1 t1 s2 x ->
                allocated ref s2).
      { intros A p t1 s1 s2 x Hk Hs1 Hx. exact (updates_keep_exec _ _ _ _ _ _ Hk Hs1 Hx). }
      unfold Server2.swap_body in H.
      split_exec H. apply Hstay in Hfst; [| solve_keeps allocated_update | exact Ha].
      split_exec H. apply Hstay in Hfst0; [| solve_keeps allocated_update | exact Hfst].
      unfold Server2.release_funds in H.
      split_exec H. apply Hstay in Hfst1; [| solve_keeps allocated_update | exact Hfst0].
      split_exec H. apply Hstay in Hfst2; [| solve_keeps allocated_update | exact Hfst1].
      split_exec H. apply Hstay in Hfst3; [| solve_keeps allocated_update | exact Hfst2].
      split_exec H. apply Hstay in Hfst4; [| solve_keeps allocated_update | exact Hfst3].
      exact (proj2 (s2_complete_result _ _ _ _ _ _ Hfst4 H)).
    + pose proof (updates_keep_exec _ _ _ _ _ _
                    (Server2Facts.s2_body_keeps_object cfg ref swapData) Ha Hb) as Ha1.
      destruct (Server2Facts.s2_fail_result _ _ _ _ _ _ _ Ha1 Hf) as (_ & Hst & Her).
      split; [exact (s2_fail_returns _ _ _ _ _ _ _ Hf) |]. right. eauto.
Qed.

Lemma orchestration_ends_completed_or_failed_witness :
  let r := run Sample.unfunded_ledger 0
             (Server2.executeSwapAsync Sample.cfg 0 Sample.swapData) Sample.store in
  outcome r = inr tt /\ status_of 0 (final r) = Some "failed".
Proof.
  intros r.
  destruct (orchestration_ends_completed_or_failed Sample.cfg 0 Sample.swapData Sample.store
              (trace r) (final r) (outcome r)) as [Ho _].
  - eexists. vm_compute. reflexivity.
  - right. apply run_exec.
  - split; [exact Ho | vm_compute; reflexivity].
Defined.

(** ** The secret in the gas-aware server *)

(** X14.  In the gas-aware server, whatever the ledgers answer, every
    withdrawal call (gas estimate or transaction) comes after a read of
    the token balance of a source escrow and one of a destination escrow
    that both found the amount of the swap or more; the call goes to the
    escrow of its chain whose balance was read, with the secret of the
    swap and the immutables of that side as its only arguments. *)
Theorem gas_aware_server_guards_the_secret cfg ref swapData s tr s' o pre e post ch escrow args :
  exec (Server2.executeSwapAsync cfg ref swapData) s tr s' o ->
  tr = pre ++ e :: post ->
  withdraw_on (e_call e) = Some (ch, escrow, args) ->
  exists src dst zs zd,
    In (balance_entry Src (srcUSDC cfg) src zs) pre /\
    In (balance_entry Dst (dstUSDC cfg) dst zd) pre /\
    SwapData.amount swapData <= zs /\ SwapData.amount swapData <= zd /\
    escrow = match ch with Src => src | Dst => dst end /\
    args = withdraw_args (SwapData.secret swapData)
             match ch with
             | Src => SwapData.srcImmutables swapData
             | Dst => SwapData.dstImmutables swapData
             end.
Proof.
  intros H Htr He. apply Server2Facts.s2_run_is_body in H. destruct H as (s1 & o1 & H).
  unfold Server2.swap_body in H.
  assert (Hp : (fun c => withdraw_on c <> None) (e_call e)) by (simpl; congruence).
  destruct (skip_bind (fun c => withdraw_on c <> None) _ _ _ _ _ _ _ _ _
              (calls_sat_impl _ _ _ (fun c Hc Hn => Hn Hc)
                 (Server2Facts.s2_lock_funds_calls cfg ref swapData)) H Htr Hp)
    as ([src dst] & tr1 & s2 & pre2 & tr2 & _ & H2 & -> & Htr2).
  cbn [fst snd] in H2.
  destruct (skip_bind (fun c => withdraw_on c <> None) _ _ _ _ _ _ _ _ _
              (calls_sat_impl _ _ _ (fun c Hc Hn => Hn Hc)
                 (Server2Facts.s2_verify_funds_calls cfg swapData src dst))
              H2 Htr2 Hp)
    as ([] & tr3 & s3 & pre3 & tr4 & Hv & H4 & -> & Htr4).
  apply Server2Facts.s2_verify_ok in Hv. destruct Hv as (zs & zd & es & ed & -> & Hzs & Hzd).
  exists src, dst, zs, zd. rewrite !in_app_iff. simpl.
  eapply calls_sat_exec in H4; [| apply Server2Facts.s2_release_funds_calls].
  rewrite Htr4, Forall_app, Forall_cons in H4. destruct H4 as (_ & Hq & _).
  specialize (Hq ch escrow args He).
  repeat split; auto; destruct ch; tauto.
Qed.

Lemma gas_aware_server_guards_the_secret_witness :
  let r := run Sample.happy_ledger 0
             (Server2.executeSwapAsync Sample.cfg 0 Sample.swapData) Sample.store in
  exists e,
    nth_error (trace r) 21 = Some e /\
    e_call e = EstimateGas Src Sample.srcEscrow "withdraw"
                 (withdraw_args (SwapData.secret Sample.swapData)
                    (SwapData.srcImmutables Sample.swapData)) no_overrides /\
    exists src dst zs zd,
      In (balance_entry Src (srcUSDC Sample.cfg) src zs) (firstn 21 (trace r)) /\
      In (balance_entry Dst (dstUSDC Sample.cfg) dst zd) (firstn 21 (trace r)) /\
      SwapData.amount Sample.swapData <= zs /\ SwapData.amount Sample.swapData <= zd.
Proof.
  intros r.
  exists (mkEntry (EstimateGas Src Sample.srcEscrow "withdraw"
                     (withdraw_args (SwapData.secret Sample.swapData)
                        (SwapData.srcImmutables Sample.swapData)) no_overrides)
                  (inr 100000)).
  split; [vm_compute; reflexivity |]. split; [reflexivity |].
  destruct (gas_aware_server_guards_the_secret Sample.cfg 0 Sample.swapData Sample.store
              (trace r) (final r) (outcome r) (firstn 21 (trace r))
              (mkEntry (EstimateGas Src Sample.srcEscrow "withdraw"
                          (withdraw_args (SwapData.secret Sample.swapData)
                             (SwapData.srcImmutables Sample.swapData)) no_overrides)
                       (inr 100000))
              (skipn 22 (trace r)) Src Sample.srcEscrow
              (withdraw_args (SwapData.secret Sample.swapData)
                 (SwapData.srcImmutables Sample.swapData)))
    as (src & dst & zs & zd & H1 & H2 & H3 & H4 & _).
  - apply run_exec.
  - vm_compute. reflexivity.
  - reflexivity.
  - exists src, dst, zs, zd. auto.
Defined.

Ltac solve_calls_s2 :=
  repeat first
    [ lazymatch goal with
      | |- calls_sat _ (Server2.find_src_escrow _ _) =>
          apply Server2Facts.s2_calls_sat_find_src; intros; calls_leaf
      end
    | calls_step ].

Lemma s2_allowances_read cfg ref swapData tok owner spender :
  String.eqb (srcRelayer cfg) spender = false ->
  String.eqb (srcRelayer cfg) owner = false ->
  calls_sat (fun c => is_allowance_call tok owner spender c = false)
    (Server2.executeSwapAsync cfg ref swapData).
Proof.
  intros Hsp Hown. unfold Server2.executeSwapAsync.
  solve_calls_s2; rewrite ?Hsp, ?Hown, ?andb_false_r; reflexivity.
Qed.

(** X15.  [/api/create-order] of the gas-aware server tells the client to
    approve the source factory ([approvalData.spender]), but the
    orchestration of that order never reads the allowance the user has
    given to that spender, on any token: the allowance it polls is the one
    given to the relayer wallet (unless the relayer is the user or the
    factory). *)
Theorem gas_aware_server_awaits_another_approval
    P cfg amb req s s1 swapId oh typedData approval swapData ref s2 tr s' o :
  create_order true P cfg amb req s = (s1, OrderCreated swapId oh typedData approval) ->
  activeSwaps_get swapId s1 = Some swapData ->
  req_userAddress req <> srcRelayer cfg ->
  ap_spender approval <> srcRelayer cfg ->
  exec (Server2.executeSwapAsync cfg ref swapData) s2 tr s' o ->
  SwapData.userAddress swapData = req_userAddress req /\
  ap_spender approval = SwapData.srcFactoryAddress swapData /\
  forall tok,
    Forall (fun c => is_allowance_call tok (req_userAddress req) (ap_spender approval) c = false)
      (calls_of tr).
Proof.
  intros Hc Hget Hu Hsp H.
  destruct (create_order_entry true P cfg amb req) as [message | [entry td]] eqn:E.
  { unfold create_order in Hc. rewrite E in Hc. discriminate. }
  pose proof (get_after_create true P cfg amb req s entry td E) as Hget'.
  unfold create_order in Hc, Hget'. rewrite E in Hc, Hget'.
  simpl in Hc, Hget'. injection Hc as <- <- _ _ <-.
  rewrite Hget' in Hget. injection Hget as <-.
  unfold create_order_entry in E.
  destruct (parseUnits P (req_amount req) 6) as [? | swapAmount]; [discriminate |].
  simpl in E.
  destruct (CrossChainOrder_new P _ _ _ _) as [? | order]; [discriminate |].
  simpl in E.
  destruct (side_immutables _ _ _ _ _ _) as [[src dst] |]; [| discriminate].
  simpl in E. injection E as <- _. simpl.
  split; [reflexivity |]. split; [reflexivity |].
  intros tok. unfold calls_of. rewrite Forall_map.
  apply (calls_sat_exec
           (fun c => is_allowance_call tok (req_userAddress req) (req_srcFactoryAddress req) c
                     = false) _ _ _ _ _
           (s2_allowances_read cfg ref _ tok (req_userAddress req) (req_srcFactoryAddress req)
              ltac:(apply String.eqb_neq; simpl in Hsp; congruence)
              ltac:(apply String.eqb_neq; congruence))
           H).
Qed.

Lemma gas_aware_server_awaits_another_approval_witness :
  let r := run Sample.unapproved_ledger 0
             (Server2.executeSwapAsync Sample.cfg 0 Sample.swapData) Sample.store in
  existsb (is_allowance_call (srcUSDC Sample.cfg) Sample.user (srcRelayer Sample.cfg))
    (calls_of (trace r)) = true /\
  Forall (fun c => is_allowance_call (srcUSDC Sample.cfg) Sample.user Sample.srcFactory c
                   = false) (calls_of (trace r)).
Proof.
  intros r. split; [vm_compute; reflexivity |].
  destruct (gas_aware_server_awaits_another_approval Sample.platform Sample.cfg Sample.ambient
              Sample.request empty_store Sample.store "0x0d" "0x0d"
              {| td_chainId := 11155111; td_verifyingContract := Sample.srcFactory;
                 td_userAddress := Sample.user; td_amount := 1000000;
                 td_srcFactoryAddress := Sample.srcFactory;
                 td_dstFactoryAddress := Sample.dstFactory;
                 td_hashlock := "0xha50x5ec2e7"; td_orderHash := "0x0d";
                 td_timestamp := 1700000000; td_nonce := 123456 |}
              {| ap_tokenAddress := srcUSDC Sample.cfg; ap_spender := Sample.srcFactory;
                 ap_amount := 1000000 |}
              Sample.swapData 0%nat Sample.store (trace r) (final r) (outcome r))
    as (_ & _ & Hno).
  - vm_compute. reflexivity.
  - vm_compute. reflexivity.
  - vm_compute. discriminate.
  - vm_compute. discriminate.
  - apply run_exec.
  - exact (Hno (srcUSDC Sample.cfg)).
Defined.

(** ** The multi-fill script *)

Lemma mf_approve_never_throws ch c : never_throws (MultiFill.approve ch c).
Proof.
  unfold MultiFill.approve. apply never_throws_try_catch. intros _.
  apply never_throws_try_catch. intros _. exact I.
Qed.

Lemma mf_create_src_escrow_never_throws srcChain i :
  never_throws (MultiFill.create_src_escrow srcChain i).
Proof.
  unfold MultiFill.create_src_escrow. apply never_throws_try_catch. intros _.
  apply never_throws_try_catch. intros _. exact I.
Qed.

Lemma mf_create_dst_and_withdraw_never_throws srcChain dstChain secrets i j a :
  never_throws (MultiFill.create_dst_and_withdraw srcChain dstChain secrets i j a).
Proof.
  unfold MultiFill.create_dst_and_withdraw. apply never_throws_try_catch. intros _.
  apply never_throws_try_catch. intros _. exact I.
Qed.

(** X16.  The multi-fill script throws only before it has sent anything:
    an execution of [performMultipleFillCrossChainSwap] that throws has
    made at most seven calls (the four balance reads, the two clock
    readings and the signature of the order) and has sent no transaction.
    From the first approval on, every failure is caught inside the
    function. *)
Theorem multi_fill_script_throws_before_sending
    sdk cfg srcChain dstChain secrets salt nonce s tr s' message :
  exec (MultiFill.performMultipleFillCrossChainSwap sdk cfg srcChain dstChain secrets salt nonce)
       s tr s' (inl message) ->
  (length tr <= 7)%nat /\ Forall (fun e => is_send (e_call e) = false) tr.
Proof.
  intros H. unfold MultiFill.performMultipleFillCrossChainSwap in H.
  unfold balanceOf, getBalance, date_now in H.
  exec_run H; try (split; [simpl; lia | repeat constructor]).
  destruct (MultiFill.new_order sdk _) as [m | order]; exec_run H;
    try (split; [simpl; lia | repeat constructor]).
  exfalso. revert H. apply never_throws_exec.
  apply never_throws_bind; [apply mf_approve_never_throws |].
  intros [[] |]; [| exact I].
  apply never_throws_bind; [apply mf_create_src_escrow_never_throws |].
  intros [a |]; [| exact I].
  apply never_throws_bind; [apply mf_approve_never_throws |].
  intros [[] |]; [| exact I].
  apply mf_create_dst_and_withdraw_never_throws.
Qed.

Lemma multi_fill_script_throws_before_sending_witness :
  let r := run refusing_wallet 0 Sample.multi_fill tt in
  outcome r = inl "user rejected signing" /\
  (length (trace r) <= 7)%nat /\ Forall (fun e => is_send (e_call e) = false) (trace r).
Proof.
  intros r. split; [vm_compute; reflexivity |].
  apply (multi_fill_script_throws_before_sending Sample.sdk Sample.cfg Sample.chain_src
           Sample.chain_dst Sample.secrets 7 9 tt (trace r) (final r) "user rejected signing").
  change (inl "user rejected signing") with (outcome r). apply run_exec.
Defined.

(** ** The scan of a receipt for the destination escrow *)

(** X17.  The scan of the logs of a receipt returns the [escrow] argument
    of the first event named [DstEscrowCreated], whatever follows it;
    logs the interface cannot parse and events of other names are passed
    over; and when no log is such an event the result is empty, which
    makes the orchestration throw. *)
Theorem find_dst_escrow_first_event (pre post : list Log) :
  Forall (fun l => forall q, parseLog l = Some q -> ev_name q <> "DstEscrowCreated") pre ->
  find_dst_escrow pre = None /\
  forall log p, parseLog log = Some p -> ev_name p = "DstEscrowCreated" ->
    find_dst_escrow (pre ++ log :: post) = ev_escrow p.
Proof.
  intros Hpre. induction Hpre as [| l pre Hl Hpre IH]; simpl.
  - split; [reflexivity |]. intros log p Hp Hn. rewrite Hp, Hn. reflexivity.
  - destruct (parseLog l) as [q |] eqn:Hq; [| exact IH].
    specialize (Hl q eq_refl). apply String.eqb_neq in Hl. rewrite Hl. exact IH.
Qed.

Lemma find_dst_escrow_first_event_witness :
  find_dst_escrow
    ([mkLog None; Sample.escrow_event "Transfer" "0x01"]
     ++ Sample.escrow_event "DstEscrowCreated" Sample.dstEscrow
     :: [Sample.escrow_event "DstEscrowCreated" "0x02"])
  = Some Sample.dstEscrow.
Proof.
  destruct (find_dst_escrow_first_event
              [mkLog None; Sample.escrow_event "Transfer" "0x01"]
              [Sample.escrow_event "DstEscrowCreated" "0x02"]) as [_ H].
  - repeat constructor; simpl; intros q [= <-]; discriminate.
  - exact (H (Sample.escrow_event "DstEscrowCreated" Sample.dstEscrow) _ eq_refl eq_refl).
Defined.

(** ** The demo script *)

(** X18.  The demo script [performCrossChainSwap] announces a complete
    swap but, whatever the ledgers answer, it sends two transactions at
    most, a transfer of twice the swap amount to the resolver on the
    destination chain and the approval of the swap amount for the source
    factory; it creates no escrow and submits no withdrawal.  The
    transfer is its sixth call exactly when the balance it has read for
    the resolver is below the swap amount. *)
Theorem demo_script_sends_two_transactions_at_most
    P forSingleFill solidityPacked cfg srcChain dstChain secret salt nonce s tr s' o :
  exec (DemoScript.performCrossChainSwap P forSingleFill solidityPacked cfg srcChain dstChain
          secret salt nonce) s tr s' o ->
  spent transactions tr <= 2 /\
  Forall moves_no_escrow (calls_of tr) /\
  Forall (fun c => is_send c = true ->
            c = Send Dst (MultiFill.tokenAddress dstChain) "transfer"
                  [AAddress (MultiFill.resolver dstChain); AUint 200000] no_overrides \/
            c = Send Src (MultiFill.tokenAddress srcChain) "approve"
                  [AAddress (MultiFill.escrowFactory srcChain); AUint 100000] no_overrides)
    (calls_of tr) /\
  forall z,
    nth_error tr 4 = Some (balance_entry Dst (MultiFill.tokenAddress dstChain)
                             (MultiFill.resolver dstChain) z) ->
    (z < 100000 <->
     nth_error (calls_of tr) 5
     = Some (Send Dst (MultiFill.tokenAddress dstChain) "transfer"
               [AAddress (MultiFill.resolver dstChain); AUint 200000] no_overrides)).
Proof.
  intros H. unfold DemoScript.performCrossChainSwap, DemoScript.fund_resolver in H.
  unfold balanceOf, getBalance, send, wait, DemoScript.swapAmount in H.
  assert (Hfive : forall (t : list Entry) z (R : Prop),
            (forall e, nth_error t 4 = Some e -> uint_answer e = Some z -> R) ->
            nth_error t 4 = Some (balance_entry Dst (MultiFill.tokenAddress dstChain)
                                    (MultiFill.resolver dstChain) z) -> R).
  { intros t z R HR Hz. exact (HR _ Hz eq_refl). }
  exec_run H;
    try match type of H with
        | context [if ?b then _ else _] => destruct b eqn:Hlt; exec_run H
        end;
    repeat match goal with
           | H : exec (bind (lift ?r) _) _ _ _ _ |- _ => destruct r; exec_run H
           end;
    (split; [cbn; lia |]);
    (split; [repeat constructor |]);
    (split; [repeat (constructor; [intros Hs; try discriminate Hs; auto |]); constructor |]);
    intros z; apply Hfive; intros e He Hu; cbn in He; try discriminate He;
    injection He as <-; cbn in Hu; try discriminate Hu; injection Hu as <-;
    (split;
     [ intros Hl; try reflexivity; exfalso; apply Z.ltb_ge in Hlt; lia
     | intros Hn; try (apply Z.ltb_lt; exact Hlt); cbn in Hn; discriminate Hn ]).
Qed.

Lemma demo_script_sends_two_transactions_at_most_witness :
  let r := run poor_resolver 0 demo_script tt in
  outcome r = inr tt /\ spent transactions (trace r) = 2 /\
  Forall moves_no_escrow (calls_of (trace r)).
Proof.
  intros r. split; [vm_compute; reflexivity |]. split; [vm_compute; reflexivity |].
  pose proof (demo_script_sends_two_transactions_at_most Sample.platform
                (fun x => "0xha5" ++ x)%string String.append Sample.cfg Sample.chain_src
                Sample.chain_dst "0x5ec2e7" 7 9 tt (trace r) (final r) (outcome r)
                (run_exec poor_resolver demo_script 0%nat tt)) as (_ & Hno & _).
  exact Hno.
Defined.

(** X19.  The escrow address the demo script derives is no address: the
    text of a keccak256 hash begins with [0x], so the first forty
    characters of it, put behind another [0x], give a string that begins
    with [0x0x] and carries the first 38 digits of the hash only. *)
Theorem demo_escrow_address_is_malformed
    (keccak256 : string -> string) (solidityPacked : string -> string -> string)
    (immutables : RawImmutables) (userAddress digits : string) :
  keccak256 (solidityPacked (raw_orderHash immutables) userAddress) = ("0x" ++ digits)%string ->
  Demo.escrow_address keccak256 solidityPacked immutables userAddress
  = ("0x0x" ++ String.substring 0 38 digits)%string.
Proof.
  intros H. unfold Demo.escrow_address, Demo.substring_to. rewrite H. reflexivity.
Qed.

Lemma demo_escrow_address_is_malformed_witness :
  Demo.escrow_address (keccak256 Sample.platform) String.append
    (toSrcImmutables Sample.order 11155111 Sample.user 1000000 "0x4a") Sample.user
  = "0x0xha50x0d0x00000000000000000000000000000".
Proof.
  exact (demo_escrow_address_is_malformed (keccak256 Sample.platform) String.append
           (toSrcImmutables Sample.order 11155111 Sample.user 1000000 "0x4a") Sample.user
           "ha50x0d0x00000000000000000000000000000000000000bb" eq_refl).
Defined.

(** ** The simplified multi-fill script *)

(** X20.  The simplified script never gets past its first approval:
    right after sending it (without waiting for it), the script prints
    the source immutables with [JSON.stringify], which throws on their
    BigInt properties outside any [try].  So every execution ends by
    throwing after seven calls at most, sends one transaction at most (the
    approval, with the gas limit 100000 of the script), creates no escrow
    and submits no withdrawal; and when the seventh call, the approval,
    is fulfilled, the error is the [TypeError] of [JSON.stringify]. *)
Theorem simplified_script_stops_after_its_approval
    sdk cfg srcChain dstChain secrets salt nonce s tr s' o :
  exec (Simplified.performSimplifiedMultipleFillSwap sdk cfg srcChain dstChain secrets
          salt nonce) s tr s' o ->
  (exists message, o = inl message) /\
  (length tr <= 7)%nat /\
  spent transactions tr <= 1 /\
  Forall moves_no_escrow (calls_of tr) /\
  Forall fixed_gas_call (calls_of tr) /\
  (forall e, nth_error tr 6 = Some e ->
     e_call e = Send Src (MultiFill.tokenAddress srcChain) "approve"
                  [AAddress (MultiFill.escrowFactory srcChain); AUint 100000]
                  (with_gas 100000) /\
     (rejected e = false -> o = inl "Do not know how to serialize a BigInt")).
Proof.
  intros H. unfold Simplified.performSimplifiedMultipleFillSwap in H.
  unfold balanceOf, date_now in H.
  exec_run H.
  all: try (destruct (MultiFill.new_order sdk _) as [m | order]; exec_run H).
  all: try (unfold Simplified.deploy_escrows, send, log_json, immutables_object in H;
            cbn [existsb is_bigint snd orb] in H; exec_run H).
  all: (split; [eexists; eassumption || reflexivity |]).
  all: (split; [simpl; lia |]).
  all: (split; [cbn; lia |]).
  all: (split; [repeat constructor |]).
  all: (split; [repeat constructor |]).
  all: intros e He; cbn [nth_error] in He; try discriminate He.
  all: injection He as <-; split; [reflexivity |]; cbn; intros Hr;
    first [discriminate Hr | assumption | reflexivity].
Qed.

Lemma simplified_script_stops_after_its_approval_witness :
  let r := run Sample.happy_ledger 0 simplified_script tt in
  outcome r = inl "Do not know how to serialize a BigInt" /\
  spent transactions (trace r) = 1 /\
  Forall moves_no_escrow (calls_of (trace r)).
Proof.
  intros r. split; [vm_compute; reflexivity |]. split; [vm_compute; reflexivity |].
  pose proof (simplified_script_stops_after_its_approval Sample.sdk Sample.cfg Sample.chain_src
                Sample.chain_dst Sample.secrets 7 9 tt (trace r) (final r) (outcome r)
                (run_exec Sample.happy_ledger simplified_script 0%nat tt))
    as (_ & _ & _ & Hno & _).
  exact Hno.
Defined.

(** ** Helpers of the scripts *)

Lemma countdown_from (k : nat) :
  countdown (S k) (Z.of_nat k) = Some (map Z.of_nat (rev (seq 0 (S k)))).
Proof.
  induction k as [| k IH]; [reflexivity |].
  change (countdown (S (S k)) (Z.of_nat (S k)))
    with (if Z.of_nat (S k) - 1 <? 0 then Some [Z.of_nat (S k)]
          else option_map (cons (Z.of_nat (S k)))
                 (countdown (S k) (Z.of_nat (S k) - 1))).
  destruct (Z.ltb_spec (Z.of_nat (S k) - 1) 0) as [Hneg | _]; [lia |].
  replace (Z.of_nat (S k) - 1) with (Z.of_nat k) by lia. rewrite IH.
  rewrite (seq_S (S k)), rev_app_distr. reflexivity.
Qed.

(** X21.  [countdown(seconds)] with a number of seconds that is not
    negative prints [seconds], then every number below it down to 0, one
    per tick of one second, and resolves at the tick that prints 0: it
    takes [seconds + 1] ticks, one second more than its argument says.
    With a negative argument it prints that number once and resolves at
    the first tick. *)
Theorem countdown_takes_one_tick_more (seconds : Z) :
  (0 <= seconds ->
   exists printed,
     countdown (S (Z.to_nat seconds)) seconds = Some printed /\
     length printed = S (Z.to_nat seconds) /\
     hd_error printed = Some seconds /\ List.last printed 1 = 0 /\
     countdown (Z.to_nat seconds) seconds = None) /\
  (seconds < 0 -> countdown 1 seconds = Some [seconds]).
Proof.
  split.
  - intros Hs. set (k := Z.to_nat seconds). replace seconds with (Z.of_nat k) by lia.
    clearbody k. clear Hs seconds.
    exists (map Z.of_nat (rev (seq 0 (S k)))). split; [apply countdown_from |].
    split; [now rewrite length_map, length_rev, length_seq |].
    split; [rewrite seq_S, rev_app_distr; reflexivity |].
    split.
    + simpl seq. simpl rev. rewrite map_app. simpl. now rewrite last_last.
    + induction k as [| k IH]; [reflexivity |].
      change (countdown (S k) (Z.of_nat (S k)))
        with (if Z.of_nat (S k) - 1 <? 0 then Some [Z.of_nat (S k)]
              else option_map (cons (Z.of_nat (S k)))
                     (countdown k (Z.of_nat (S k) - 1))).
      destruct (Z.ltb_spec (Z.of_nat (S k) - 1) 0) as [Hneg | _]; [lia |].
      replace (Z.of_nat (S k) - 1) with (Z.of_nat k) by lia. now rewrite IH.
  - intros Hs. simpl. destruct (Z.ltb_spec (seconds - 1) 0); [reflexivity | lia].
Qed.

Lemma includes_suffix needle s c :
  includes needle s = true -> includes needle (String c s) = true.
Proof. intros H. simpl. rewrite H. apply orb_true_r. Qed.

Lemma prefix_app a b s : String.prefix (a ++ b) s = true -> includes b s = true.
Proof.
  revert s. induction a as [| c a IH]; intros s; simpl.
  - intros H. change (String.prefix b s = true) in H.
    destruct s; cbn [includes]; rewrite H; reflexivity.
  - change (String.prefix (String c (a ++ b)) s = true -> includes b s = true).
    destruct s as [| d s]; [discriminate |]. cbn [String.prefix].
    destruct (ascii_dec c d); [| discriminate].
    intros H. apply includes_suffix. apply IH. exact H.
Qed.

(** X22.  [setupChain] files a chain under [arbitrumSepolia] when its
    name contains [Arbitrum Sepolia], and such a name always contains
    [Sepolia] too: only the order of the two tests keeps the Arbitrum
    chain out of the entry [sepolia].  The two names [main] passes get
    two different keys. *)
Theorem chain_key_depends_on_the_order_of_tests (chainName : string) :
  (includes "Arbitrum Sepolia" chainName = true ->
   chainKey chainName = "arbitrumSepolia" /\ includes "Sepolia" chainName = true) /\
  chainKey "Source (Arbitrum Sepolia)" = "arbitrumSepolia" /\
  chainKey "Destination (Sepolia)" = "sepolia".
Proof.
  split; [| split; reflexivity].
  intros H. split; [unfold chainKey; now rewrite H |].
  induction chainName as [| c rest IH].
  - discriminate H.
  - cbn [includes] in H. apply orb_true_iff in H. destruct H as [H | H].
    + exact (prefix_app "Arbitrum " "Sepolia" _ H).
    + apply includes_suffix. exact (IH H).
Qed.

(** ** A completed swap, seen through the status query *)









Section EndFacts.
Context {St : Type}.






End EndFacts.














Tactic Notation "stage" hyp(H) "as" ident(a) ident(t) ident(s) ident(t') ident(H1) :=
  apply exec_bind in H;
  destruct H as [(? & _ & ?) | (a & t & s & t' & H1 & H & ->)]; [discriminate |].







(** ** The transactions of the plain server *)

Ltac s1_budget H :=
  refine (within_exec _ _ _ _ _ _ _ _ H); clear H;
  unfold Server1.executeSwapAsync, Server1.swap_body;
  unfold Server1.approve_dst, Server1.create_dst_escrow, Server1.wait_src_approval,
    Server1.create_src_escrow, Server1.withdraw_src, Server1.withdraw_dst,
    Server1.transfer_to_user, Server1.complete, Server1.fail, Server1.set_status;
  solve_budget1 0.

(** X24.  Whatever the ledgers answer, one orchestration of the plain
    server sends six transactions at most, none of them twice: one
    approval, one creation of each escrow, one withdrawal on each escrow
    and the transfer to the user.  It never sends [transferFrom]: the
    relayer of the plain server does not move the tokens of the user
    itself. *)
Theorem plain_server_sends_at_most cfg ref swapData s tr s' o :
  exec (Server1.executeSwapAsync cfg ref swapData) s tr s' o ->
  spent transactions tr <= 6 /\
  spent (sends "approve") tr <= 1 /\
  spent (sends "createDstEscrow") tr <= 1 /\
  spent (sends "transferFrom") tr <= 0 /\
  spent (sends "createSrcEscrow") tr <= 1 /\
  spent (sends "withdraw") tr <= 2 /\
  spent (sends "transfer") tr <= 1.
Proof.
  intros H. repeat split; s1_budget H.
Qed.

Lemma plain_server_sends_at_most_witness :
  let r := run Sample.happy_ledger 0
             (Server1.executeSwapAsync Sample.cfg 0 Sample.swapData) Sample.store in
  spent transactions (trace r) = 6 /\ spent (sends "transferFrom") (trace r) <= 0.
Proof.
  intros r. split; [vm_compute; reflexivity |].
  pose proof (plain_server_sends_at_most Sample.cfg 0 Sample.swapData Sample.store
                (trace r) (final r) (outcome r) (run_exec _ _ _ _))
    as (_ & _ & _ & Hw & _).
  exact Hw.
Defined.

(** ** A creation that was mined and is made again *)

(** X25.  In the gas-aware server the retry of the creation of the
    destination escrow does not tell a transaction that failed from one
    whose receipt could not be read: when the sixth call of the step is
    the read of a receipt (so the first [createDstEscrow] was sent and
    mined) and that receipt shows no [DstEscrowCreated] event with an
    address, the relayer sends [createDstEscrow] a second time, with the
    same immutables, the fixed gas limit and the safety deposit once
    more. *)
Theorem unread_receipt_creates_the_escrow_again cfg ref swapData s tr s' o e receipt :
  exec (Server2.create_dst_escrow cfg ref swapData) s tr s' o ->
  nth_error tr 5 = Some e ->
  receipt_answer e = Some receipt ->
  truthy (find_dst_escrow (logs receipt)) = None ->
  (exists t g,
      nth_error (calls_of tr) 3
      = Some (Send Dst (SwapData.dstFactoryAddress swapData) "createDstEscrow"
                [ATuple (SwapData.dstImmutables swapData); AUint t]
                (with_value_gas (safetyDeposit (SwapData.dstImmutables swapData))
                   (gas_buffer g)))) /\
  (exists t,
      nth_error (calls_of tr) 7
      = Some (Send Dst (SwapData.dstFactoryAddress swapData) "createDstEscrow"
                [ATuple (SwapData.dstImmutables swapData); AUint t]
                (with_value_gas (safetyDeposit (SwapData.dstImmutables swapData)) 300000))).
Proof.
  intros H He Hr Hn.
  unfold Server2.create_dst_escrow, Server2.retry_or_fail, Server2.record_dst_escrow,
    Server2.set_status, update, balanceOf, date_now, estimateGas, send, wait,
    getTransactionReceipt in H.
  exec_all H; cbn [nth_error app] in He; try discriminate He.
  all: injection He as <-; cbn in Hr; try discriminate Hr.
  all: injection Hr as <-; try congruence.
  all: split; [eexists _, _; reflexivity | eexists; reflexivity].
Qed.

Lemma unread_receipt_creates_the_escrow_again_witness :
  let r := run blind_first_receipt 0
             (Server2.create_dst_escrow Sample.cfg 0 Sample.swapData) Sample.store in
  outcome r = inr Sample.dstEscrow /\
  spent (sends "createDstEscrow") (trace r) = 2 /\
  exists t,
    nth_error (calls_of (trace r)) 7
    = Some (Send Dst Sample.dstFactory "createDstEscrow"
              [ATuple (SwapData.dstImmutables Sample.swapData); AUint t]
              (with_value_gas (safetyDeposit (SwapData.dstImmutables Sample.swapData))
                 300000)).
Proof.
  intros r. split; [vm_compute; reflexivity |]. split; [vm_compute; reflexivity |].
  refine (proj2 (unread_receipt_creates_the_escrow_again Sample.cfg 0 Sample.swapData
                   Sample.store (trace r) (final r) (outcome r)
                   (mkEntry (GetTransactionReceipt Dst "0x7acreateDstEscrow")
                      (inr (Some {| logs := []; blockNumber := 200 |})))
                   {| logs := []; blockNumber := 200 |} (run_exec _ _ _ _) _ _ _)).
  - vm_compute. reflexivity.
  - reflexivity.
  - reflexivity.
Defined.


(** ** The last [try] of the multi-fill script *)

Lemma spent_app cost (tr1 tr2 : list Entry) :
  spent cost (tr1 ++ tr2) = spent cost tr1 + spent cost tr2.
Proof. induction tr1 as [| e tr1 IH]; simpl; lia. Qed.

(** One withdrawal of the multi-fill script: it returns, it has tried to
    send the withdrawal at least once, and it reads no ETH balance. *)
Lemma mf_withdraw_from_trace secrets ch c escrow i s tr s' o :
  exec (MultiFill.withdraw_from secrets ch c escrow i) s tr s' o ->
  o = inr tt /\
  spent (sends "createDstEscrow") tr = 0 /\
  1 <= spent (sends "withdraw") tr /\
  Forall (fun e => reads_eth_balance (e_call e) = false) tr.
Proof.
  intros H. unfold MultiFill.withdraw_from, balanceOf, estimateGas, send, wait in H.
  exec_run H; (split; [assumption || reflexivity |]); cbn; repeat split; try lia;
    repeat constructor.
Qed.

(** The [try] block of the last [try]/[catch], run to any end with a read
    of an ETH balance in its trace. *)
Ltac last_try_block H He Hb :=
  unfold balanceOf, date_now, estimateGas, send, wait, MultiFill.block_timestamp, sleep in H;
  exec_all H;
  try (exfalso; repeat (destruct He as [<- | He]; [cbn in Hb; discriminate Hb |]);
       destruct He);
  apply exec_bind in H;
  destruct H as [(? & H & _) | (? & ? & ? & ? & Hw1 & H & ->)];
  [ apply mf_withdraw_from_trace in H; destruct H as [H _]; discriminate H |];
  apply exec_bind in H;
  destruct H as [(? & H & _) | (? & ? & ? & ? & Hw2 & H & ->)];
  [ apply mf_withdraw_from_trace in H; destruct H as [H _]; discriminate H |];
  apply mf_withdraw_from_trace in Hw1; destruct Hw1 as (_ & Hc1 & Hn1 & Hf1);
  apply mf_withdraw_from_trace in Hw2; destruct Hw2 as (_ & Hc2 & Hn2 & Hf2);
  rewrite List.Forall_forall in Hf1, Hf2;
  unfold MultiFill.final_verification, balanceOf, getBalance in H;
  exec_run H;
  (split; [| split];
  [ cbn [spent e_call sends String.eqb Ascii.eqb Bool.eqb]; rewrite ?spent_app;
    cbn [spent e_call sends String.eqb Ascii.eqb Bool.eqb]; lia ..
  | intros Hr;
    repeat match type of He with
      | In _ (_ :: _) =>
          destruct He as [<- | He];
          [ cbn in Hb, Hr; first [discriminate Hb | discriminate Hr | eauto] |]
      | In _ (_ ++ _) =>
          apply in_app_or in He; destruct He as [He | He];
          [ first [apply Hf1 in He | apply Hf2 in He]; congruence |]
      | In _ [] => destruct He
      end ]).

(** X26.  In the multi-fill script the final reads stand inside the
    [try] that creates the destination escrow, whose [catch] creates it
    again: when a read of an ETH balance is rejected (the script reads
    them only in its final verification, after both withdrawals), the
    script goes on to send [createDstEscrow] a second time, with the
    fixed gas limit and the safety deposit once more.  Before that second
    creation the first one was sent and at least two withdrawals were
    attempted. *)
Theorem failed_final_read_creates_the_escrow_again
    srcChain dstChain secrets srcImmutables dstImmutables srcEscrowAddress s tr s' o e :
  exec (MultiFill.create_dst_and_withdraw srcChain dstChain secrets srcImmutables dstImmutables
          srcEscrowAddress) s tr s' o ->
  In e tr -> reads_eth_balance (e_call e) = true -> rejected e = true ->
  exists pre t ans post,
    tr = pre
         ++ mkEntry DateNow t
         :: mkEntry (Send Dst (MultiFill.escrowFactory dstChain) "createDstEscrow"
                       [ATuple dstImmutables; AUint (t / 1000 + 3600)]
                       (with_value_gas SAFETY_DEPOSIT 300000)) ans
         :: post /\
    In e pre /\
    spent (sends "createDstEscrow") pre = 1 /\
    2 <= spent (sends "withdraw") pre.
Proof.
  intros H He Hb Hr. unfold MultiFill.create_dst_and_withdraw in H.
  apply exec_try_catch in H.
  destruct H as [(x & H & ->) | (m & tr1 & s1 & tr2 & H & Hh & ->)].
  - assert (G : spent (sends "createDstEscrow") tr = 1 /\ 2 <= spent (sends "withdraw") tr /\
                (rejected e = true -> exists m, @inr string _ x = inl m)).
    { clear Hr. last_try_block H He Hb. }
    destruct G as (_ & _ & G). destruct (G Hr) as [? ?]. discriminate.
  - assert (He1 : In e tr1).
    { apply in_app_or in He. destruct He as [He | He]; [exact He |]. exfalso.
      unfold date_now, send, wait in Hh. exec_run Hh;
        repeat (destruct He as [<- | He]; [cbn in Hb; discriminate Hb |]); destruct He. }
    assert (G : spent (sends "createDstEscrow") tr1 = 1 /\
                2 <= spent (sends "withdraw") tr1 /\
                (rejected e = true -> exists m', @inl string (MultiFill.Flow unit) m = inl m')).
    { clear Hr He Hh. last_try_block H He1 Hb. }
    destruct G as (G1 & G2 & _).
    unfold date_now, send, wait in Hh. exec_run Hh; do 4 eexists; (split; [reflexivity | auto]).
Qed.

Lemma failed_final_read_creates_the_escrow_again_witness :
  let r := run no_eth_reads 0
             (MultiFill.create_dst_and_withdraw Sample.chain_src Sample.chain_dst Sample.secrets
                (SwapData.srcImmutables Sample.swapData) (SwapData.dstImmutables Sample.swapData)
                Sample.srcEscrow) tt in
  spent (sends "withdraw") (trace r) = 2 /\
  spent (sends "createDstEscrow") (trace r) = 2 /\
  exists pre t ans post,
    trace r = pre
         ++ mkEntry DateNow t
         :: mkEntry (Send Dst Sample.dstFactory "createDstEscrow"
                       [ATuple (SwapData.dstImmutables Sample.swapData); AUint (t / 1000 + 3600)]
                       (with_value_gas SAFETY_DEPOSIT 300000)) ans
         :: post /\
    In (mkEntry (GetBalance Src Sample.srcEscrow) (inl "timeout")) pre /\
    spent (sends "createDstEscrow") pre = 1 /\
    2 <= spent (sends "withdraw") pre.
Proof.
  intros r. split; [vm_compute; reflexivity |]. split; [vm_compute; reflexivity |].
  apply (failed_final_read_creates_the_escrow_again Sample.chain_src Sample.chain_dst
           Sample.secrets (SwapData.srcImmutables Sample.swapData)
           (SwapData.dstImmutables Sample.swapData) Sample.srcEscrow tt (trace r) (final r)
           (outcome r) (mkEntry (GetBalance Src Sample.srcEscrow) (inl "timeout"))
           (run_exec _ _ _ _)).
  - apply (nth_error_In _ 21). vm_compute. reflexivity.
  - reflexivity.
  - reflexivity.
Defined.
